(** * nsf-outreach: the award loader, the draft generator, the review moves
      and the batch sender, embedded as functions over an explicit
      filesystem state.

    The JavaScript modules [utils.js], [awards.js], [generate.js],
    [review.js] and [send.js] are translated function by function.  The
    filesystem is a record of directories, each directory an association
    list from a file's base name (the part before [.json]) to its content,
    in listing order.  Everything outside the process (the clock,
    [Math.random], the text-generation API, the delivery API) is an oracle
    that sees the history of events so far; every interaction with the
    outside, and every read of a directory or file, is appended to that
    history. *)

From Stdlib Require Import String Ascii List ZArith Bool Arith Lia Permutation Sorted.
Import ListNotations.
Local Open Scope string_scope.
Local Open Scope list_scope.

(** ** JavaScript strings and truthiness *)

Module JS.

(** [String.prototype.toLowerCase] belongs to the engine, not to the
    program, and maps all of Unicode.  The program is modelled over whatever
    function it is: what is proved of [matchesKeywords] and of the loaders
    holds for every [toLowerCase]. *)
Class Lowering : Type := { toLowerCase : string -> string }.

(** What [toLowerCase] does on the ASCII range; the scenarios run with
    it. *)
Definition lower_ascii (c : ascii) : ascii :=
  let n := nat_of_ascii c in
  if ((65 <=? n) && (n <=? 90))%nat then ascii_of_nat (n + 32) else c.

Fixpoint toLowerCaseAscii (s : string) : string :=
  match s with
  | EmptyString => EmptyString
  | String c t => String (lower_ascii c) (toLowerCaseAscii t)
  end.

(** [s.startsWith(p)]. *)
Fixpoint startsWith (p s : string) : bool :=
  match p, s with
  | EmptyString, _ => true
  | String _ _, EmptyString => false
  | String a p', String b s' => Ascii.eqb a b && startsWith p' s'
  end.

(** [hay.includes(needle)]. *)
Fixpoint includes (hay needle : string) : bool :=
  startsWith needle hay ||
  match hay with
  | EmptyString => false
  | String _ t => includes t needle
  end.

(** White space removed by [trim], on the ASCII range. *)
Definition is_space (c : ascii) : bool :=
  let n := nat_of_ascii c in
  ((n =? 32) || ((9 <=? n) && (n <=? 13)))%nat.

Fixpoint trimStart (s : string) : string :=
  match s with
  | EmptyString => EmptyString
  | String c t => if is_space c then trimStart t else s
  end.

Fixpoint rev_string (s acc : string) : string :=
  match s with
  | EmptyString => acc
  | String c t => rev_string t (String c acc)
  end.

Definition trim (s : string) : string :=
  rev_string (trimStart (rev_string (trimStart s) EmptyString)) EmptyString.

(** A string-valued property that may be [undefined] or [null] is an
    [option string]; it is truthy when it holds a non-empty string. *)
Definition truthy (o : option string) : bool :=
  match o with
  | Some s => negb (s =? "")
  | None => false
  end.

(** [a || b] on such properties. *)
Definition or (a b : option string) : option string :=
  if truthy a then a else b.

(** [a || d] where [d] is a string: the result is always a string. *)
Definition or_str (a : option string) (d : string) : string :=
  match a with
  | Some s => if s =? "" then d else s
  | None => d
  end.

(** Numbers: [0] is falsy. *)
Definition truthy_num (o : option Z) : bool :=
  match o with
  | Some z => negb (z =? 0)%Z
  | None => false
  end.

Definition or_num (a b : option Z) : option Z :=
  if truthy_num a then a else b.

(** [arr.slice(0, end)]: a negative [end] counts from the end of the
    array. *)
Definition slice0 {A : Type} (l : list A) (e : Z) : list A :=
  let len := Z.of_nat (List.length l) in
  let stop := if (e <? 0)%Z then Z.max (len + e) 0 else Z.min e len in
  firstn (Z.to_nat stop) l.

End JS.

(** ** Directories *)

(** What reading and parsing a [.json] file can give.  [readJson] maps the
    first three to [null]. *)
Inductive file (A : Type) : Type :=
| Unreadable
| Malformed
| JsonNull
| JsonObject (a : A).
Arguments Unreadable {A}.
Arguments Malformed {A}.
Arguments JsonNull {A}.
Arguments JsonObject {A} a.

(** A directory: the [.json] files it holds, by base name, in the order
    [readdirSync] lists them. *)
Definition dir (A : Type) : Type := list (string * file A).

Section Dir.
Context {A : Type}.

Definition dir_ids (d : dir A) : list string := map fst d.

Fixpoint dir_lookup (id : string) (d : dir A) : option (file A) :=
  match d with
  | [] => None
  | (k, f) :: rest => if k =? id then Some f else dir_lookup id rest
  end.

Definition dir_has (id : string) (d : dir A) : bool :=
  existsb (fun k => k =? id) (dir_ids d).

(** [writeFileSync]: an existing file is overwritten in place, a new one
    is created (it is listed last here; no property below depends on where
    a new file is listed). *)
Fixpoint dir_write (id : string) (f : file A) (d : dir A) : dir A :=
  match d with
  | [] => [(id, f)]
  | (k, g) :: rest =>
      if k =? id then (k, f) :: rest else (k, g) :: dir_write id f rest
  end.

(** [unlinkSync]. *)
Definition dir_unlink (id : string) (d : dir A) : dir A :=
  filter (fun p => negb (fst p =? id)) d.

(** File names in a directory are unique. *)
Fixpoint unique_names (d : dir A) : bool :=
  match d with
  | [] => true
  | (k, _) :: rest => negb (dir_has k rest) && unique_names rest
  end.

(** What [readJson] returns for a file. *)
Definition parsed (f : file A) : option A :=
  match f with
  | JsonObject a => Some a
  | _ => None
  end.

Definition dir_read (id : string) (d : dir A) : option A :=
  match dir_lookup id d with
  | Some f => parsed f
  | None => None
  end.
End Dir.

(** ** Data model *)

(** An award file as NSF publishes it (with the aliases an earlier
    normalisation may have left in it). *)
Module Raw.
Record pi_entry : Type := mkPi {
  pi_role : option string;
  pi_first_name : option string;
  pi_last_name : option string;
  pi_full_name : option string;
  pi_email_addr : option string
}.

Record award : Type := mkAward {
  awd_titl_txt : option string;
  title : option string;
  awd_abstract_narration : option string;
  abstractText : option string;
  awd_id : option string;
  awardNumber : option string;
  pi : option (list pi_entry);
  piFirstName : option string;
  piLastName : option string;
  piEmail : option string;
  inst_name : option string;        (* [inst.inst_name] *)
  awardeeName : option string;
  awd_amount : option Z;
  tot_intn_awd_amt : option Z
}.
End Raw.

(** An award as [loadAwards] and [loadStagingAwards] hand it on: the file's
    properties, with [title], [abstractText] and [awardNumber] overwritten by
    their normalised values, and [_id] (and [_year]) added. *)
Record award : Type := mkAward {
  source : Raw.award;
  title : string;
  abstractText : string;
  awardNumber : string;
  _id : string;
  _year : option string
}.

(** The [variants] property of a generated email. *)
Record variant_ids : Type := mkVariantIds {
  template_id : string;
  template_name : string;
  ouro_description_id : string;
  call_to_action_id : string
}.

(** The record [generateEmail] builds, [saveDraft] writes and the later
    stages move around. *)
Record email : Type := mkEmail {
  award_id : string;
  pi_name : string;
  pi_email : option string;
  institution : string;
  award_title : string;
  award_amount : option Z;
  subject : string;
  body : string;
  variants : variant_ids;
  generated_at : string;
  sent_at : option string;
  resend_id : option string
}.

(** The [enabled] property of a variant: absent, a boolean, or some other
    JSON value. *)
Inductive enabled_field : Type :=
| EnabledAbsent
| EnabledBool (b : bool)
| EnabledOther.

Record template_item : Type := mkTemplate {
  t_id : string;
  t_name : string;
  angle : string;
  tone : string;
  subject_line_style : string;
  sign_off_style : string;
  t_enabled : enabled_field
}.

Record blurb_item : Type := mkBlurb {
  b_id : string;
  content : string;
  b_enabled : enabled_field
}.

(** [templates/variants.json]. *)
Record variants_config : Type := mkVariants {
  templates : list template_item;
  ouro_descriptions : list blurb_item;
  call_to_actions : list blurb_item
}.

Class HasEnabled (A : Type) : Type := enabled : A -> enabled_field.
#[global] Instance template_enabled : HasEnabled template_item := t_enabled.
#[global] Instance blurb_enabled : HasEnabled blurb_item := b_enabled.

(** ** The filesystem *)

Inductive folder : Type := Drafts | Approved | Sent | Skipped.

Definition folder_eqb (a b : folder) : bool :=
  match a, b with
  | Drafts, Drafts | Approved, Approved | Sent, Sent | Skipped, Skipped => true
  | _, _ => false
  end.

Record store : Type := mkStore {
  drafts : dir email;
  approved : dir email;
  sent : dir email;
  skipped : dir email;
  awards : list (string * dir Raw.award);     (* [awards/<year>/] *)
  variants_json : option variants_config      (* [None]: no such file *)
}.

Definition folder_dir (f : folder) (s : store) : dir email :=
  match f with
  | Drafts => drafts s
  | Approved => approved s
  | Sent => sent s
  | Skipped => skipped s
  end.

Definition with_folder (f : folder) (d : dir email) (s : store) : store :=
  match f with
  | Drafts => mkStore d (approved s) (sent s) (skipped s) (awards s) (variants_json s)
  | Approved => mkStore (drafts s) d (sent s) (skipped s) (awards s) (variants_json s)
  | Sent => mkStore (drafts s) (approved s) d (skipped s) (awards s) (variants_json s)
  | Skipped => mkStore (drafts s) (approved s) (sent s) d (awards s) (variants_json s)
  end.

Fixpoint year_dir (year : string) (a : list (string * dir Raw.award)) : dir Raw.award :=
  match a with
  | [] => []
  | (y, d) :: rest => if y =? year then d else year_dir year rest
  end.

(** ** The outside world *)

(** A value of [Math.random()]: the fraction [num / (num + gap + 1)], which
    lies in [0, 1). *)
Record unit_interval : Type := mkUnit { num : nat; gap : nat }.

(** [Math.floor(r * n)]. *)
Definition floor_scale (r : unit_interval) (n : nat) : nat :=
  (num r * n) / (num r + gap r + 1).

(** The message [resend.emails.send] receives. *)
Record request : Type := mkRequest {
  from : option string;
  to : string;
  req_subject : string;
  text : string
}.

(** What the delivery API answers: [{data}] (whose [id] may be missing),
    [{error}], or a rejected promise. *)
Inductive provider_reply : Type :=
| ReplyData (id : option string)
| ReplyError (msg : string)
| ReplyReject (msg : string).

(** What the text-generation API answers: a rejected promise, or a content
    list in which the first [create_email] tool-use block, if any, carries an
    input with optional [subject] and [body]. *)
Inductive model_reply : Type :=
| ModelReject (msg : string)
| ModelContent (tool_input : option (option string * option string)).

Inductive event : Type :=
| EvListIds (f : folder)
| EvReadJson (f : folder) (id : string)
| EvListAwards (year : string)
| EvReadAward (year id : string)
| EvReadVariants
| EvRandom (r : unit_interval)
| EvModelCall (prompt : string) (reply : model_reply)
| EvDispatch (req : request) (reply : provider_reply)
| EvSleep (ms : Z)
| EvProgress (current total : nat) (awardId : string) (recipient : option string).

(** [process.env]. *)
Record environment : Type := mkEnv {
  RESEND_API_KEY : option string;
  FROM_NAME : option string
}.

Record world : Type := mkWorld {
  fs : store;
  env : environment;
  log : list event
}.

(** ** Computations that read and write the world and may throw *)

(** A JavaScript [Error], known by its message. *)
Inductive error : Type := Error (message : string).

Definition message (e : error) : string := let (m) := e in m.

Inductive result (A : Type) : Type :=
| Ok (a : A)
| Throw (e : error).
Arguments Ok {A} a.
Arguments Throw {A} e.

Definition M (A : Type) : Type := world -> result A * world.

Definition ret {A : Type} (a : A) : M A := fun w => (Ok a, w).

Definition bind {A B : Type} (c : M A) (k : A -> M B) : M B :=
  fun w =>
    match c w with
    | (Ok a, w') => k a w'
    | (Throw e, w') => (Throw e, w')
    end.

Definition throw {A : Type} (msg : string) : M A := fun w => (Throw (Error msg), w).

(** [try { c } catch (err) { h err }]: what [c] did before it threw stays
    done. *)
Definition try_catch {A : Type} (c : M A) (h : error -> M A) : M A :=
  fun w =>
    match c w with
    | (Ok a, w') => (Ok a, w')
    | (Throw e, w') => h e w'
    end.

Definition emit (ev : event) : M unit :=
  fun w => (Ok tt, mkWorld (fs w) (env w) (log w ++ [ev])).

Definition get_fs : M store := fun w => (Ok (fs w), w).
Definition put_fs (s : store) : M unit := fun w => (Ok tt, mkWorld s (env w) (log w)).
Definition get_env : M environment := fun w => (Ok (env w), w).
Definition get_log : M (list event) := fun w => (Ok (log w), w).

Declare Scope js_scope.
Delimit Scope js_scope with js.
Notation "x <- c ;; k" := (bind c (fun x => k))
  (at level 61, c at next level, right associativity) : js_scope.
Notation "c ;; k" := (bind c (fun _ => k))
  (at level 61, right associativity) : js_scope.
Local Open Scope js_scope.

(** ** utils.js *)

Definition listIds (f : folder) : M (list string) :=
  emit (EvListIds f) ;;
  s <- get_fs ;;
  ret (dir_ids (folder_dir f s)).

Definition readJson (f : folder) (id : string) : M (option email) :=
  emit (EvReadJson f id) ;;
  s <- get_fs ;;
  ret (dir_read id (folder_dir f s)).

Definition writeJson (f : folder) (id : string) (data : email) : M unit :=
  s <- get_fs ;;
  put_fs (with_folder f (dir_write id (JsonObject data) (folder_dir f s)) s).

Definition unlinkSync (f : folder) (id : string) : M unit :=
  s <- get_fs ;;
  put_fs (with_folder f (dir_unlink id (folder_dir f s)) s).

(** [fs.renameSync] inside one tree: fails when the source is missing,
    replaces the destination silently. *)
Definition moveFile (id : string) (fromFolder toFolder : folder) : M unit :=
  s <- get_fs ;;
  match dir_lookup id (folder_dir fromFolder s) with
  | None => throw "ENOENT: no such file or directory"
  | Some f =>
      if folder_eqb fromFolder toFolder then ret tt
      else
        let s1 := with_folder toFolder (dir_write id f (folder_dir toFolder s)) s in
        put_fs (with_folder fromFolder (dir_unlink id (folder_dir fromFolder s1)) s1)
  end.

Definition matchesKeywords {L : JS.Lowering} (text : string) (keywords : list string)
    : bool :=
  match keywords with
  | [] => true
  | _ =>
      if text =? "" then false
      else
        let lowerText := JS.toLowerCase text in
        existsb (fun kw => JS.includes lowerText (JS.toLowerCase kw)) keywords
  end.

Definition sleep (ms : Z) : M unit := emit (EvSleep ms).

(** [ensureDirs] creates the status directories that are missing.  The
    store holds every directory from the start (a missing one and an empty
    one list the same files), so it has nothing to do here. *)
Definition ensureDirs : M unit := ret tt.

(** ** awards.js *)

Definition listAwardIds (year : string) : M (list string) :=
  emit (EvListAwards year) ;;
  s <- get_fs ;;
  ret (dir_ids (year_dir year (awards s))).

Definition loadAward (awardId year : string) : M (option Raw.award) :=
  emit (EvReadAward year awardId) ;;
  s <- get_fs ;;
  ret (dir_read awardId (year_dir year (awards s))).

(** The three assignments and the spread of [loadAwards]. *)
Definition normalize (id : string) (year : option string) (raw : Raw.award) : award :=
  {| source := raw;
     title := JS.or_str (JS.or (Raw.awd_titl_txt raw) (Raw.title raw)) "";
     abstractText :=
       JS.or_str (JS.or (Raw.awd_abstract_narration raw) (Raw.abstractText raw)) "";
     awardNumber := JS.or_str (JS.or (Raw.awd_id raw) (Raw.awardNumber raw)) id;
     _id := id;
     _year := year |}.

Definition searchText (a : award) : string :=
  title a ++ " " ++ abstractText a.

Fixpoint loadAwards_loop {L : JS.Lowering} (year : string) (keywords : list string)
    (ids : list string) (acc : list award) : M (list award) :=
  match ids with
  | [] => ret acc
  | id :: rest =>
      r <- loadAward id year ;;
      match r with
      | None => loadAwards_loop year keywords rest acc
      | Some raw =>
          let a := normalize id (Some year) raw in
          if matchesKeywords (searchText a) keywords
          then loadAwards_loop year keywords rest (acc ++ [a])
          else loadAwards_loop year keywords rest acc
      end
  end.

Definition loadAwards {L : JS.Lowering} (year : string) (keywords : list string)
    : M (list award) :=
  ids <- listAwardIds year ;;
  loadAwards_loop year keywords ids [].

(** [award.awardNumber || award._id]. *)
Definition awardId_of (a : award) : string :=
  if awardNumber a =? "" then _id a else awardNumber a.

Definition set_has (s : list string) (x : string) : bool :=
  existsb (fun y => y =? x) s.

Definition getUnprocessedAwards {L : JS.Lowering} (year : string)
    (keywords : list string) : M (list award) :=
  found <- loadAwards year keywords ;;
  d <- listIds Drafts ;;
  a <- listIds Approved ;;
  s <- listIds Sent ;;
  k <- listIds Skipped ;;
  let processed := d ++ a ++ s ++ k in
  ret (filter (fun aw => negb (set_has processed (awardId_of aw))) found).

Module Info.
Record pi_info : Type := mkInfo {
  piFirstName : string;
  piLastName : string;
  piName : string;
  piEmail : option string;
  institution : string
}.
End Info.

Definition empty_pi : Raw.pi_entry := Raw.mkPi None None None None None.

Definition is_principal (p : Raw.pi_entry) : bool :=
  match Raw.pi_role p with
  | Some r => r =? "Principal Investigator"
  | None => false
  end.

Definition extractPIInfo (a : award) : Info.pi_info :=
  let raw := source a in
  let piData :=
    match Raw.pi raw with
    | Some l =>
        match find is_principal l with
        | Some p => p
        | None => match l with p :: _ => p | [] => empty_pi end
        end
    | None => empty_pi
    end in
  let piFirstName := JS.or_str (JS.or (Raw.pi_first_name piData) (Raw.piFirstName raw)) "" in
  let piLastName := JS.or_str (JS.or (Raw.pi_last_name piData) (Raw.piLastName raw)) "" in
  let piEmail :=
    let e := JS.or (Raw.pi_email_addr piData) (Raw.piEmail raw) in
    if JS.truthy e then e else None in
  let institution := JS.or_str (JS.or (Raw.inst_name raw) (Raw.awardeeName raw)) "" in
  {| Info.piFirstName := piFirstName;
     Info.piLastName := piLastName;
     Info.piName :=
       JS.or_str (Raw.pi_full_name piData) (JS.trim (piFirstName ++ " " ++ piLastName));
     Info.piEmail := piEmail;
     Info.institution := institution |}.

(** [piEmail && piEmail.includes("@")], as a truth value. *)
Definition hasValidContact (a : award) : bool :=
  match Info.piEmail (extractPIInfo a) with
  | Some e => if e =? "" then false else JS.includes e "@"
  | None => false
  end.

(** ** The collaborators *)

(** The oracles for what the process calls outside itself, each a function
    of the history so far, and the two pure text builders of [generate.js]
    (the prompt template and the closing-comma-and-signature step), which
    are kept abstract: nothing below depends on the text they produce. *)
Record outside : Type := mkOutside {
  Math_random : list event -> unit_interval;
  Date_now : list event -> string;                       (* [new Date().toISOString()] *)
  messages_create : list event -> string -> model_reply; (* [anthropic.messages.create] *)
  emails_send : list event -> request -> provider_reply  (* [resend.emails.send] *)
}.

Module Style.
Record guide : Type := mkGuide {
  angle : string;
  tone : string;
  subject_line_style : string;
  sign_off_style : string;
  ouro_description : string;
  call_to_action : string
}.
End Style.

(** What [selectVariants] returns; a property is [None] where JavaScript
    would have [undefined]. *)
Record selection : Type := mkSelection {
  template : option template_item;
  ouro_description : option blurb_item;
  call_to_action : option blurb_item
}.

Module Generated.
Record results : Type := mkResults {
  generated : list (string * string);   (* [{awardId, filepath}] *)
  errors : list (string * string)       (* [{awardId, error}] *)
}.
End Generated.

Module SentEntry.
Record t : Type := mk {
  awardId : string;
  recipient : option string;
  subject : string;
  resendId : option string
}.
End SentEntry.

Module ErrorEntry.
Record t : Type := mk {
  awardId : string;
  recipient : option string;
  error : string
}.
End ErrorEntry.

Module Results.
Record t : Type := mk {
  sent : list SentEntry.t;
  errors : list ErrorEntry.t;
  dryRun : bool
}.
End Results.

(** The options of [sendApprovedEmails], defaults applied. *)
Record send_options : Type := mkSendOptions {
  limit : Z;
  delay : Z;
  dryRun : bool;
  fromEmail : option string;
  fromName : option string;
  onProgress : bool                      (* is a callback given? *)
}.

(** What [sendEmail] resolves to. *)
Record send_outcome : Type := mkOutcome {
  so_dryRun : bool;
  resendId : option string;
  so_to : option string;
  so_subject : string
}.

(** The state of a review session. *)
Record review_state : Type := mkReview {
  rv_folder : folder;
  emails : list (string * email);        (* [{id, email}] *)
  currentIndex : nat;
  running : bool
}.

Fixpoint mapM {A B : Type} (f : A -> M B) (l : list A) : M (list B) :=
  match l with
  | [] => ret []
  | x :: rest =>
      y <- f x ;;
      ys <- mapM f rest ;;
      ret (y :: ys)
  end.

Fixpoint list_set {A : Type} (i : nat) (x : A) (l : list A) : list A :=
  match l, i with
  | [], _ => []
  | _ :: t, O => x :: t
  | h :: t, S i' => h :: list_set i' x t
  end.

(** [[l[i], l[j]] = [l[j], l[i]]]. *)
Definition swap {A : Type} (i j : nat) (l : list A) : list A :=
  match nth_error l i, nth_error l j with
  | Some a, Some b => list_set j a (list_set i b l)
  | _, _ => l
  end.

(** A template literal prints a missing value as [undefined]. *)
Definition interpolate (o : option string) : string :=
  match o with
  | Some s => s
  | None => "undefined"
  end.

Section Pipeline.
Variable out : outside.
Variable buildPrompt : award -> Style.guide -> string.
(** [finishBody senderName body]: the body as [generateEmail] stores it. *)
Variable finishBody : string -> string -> string.

Definition random : M unit_interval :=
  h <- get_log ;;
  let r := Math_random out h in
  emit (EvRandom r) ;;
  ret r.

Definition now : M string :=
  h <- get_log ;;
  ret (Date_now out h).

(** *** generate.js *)

Definition loadAllVariants : M variants_config :=
  emit EvReadVariants ;;
  s <- get_fs ;;
  match variants_json s with
  | None => throw "variants.json not found"
  | Some all => ret all
  end.

Definition randomSelect {A : Type} (arr : list A) : M (option A) :=
  r <- random ;;
  ret (nth_error arr (floor_scale r (List.length arr))).

Fixpoint shuffle_from {A : Type} (i : nat) (shuffled : list A) : M (list A) :=
  match i with
  | O => ret shuffled
  | S i' =>
      r <- random ;;
      let j := floor_scale r (i + 1) in
      shuffle_from i' (swap i j shuffled)
  end.

Definition shuffleArray {A : Type} (arr : list A) : M (list A) :=
  shuffle_from (List.length arr - 1) arr.

(** [item.enabled !== false]. *)
Definition is_enabled {A : Type} `{HasEnabled A} (item : A) : bool :=
  match enabled item with
  | EnabledBool false => false
  | _ => true
  end.

Definition filterEnabled {A : Type} `{HasEnabled A} (items : list A) : list A :=
  filter is_enabled items.

Definition selectVariants : M selection :=
  all <- loadAllVariants ;;
  let enabledTemplates := filterEnabled (templates all) in
  let enabledOuroDescriptions := filterEnabled (ouro_descriptions all) in
  let enabledCallToActions := filterEnabled (call_to_actions all) in
  if (List.length enabledTemplates =? 0)%nat
  then throw "No enabled templates available"
  else if (List.length enabledOuroDescriptions =? 0)%nat
  then throw "No enabled ouro_descriptions available"
  else if (List.length enabledCallToActions =? 0)%nat
  then throw "No enabled call_to_actions available"
  else
    t <- randomSelect enabledTemplates ;;
    d <- randomSelect enabledOuroDescriptions ;;
    c <- randomSelect enabledCallToActions ;;
    ret {| template := t; ouro_description := d; call_to_action := c |}.

Definition undefined_property {A : Type} : M A :=
  throw "Cannot read properties of undefined".

Definition buildStyleGuide (v : selection) : M Style.guide :=
  match template v, ouro_description v, call_to_action v with
  | Some t, Some d, Some c =>
      ret {| Style.angle := angle t;
             Style.tone := tone t;
             Style.subject_line_style := subject_line_style t;
             Style.sign_off_style := sign_off_style t;
             Style.ouro_description := content d;
             Style.call_to_action := content c |}
  | _, _, _ => undefined_property
  end.

Definition variant_ids_of (v : selection) : M variant_ids :=
  match template v, ouro_description v, call_to_action v with
  | Some t, Some d, Some c =>
      ret {| template_id := t_id t;
             template_name := t_name t;
             ouro_description_id := b_id d;
             call_to_action_id := b_id c |}
  | _, _, _ => undefined_property
  end.

Definition isAlreadyProcessed (awardId : string) : M bool :=
  d <- listIds Drafts ;;
  a <- listIds Approved ;;
  s <- listIds Sent ;;
  k <- listIds Skipped ;;
  let processed := d ++ a ++ s ++ k in
  ret (set_has processed awardId).

Definition generateEmail (a : award) (senderName : option string) : M email :=
  if negb (hasValidContact a)
  then throw "Award does not have valid PI email"
  else
    let awardId := awardId_of a in
    processed <- isAlreadyProcessed awardId ;;
    if processed
    then throw ("Award " ++ awardId ++
                " has already been processed (draft, approved, sent, or skipped)")
    else
      v <- selectVariants ;;
      styleGuide <- buildStyleGuide v ;;
      let prompt := buildPrompt a styleGuide in
      let pi := extractPIInfo a in
      h <- get_log ;;
      let response := messages_create out h prompt in
      emit (EvModelCall prompt response) ;;
      match response with
      | ModelReject msg => throw msg
      | ModelContent None => throw "No tool use response from Claude"
      | ModelContent (Some (subj, bod)) =>
          if negb (JS.truthy subj) || negb (JS.truthy bod)
          then throw "Response missing subject or body"
          else
            e <- get_env ;;
            let sender := JS.or_str (JS.or senderName (FROM_NAME e)) "" in
            let bodyWithSignature := finishBody sender (JS.or_str bod "") in
            let awardAmount :=
              JS.or_num (Raw.awd_amount (source a)) (Raw.tot_intn_awd_amt (source a)) in
            ids <- variant_ids_of v ;;
            t <- now ;;
            ret {| award_id := awardId;
                   pi_name := Info.piName pi;
                   pi_email := Info.piEmail pi;
                   institution := Info.institution pi;
                   award_title := title a;
                   award_amount := if JS.truthy_num awardAmount then awardAmount else None;
                   subject := JS.or_str subj "";
                   body := bodyWithSignature;
                   variants := ids;
                   generated_at := t;
                   sent_at := None;
                   resend_id := None |}
      end.

Definition saveDraft (e : email) : M string :=
  ensureDirs ;;
  writeJson Drafts (award_id e) e ;;
  ret ("drafts/" ++ award_id e ++ ".json")%string.

(** The body of the loop of [generateEmails]. *)
Definition generate_one (progress : bool) (total i : nat) (a : award)
    (senderName : option string) (results : Generated.results)
    : M Generated.results :=
  let awardId := awardId_of a in
  (if progress then emit (EvProgress (i + 1) total awardId None) else ret tt) ;;
  try_catch
    (e <- generateEmail a senderName ;;
     filepath <- saveDraft e ;;
     ret {| Generated.generated := Generated.generated results ++ [(awardId, filepath)];
            Generated.errors := Generated.errors results |})
    (fun err =>
       ret {| Generated.generated := Generated.generated results;
              Generated.errors := Generated.errors results ++ [(awardId, message err)] |}).

Fixpoint generate_loop (progress : bool) (total i : nat) (toProcess : list award)
    (senderName : option string) (results : Generated.results)
    : M Generated.results :=
  match toProcess with
  | [] => ret results
  | a :: rest =>
      results' <- generate_one progress total i a senderName results ;;
      generate_loop progress total (S i) rest senderName results'
  end.

Definition generateEmails (awards : list award) (limit : Z) (progress : bool)
    (senderName : option string) : M Generated.results :=
  shuffled <- shuffleArray awards ;;
  let toProcess := JS.slice0 shuffled limit in
  generate_loop progress (List.length toProcess) 0 toProcess senderName
    {| Generated.generated := []; Generated.errors := [] |}.

(** *** review.js *)

Definition load_entry (f : folder) (id : string) : M (string * option email) :=
  e <- readJson f id ;;
  ret (id, e).

Fixpoint valid_entries (l : list (string * option email)) : list (string * email) :=
  match l with
  | [] => []
  | (id, Some e) :: rest => (id, e) :: valid_entries rest
  | (_, None) :: rest => valid_entries rest
  end.

Definition refresh (st : review_state) : review_state :=
  match emails st with
  | [] => mkReview (rv_folder st) (emails st) (currentIndex st) false
  | _ =>
      if (List.length (emails st) <=? currentIndex st)%nat
      then mkReview (rv_folder st) (emails st) (List.length (emails st) - 1) (running st)
      else st
  end.

(** [startReview], up to the first screen; [None] when there is nothing to
    review. *)
Definition startReview (f : folder) : M (option review_state) :=
  ensureDirs ;;
  ids <- listIds f ;;
  if (List.length ids =? 0)%nat then ret None
  else
    loaded <- mapM (load_entry f) ids ;;
    let emails := valid_entries loaded in
    if (List.length emails =? 0)%nat then ret None
    else ret (Some (refresh (mkReview f emails 0 true))).

Fixpoint splice1 {A : Type} (i : nat) (l : list A) : list A :=
  match l, i with
  | [], _ => []
  | _ :: t, 0%nat => t
  | h :: t, S i' => h :: splice1 i' t
  end.

(** The approve and skip branches of [handleKeypress]: move the current
    draft, drop it from the session; an error is printed and the session
    goes on. *)
Definition decide (dest : folder) (st : review_state) : M review_state :=
  match nth_error (emails st) (currentIndex st) with
  | None => ret st
  | Some (id, _) =>
      try_catch
        (moveFile id Drafts dest ;;
         ret (refresh (mkReview (rv_folder st) (splice1 (currentIndex st) (emails st))
                         (currentIndex st) (running st))))
        (fun _ => ret st)
  end.

(** The [key] object of a key press, as far as [handleKeypress] reads it:
    [key.name], which may be undefined, and [key.ctrl]. *)
Record Key : Type := mkKey { key_name : option string; key_ctrl : bool }.

(** [key.name === n]. *)
Definition name_is (key : Key) (n : string) : bool :=
  match key_name key with
  | Some m => m =? n
  | None => false
  end.

(** [currentIndex = Math.min(currentIndex + 1, emails.length - 1); refresh()]
    and its mirror image. *)
Definition move_right (st : review_state) : review_state :=
  refresh (mkReview (rv_folder st) (emails st)
             (Nat.min (currentIndex st + 1) (List.length (emails st) - 1))
             (running st)).

Definition move_left (st : review_state) : review_state :=
  refresh (mkReview (rv_folder st) (emails st)
             (Nat.max (currentIndex st - 1) 0) (running st)).

(** [handleKeypress] on the key press [(str, key)]: the test of [running],
    the quit branch with its [return], and then the branches for right,
    left, down, up, approve and skip, each an [if] of its own that finds the
    session as the one before left it.  The handler's last branch, which
    [str === "e"] alone enters, is not part of this definition: it hands the
    file to an editor, an external program, and waits for a further key
    press.  For every other [str] this is the whole handler. *)
Definition handleKeypress_with_key (str : string) (key : Key) (st : review_state)
    : M review_state :=
  if negb (running st) then ret st
  else if name_is key "q" || (key_ctrl key && name_is key "c")
  then ret (mkReview (rv_folder st) (emails st) (currentIndex st) false)
  else
    let st1 := if name_is key "right" || name_is key "l" || (str =? "l")
               then move_right st else st in
    let st2 := if name_is key "left" || name_is key "h" || (str =? "h")
               then move_left st1 else st1 in
    let st3 := if (str =? "j") || name_is key "down" then move_right st2 else st2 in
    let st4 := if (str =? "k") || name_is key "up" then move_left st3 else st3 in
    st5 <- (if (str =? "a") && folder_eqb (rv_folder st4) Drafts
            then decide Approved st4 else ret st4) ;;
    if (str =? "s") && folder_eqb (rv_folder st5) Drafts
    then decide Skipped st5 else ret st5.

(** [handleKeypress] as a function of the character alone: what
    [handleKeypress_with_key] does on a plain key, a lower-case letter or a
    digit typed without a modifier, for which [key.name] is the character
    itself. *)
Definition handleKeypress (str : string) (st : review_state) : M review_state :=
  if negb (running st) then ret st
  else if str =? "q"
  then ret (mkReview (rv_folder st) (emails st) (currentIndex st) false)
  else if (str =? "l") || (str =? "j")
  then ret (refresh (mkReview (rv_folder st) (emails st)
                       (Nat.min (currentIndex st + 1) (List.length (emails st) - 1))
                       (running st)))
  else if (str =? "h") || (str =? "k")
  then ret (refresh (mkReview (rv_folder st) (emails st)
                       (Nat.max (currentIndex st - 1) 0) (running st)))
  else if (str =? "a") && folder_eqb (rv_folder st) Drafts
  then decide Approved st
  else if (str =? "s") && folder_eqb (rv_folder st) Drafts
  then decide Skipped st
  else ret st.

(** *** send.js *)

Fixpoint filter_Boolean {A : Type} (l : list (option A)) : list A :=
  match l with
  | [] => []
  | Some a :: rest => a :: filter_Boolean rest
  | None :: rest => filter_Boolean rest
  end.

Definition getApprovedEmails : M (list email) :=
  ensureDirs ;;
  ids <- listIds Approved ;;
  read <- mapM (readJson Approved) ids ;;
  ret (filter_Boolean read).

Definition request_of (e : email) (fromEmail fromName : option string) : request :=
  {| from := if JS.truthy fromName
             then Some (interpolate fromName ++ " <" ++ interpolate fromEmail ++ ">")%string
             else fromEmail;
     to := interpolate (pi_email e);
     req_subject := subject e;
     text := body e |}.

Definition sendEmail (e : email) (dry : bool) (fromEmail fromName : option string)
    : M send_outcome :=
  if negb (JS.truthy (pi_email e))
  then throw "No recipient email address"
  else if dry
  then ret {| so_dryRun := true; resendId := None;
              so_to := pi_email e; so_subject := subject e |}
  else
    let req := request_of e fromEmail fromName in
    h <- get_log ;;
    let result := emails_send out h req in
    emit (EvDispatch req result) ;;
    match result with
    | ReplyReject msg => throw msg
    | ReplyError msg => throw msg
    | ReplyData id =>
        ret {| so_dryRun := false; resendId := id;
               so_to := pi_email e; so_subject := subject e |}
    end.

(** [{...email, sent_at, resend_id}]. *)
Definition stamp (e : email) (t : string) (rid : option string) : email :=
  {| award_id := award_id e;
     pi_name := pi_name e;
     pi_email := pi_email e;
     institution := institution e;
     award_title := award_title e;
     award_amount := award_amount e;
     subject := subject e;
     body := body e;
     variants := variants e;
     generated_at := generated_at e;
     sent_at := Some t;
     resend_id := rid |}.

Definition markAsSent (e : email) (rid : option string) : M email :=
  t <- now ;;
  let updatedEmail := stamp e t rid in
  writeJson Sent (award_id e) updatedEmail ;;
  s <- get_fs ;;
  (if dir_has (award_id e) (approved s)
   then unlinkSync Approved (award_id e)
   else ret tt) ;;
  ret updatedEmail.

Definition push_sent (e : email) (r : send_outcome) (results : Results.t) : Results.t :=
  {| Results.sent :=
       Results.sent results ++
       [ {| SentEntry.awardId := award_id e;
            SentEntry.recipient := pi_email e;
            SentEntry.subject := subject e;
            SentEntry.resendId := resendId r |} ];
     Results.errors := Results.errors results;
     Results.dryRun := Results.dryRun results |}.

Definition push_error (e : email) (err : error) (results : Results.t) : Results.t :=
  {| Results.sent := Results.sent results;
     Results.errors :=
       Results.errors results ++
       [ {| ErrorEntry.awardId := award_id e;
            ErrorEntry.recipient := pi_email e;
            ErrorEntry.error := message err |} ];
     Results.dryRun := Results.dryRun results |}.

(** One turn of the loop of [sendApprovedEmails], for the item at index
    [i] of [total].  Nothing after the push into [results.sent] can throw,
    so the handler sees the results as they were before the turn. *)
Definition send_one (opts : send_options) (total i : nat) (e : email)
    (results : Results.t) : M Results.t :=
  (if onProgress opts
   then emit (EvProgress (i + 1) total (award_id e) (pi_email e))
   else ret tt) ;;
  try_catch
    (result <- sendEmail e (dryRun opts) (fromEmail opts) (fromName opts) ;;
     (if negb (dryRun opts)
      then (_ <- markAsSent e (resendId result) ;; ret tt)
      else ret tt) ;;
     let results' := push_sent e result results in
     (if negb (dryRun opts) && (i <? total - 1)%nat && (0 <? delay opts)%Z
      then sleep (delay opts * 1000)
      else ret tt) ;;
     ret results')
    (fun err => ret (push_error e err results)).

Fixpoint send_loop (opts : send_options) (total i : nat) (toSend : list email)
    (results : Results.t) : M Results.t :=
  match toSend with
  | [] => ret results
  | e :: rest =>
      results' <- send_one opts total i e results ;;
      send_loop opts total (S i) rest results'
  end.

Definition sendApprovedEmails (opts : send_options) : M Results.t :=
  e <- get_env ;;
  if negb (dryRun opts) && negb (JS.truthy (RESEND_API_KEY e))
  then throw "RESEND_API_KEY not set in environment"
  else if negb (JS.truthy (fromEmail opts)) && negb (dryRun opts)
  then throw "fromEmail is required"
  else
    approvedEmails <- getApprovedEmails ;;
    let toSend := JS.slice0 approvedEmails (limit opts) in
    send_loop opts (List.length toSend) 0 toSend
      {| Results.sent := []; Results.errors := []; Results.dryRun := dryRun opts |}.

End Pipeline.

(** ** Vocabulary of the properties *)

(** In how many of the four status collections an id has a file. *)
Definition appears (id : string) (f : folder) (s : store) : bool :=
  dir_has id (folder_dir f s).

Definition occurrences (id : string) (s : store) : nat :=
  Nat.b2n (appears id Drafts s) + Nat.b2n (appears id Approved s) +
  Nat.b2n (appears id Sent s) + Nat.b2n (appears id Skipped s).

Definition at_most_one (id : string) (s : store) : Prop :=
  occurrences id s <= 1.

Definition processed (id : string) (s : store) : Prop :=
  exists f, appears id f s = true.

(** A status directory as the pipeline leaves it: file names are unique and
    each record is filed under its own [award_id]. *)
Definition filed_under_award_id (d : dir email) : bool :=
  forallb (fun p => match snd p with
                    | JsonObject e => award_id e =? fst p
                    | _ => true
                    end) d.

Definition well_formed (d : dir email) : bool :=
  unique_names d && filed_under_award_id d.

Definition well_formed_store (s : store) : bool :=
  well_formed (drafts s) && well_formed (approved s) &&
  well_formed (sent s) && well_formed (skipped s).

(** The records of a directory whose files parse, in listing order. *)
Definition records (d : dir email) : list email :=
  filter_Boolean (map (fun id => dir_read id d) (dir_ids d)).

Definition is_sleep (ev : event) : bool :=
  match ev with EvSleep _ => true | _ => false end.

Definition is_dispatch (ev : event) : bool :=
  match ev with EvDispatch _ _ => true | _ => false end.

Definition is_model_call (ev : event) : bool :=
  match ev with EvModelCall _ _ => true | _ => false end.

(** A substring, spelled out. *)
Definition contains (hay needle : string) : Prop :=
  exists pre post, hay = (pre ++ needle ++ post)%string.

(** A facet with nothing to choose from. *)
Definition none_enabled {A : Type} `{HasEnabled A} (items : list A) : Prop :=
  forall x, In x items -> enabled x = EnabledBool false.

(** The progress report that opens the turn of item [i] of [total]. *)
Definition progress_events (opts : send_options) (total i : nat) (e : email)
    : list event :=
  if onProgress opts
  then [EvProgress (i + 1) total (award_id e) (pi_email e)] else [].

Definition confirmed (reply : provider_reply) : bool :=
  match reply with ReplyData _ => true | _ => false end.

(** The pause that closes a turn: after a confirmed delivery, unless the
    item is the last one or [delay] is not positive. *)
Definition pause_after (opts : send_options) (total i : nat) (reply : provider_reply)
    : list event :=
  if confirmed reply && (i <? total - 1)%nat && (0 <? delay opts)%Z
  then [EvSleep (delay opts * 1000)] else [].

(** What the turn of the record [e], item [i] of [total], adds to the
    history [h] in a run: the progress report; then, unless the run is dry or
    the record has no recipient, the call of the delivery API with the
    record's message, and the pause. *)
Definition turn_events (out : outside) (opts : send_options) (total i : nat)
    (e : email) (h : list event) : list event :=
  let pre := progress_events opts total i e in
  if JS.truthy (pi_email e) && negb (dryRun opts)
  then
    let req := request_of e (fromEmail opts) (fromName opts) in
    let reply := emails_send out (h ++ pre) req in
    pre ++ EvDispatch req reply :: pause_after opts total i reply
  else pre.

(** [u] is [e] with [sent_at] set to [t] and [resend_id] to [rid], and
    nothing else changed. *)
Definition stamped (e : email) (t : string) (rid : option string) (u : email) : Prop :=
  sent_at u = Some t /\
  resend_id u = rid /\
  award_id u = award_id e /\
  pi_name u = pi_name e /\
  pi_email u = pi_email e /\
  institution u = institution e /\
  award_title u = award_title e /\
  award_amount u = award_amount e /\
  subject u = subject e /\
  body u = body e /\
  variants u = variants e /\
  generated_at u = generated_at e.

(** The store once a stamped record [u] has been written to [sent] and its
    file removed from [approved]. *)
Definition file_as_sent (u : email) (s : store) : store :=
  let s1 := with_folder Sent (dir_write (award_id u) (JsonObject u) (sent s)) s in
  if dir_has (award_id u) (approved s1)
  then with_folder Approved (dir_unlink (award_id u) (approved s1)) s1
  else s1.

(** What one turn of the sender's loop does for its record [e], item [i]
    of [total], read off the history [h] before the turn, the turn's events
    [chunk], the entries the run returns and the stores before and after the
    run.  The turn calls the delivery API at most once, for [e]'s message.
    Either it fails, and then [e] has an entry in the errors with the
    error's message, and its files are as they were; or the delivery is
    confirmed, and then [e] has an entry in the sent list with the
    provider's id, its file is gone from [approved] and [sent] holds the
    record with [sent_at] set to the clock's reading after the call and
    [resend_id] to the provider's id, the other fields as they were. *)
Definition turn_fails (opts : send_options) (e : email) (chunk : list event)
    (errs : list ErrorEntry.t) (s s' : store) : Prop :=
  exists msg,
    ((JS.truthy (pi_email e) = false /\ msg = "No recipient email address" /\
      filter is_dispatch chunk = []) \/
     In (EvDispatch (request_of e (fromEmail opts) (fromName opts)) (ReplyError msg)) chunk \/
     In (EvDispatch (request_of e (fromEmail opts) (fromName opts)) (ReplyReject msg)) chunk) /\
    In (ErrorEntry.mk (award_id e) (pi_email e) msg) errs /\
    dir_lookup (award_id e) (approved s') = dir_lookup (award_id e) (approved s) /\
    dir_lookup (award_id e) (sent s') = dir_lookup (award_id e) (sent s).

Definition turn_delivers (out : outside) (opts : send_options) (total i : nat)
    (h : list event) (e : email) (chunk : list event)
    (sents : list SentEntry.t) (s' : store) : Prop :=
  exists rid u,
    let req := request_of e (fromEmail opts) (fromName opts) in
    let called := h ++ progress_events opts total i e ++ [EvDispatch req (ReplyData rid)] in
    In (EvDispatch req (ReplyData rid)) chunk /\
    In (SentEntry.mk (award_id e) (pi_email e) (subject e) rid) sents /\
    dir_lookup (award_id e) (approved s') = None /\
    dir_lookup (award_id e) (sent s') = Some (JsonObject u) /\
    stamped e (Date_now out called) rid u.

Definition turn_outcome (out : outside) (opts : send_options) (total i : nat)
    (h : list event) (e : email) (chunk : list event)
    (sents : list SentEntry.t) (errs : list ErrorEntry.t) (s s' : store) : Prop :=
  List.length (filter is_dispatch chunk) <= 1 /\
  (forall req reply, In (EvDispatch req reply) chunk ->
     req = request_of e (fromEmail opts) (fromName opts)) /\
  (turn_fails opts e chunk errs s s' \/
   turn_delivers out opts total i h e chunk sents s').

(** The parts of the store the sender has no business with. *)
Definition same_elsewhere (s s' : store) : Prop :=
  drafts s' = drafts s /\ skipped s' = skipped s /\
  awards s' = awards s /\ variants_json s' = variants_json s.

(** The files of one id in [approved] and [sent]. *)
Definition same_files (id : string) (s s' : store) : Prop :=
  dir_lookup id (approved s') = dir_lookup id (approved s) /\
  dir_lookup id (sent s') = dir_lookup id (sent s).

Definition no_delivery (evs : list event) : Prop :=
  forall ev, In ev evs -> is_dispatch ev = false /\ is_sleep ev = false.

(** What [getApprovedEmails] adds to the history. *)
Definition approved_reads (s : store) : list event :=
  EvListIds Approved :: map (EvReadJson Approved) (dir_ids (approved s)).

(** The records [sendApprovedEmails] takes up. *)
Definition to_send (opts : send_options) (s : store) : list email :=
  JS.slice0 (records (approved s)) (limit opts).

(** The configuration a run needs: none when dry, the key and a sender
    address otherwise. *)
Definition configured (opts : send_options) (w : world) : Prop :=
  dryRun opts = true \/
  (JS.truthy (RESEND_API_KEY (env w)) = true /\ JS.truthy (fromEmail opts) = true).

(** A computation that leaves the filesystem and the environment alone and
    adds to the history only events that satisfy [P]. *)
Definition quiet {A : Type} (P : event -> Prop) (c : M A) : Prop :=
  forall w, exists evs,
    snd (c w) = mkWorld (fs w) (env w) (log w ++ evs) /\ Forall P evs.

(** A computation whose value, when it returns one, satisfies [Q]. *)
Definition ensures {A : Type} (Q : A -> Prop) (c : M A) : Prop :=
  forall w a w', c w = (Ok a, w') -> Q a.

(** ** Concrete inputs *)

Module Scenario.

(** The scenarios are in ASCII. *)
Definition ascii : JS.Lowering := JS.Build_Lowering JS.toLowerCaseAscii.

Definition count_dispatches (h : list event) : nat :=
  List.length (filter is_dispatch h).

(** A provider that confirms every delivery. *)
Definition reliable : outside :=
  {| Math_random := fun _ => mkUnit 0 0;
     Date_now := fun _ => "2025-12-01T09:00:00.000Z";
     messages_create := fun _ _ => ModelContent (Some (Some "Hello", Some "Text"));
     emails_send := fun _ _ => ReplyData (Some "re_1") |}.

(** A provider whose second call fails. *)
Definition second_fails : outside :=
  {| Math_random := fun _ => mkUnit 0 0;
     Date_now := fun _ => "2025-12-01T09:00:00.000Z";
     messages_create := fun _ _ => ModelContent (Some (Some "Hello", Some "Text"));
     emails_send := fun h _ =>
       if (count_dispatches h =? 1)%nat then ReplyError "rate limit exceeded"
       else ReplyData (Some "re_1") |}.

Definition prompt (a : award) (g : Style.guide) : string := title a.
Definition finish (sender body : string) : string := body.

Definition draft (id addr : string) : email :=
  {| award_id := id; pi_name := "P I"; pi_email := Some addr;
     institution := "U"; award_title := "T"; award_amount := None;
     subject := "S"; body := "B";
     variants := mkVariantIds "t1" "n1" "d1" "c1";
     generated_at := "2025-11-30T09:00:00.000Z";
     sent_at := None; resend_id := None |}.

Definition e1 := draft "2300001" "a@x.edu".
Definition e2 := draft "2300002" "b@x.edu".
Definition e3 := draft "2300003" "c@x.edu".

Definition key_set : environment := mkEnv (Some "re_key") None.
Definition key_missing : environment := mkEnv None None.

Definition empty_store : store := mkStore [] [] [] [] [] None.

(** Three approved records. *)
Definition three_approved : world :=
  mkWorld (with_folder Approved
             [("2300001", JsonObject e1); ("2300002", JsonObject e2);
              ("2300003", JsonObject e3)] empty_store)
          key_set [].

(** One record approved, one file in [approved] that does not parse. *)
Definition one_broken : world :=
  mkWorld (with_folder Approved
             [("2300001", JsonObject e1); ("2300002", Malformed)] empty_store)
          key_set [].

(** One record in [approved] under a file name that is not its
    [award_id]. *)
Definition misfiled : world :=
  mkWorld (with_folder Approved [("A", JsonObject e1)] empty_store) key_set [].

(** The same, beside a file that does not parse and bears the record's
    [award_id] as its name. *)
Definition misfiled_beside_malformed : world :=
  mkWorld (with_folder Approved [("A", JsonObject e1); ("2300001", Malformed)]
             empty_store)
          key_set [].

(** One record still in [drafts]. *)
Definition one_draft : world :=
  mkWorld (with_folder Drafts [("2300001", JsonObject e1)] empty_store) key_set [].

Definition opts (l d : Z) (dry : bool) : send_options :=
  {| limit := l; delay := d; dryRun := dry;
     fromEmail := Some "me@ouro.foundation"; fromName := None;
     onProgress := true |}.

(** Scenario A of the specification. *)
Definition raw_award : Raw.award :=
  {| Raw.awd_titl_txt := Some "X"; Raw.title := None;
     Raw.awd_abstract_narration := Some "Y"; Raw.abstractText := None;
     Raw.awd_id := Some "2301234"; Raw.awardNumber := None;
     Raw.pi := Some [Raw.mkPi (Some "Principal Investigator") (Some "A") (Some "B")
                       None (Some "a@b.edu")];
     Raw.piFirstName := None; Raw.piLastName := None; Raw.piEmail := None;
     Raw.inst_name := None; Raw.awardeeName := None;
     Raw.awd_amount := None; Raw.tot_intn_awd_amt := None |}.

Definition one_award : world :=
  mkWorld (mkStore [] [] [] [] [("2023", [("2301234", JsonObject raw_award)])] None)
          key_set [].

Definition the_award : award := normalize "2301234" (Some "2023") raw_award.

(** The same award without an address. *)
Definition no_contact : award :=
  normalize "2300001" None
    {| Raw.awd_titl_txt := Some "X"; Raw.title := None;
       Raw.awd_abstract_narration := Some "Y"; Raw.abstractText := None;
       Raw.awd_id := Some "2300001"; Raw.awardNumber := None;
       Raw.pi := None;
       Raw.piFirstName := None; Raw.piLastName := None; Raw.piEmail := None;
       Raw.inst_name := None; Raw.awardeeName := None;
       Raw.awd_amount := None; Raw.tot_intn_awd_amt := None |}.

(** Scenario B of the specification. *)
Definition disabled_description : blurb_item := mkBlurb "d1" "Ouro is ..." (EnabledBool false).

Definition config : variants_config :=
  {| templates := [ mkTemplate "t1" "one" "a" "b" "c" "d" EnabledAbsent;
                    mkTemplate "t2" "two" "a" "b" "c" "d" (EnabledBool true) ];
     ouro_descriptions := [ disabled_description ];
     call_to_actions := [ mkBlurb "c1" "Reply to this email" EnabledAbsent ] |}.

(** A configuration with something enabled in each facet. *)
Definition usable_config : variants_config :=
  {| templates := [ mkTemplate "t1" "one" "a" "b" "c" "d" EnabledAbsent ];
     ouro_descriptions := [ disabled_description;
                            mkBlurb "d2" "Ouro hosts ..." EnabledAbsent ];
     call_to_actions := [ mkBlurb "c1" "Reply to this email" EnabledAbsent ] |}.

Definition with_config (c : variants_config) : world :=
  mkWorld (mkStore [] [] [] [] [] (Some c)) key_set [].

End Scenario.

(** ** The rest of awards.js and send.js *)

Definition is_digit (c : ascii) : bool :=
  let n := nat_of_ascii c in ((48 <=? n) && (n <=? 57))%nat.

(** The test of a name against the pattern of four digits. *)
Definition is_year_name (f : string) : bool :=
  match f with
  | String a (String b (String c (String d EmptyString))) =>
      is_digit a && is_digit b && is_digit c && is_digit d
  | _ => false
  end.

(** [Array.prototype.sort] without a comparator orders strings by their
    code units; any sort gives the same array, here it is by insertion. *)
Fixpoint insert_sorted (x : string) (l : list string) : list string :=
  match l with
  | [] => [x]
  | y :: t => if (x <=? y)%string then x :: l else y :: insert_sorted x t
  end.

Fixpoint sort_strings (l : list string) : list string :=
  match l with
  | [] => []
  | x :: t => insert_sorted x (sort_strings t)
  end.

(** The sub-directories of [awards/] are the keys of [awards]; listing
    [awards/] itself is listing the year with the empty name. *)
Definition getAvailableYears : M (list string) :=
  emit (EvListAwards "") ;;
  s <- get_fs ;;
  ret (sort_strings (filter is_year_name (map fst (awards s)))).

Module Scan.
Record stats : Type := mk {
  total : nat;
  withEmail : nat;
  withoutEmail : nat;
  unprocessed : nat;
  unprocessedWithEmail : nat;
  readyToGenerate : nat
}.
End Scan.

Definition getScanStats {L : JS.Lowering} (year : string) (keywords : list string)
    : M Scan.stats :=
  allAwards <- loadAwards year keywords ;;
  unprocessed <- getUnprocessedAwards year keywords ;;
  let withEmail := filter hasValidContact allAwards in
  let withoutEmail := filter (fun a => negb (hasValidContact a)) allAwards in
  let unprocessedWithEmail := filter hasValidContact unprocessed in
  ret {| Scan.total := List.length allAwards;
         Scan.withEmail := List.length withEmail;
         Scan.withoutEmail := List.length withoutEmail;
         Scan.unprocessed := List.length unprocessed;
         Scan.unprocessedWithEmail := List.length unprocessedWithEmail;
         Scan.readyToGenerate := List.length unprocessedWithEmail |}.

Module SendStats.
Record t : Type := mk {
  approved : nat;
  sent : nat
}.
End SendStats.

Definition getSendStats : M SendStats.t :=
  a <- listIds Approved ;;
  s <- listIds Sent ;;
  ret {| SendStats.approved := List.length a; SendStats.sent := List.length s |}.

(** ** More vocabulary *)

(** What [loadAwards] returns, read off the store. *)
Definition loaded {L : JS.Lowering} (year : string) (keywords : list string)
    (s : store) : list award :=
  flat_map
    (fun id =>
       match dir_read id (year_dir year (awards s)) with
       | Some raw =>
           let a := normalize id (Some year) raw in
           if matchesKeywords (searchText a) keywords then [a] else []
       | None => []
       end)
    (dir_ids (year_dir year (awards s))).

Definition not_yet_processed (s : store) (a : award) : bool :=
  (occurrences (awardId_of a) s =? 0)%nat.

Definition has_recipient (e : email) : bool := JS.truthy (pi_email e).

(** The entries a dry run reports. *)
Definition dry_entry (e : email) : SentEntry.t :=
  SentEntry.mk (award_id e) (pi_email e) (subject e) None.

Definition no_recipient_entry (e : email) : ErrorEntry.t :=
  ErrorEntry.mk (award_id e) (pi_email e) "No recipient email address".

(** The characters of the plain keys: one lower-case letter or digit, other
    than [e]; and the key press of such a key. *)
Definition plain_key (str : string) : bool :=
  match str with
  | String c EmptyString =>
      let n := nat_of_ascii c in
      ((((97 <=? n) && (n <=? 122)) || ((48 <=? n) && (n <=? 57))) &&
       negb (n =? 101))%nat
  | _ => false
  end.

Definition plain (str : string) : Key := mkKey (Some str) false.

(** A review session whose index points at one of its emails. *)
Definition in_bounds (st : review_state) : Prop :=
  running st = true -> currentIndex st < List.length (emails st).

(** What a key press keeps of a session: its folder, and an index in
    bounds. *)
Definition keeps (st st' : review_state) : Prop :=
  rv_folder st' = rv_folder st /\ (in_bounds st -> in_bounds st').

(** The only place of an id among the four collections. *)
Definition only_in (id : string) (f : folder) (s : store) : Prop :=
  forall g, appears id g s = folder_eqb g f.

Definition sorted_strings (l : list string) : Prop :=
  Sorted.Sorted (fun a b => (a <=? b)%string = true) l.

(** What a turn of the generator may add to the history for the award [a]:
    no delivery and no pause, and a call of the model only for an award with
    a valid contact, with the prompt built from that award. *)
Definition generator_event (buildPrompt : award -> Style.guide -> string)
    (a : award) (ev : event) : Prop :=
  match ev with
  | EvModelCall p _ => hasValidContact a = true /\ exists g, p = buildPrompt a g
  | EvDispatch _ _ => False
  | EvSleep _ => False
  | _ => True
  end.

(** The draft that [saveDraft] files for an award. *)
Definition draft_path (a : award) : string :=
  ("drafts/" ++ awardId_of a ++ ".json")%string.

Definition drafted_from (a : award) (e : email) : Prop :=
  award_id e = awardId_of a /\
  pi_email e = Info.piEmail (extractPIInfo a) /\
  pi_name e = Info.piName (extractPIInfo a) /\
  award_title e = title a /\
  sent_at e = None /\ resend_id e = None.


(** A computation that leaves the filesystem and the environment alone and
    calls the model at most [n] times. *)
Definition calls_at_most {A : Type} (n : nat) (c : M A) : Prop :=
  forall w, exists evs,
    snd (c w) = mkWorld (fs w) (env w) (log w ++ evs) /\
    List.length (filter is_model_call evs) <= n.

(** The second store has every file of the first, with the same content, and
    differs from it at most by further files in [drafts]. *)
Definition only_adds_drafts (s s' : store) : Prop :=
  approved s' = approved s /\ sent s' = sent s /\ skipped s' = skipped s /\
  awards s' = awards s /\ variants_json s' = variants_json s /\
  forall id c, dir_lookup id (drafts s) = Some c -> dir_lookup id (drafts s') = Some c.


(** ** Further concrete inputs *)

Module Sample.

(** A review session on the one draft of [Scenario.one_draft]. *)
Definition session : review_state :=
  mkReview Drafts [("2300001", Scenario.e1)] 0 true.

(** A review session on two drafts. *)
Definition pair : review_state :=
  mkReview Drafts [("2300001", Scenario.e1); ("2300002", Scenario.e2)] 0 true.

(** Nothing on disk yet. *)
Definition blank : world := mkWorld Scenario.empty_store Scenario.key_set [].

(** One award to write to, and a configuration to write with. *)
Definition ready : world :=
  mkWorld (mkStore [] [] [] []
             [("2023", [("2301234", JsonObject Scenario.raw_award)])]
             (Some Scenario.usable_config))
          Scenario.key_set [].

End Sample.


(** ** Strings *)

Lemma startsWith_spec (p s : string) :
  JS.startsWith p s = true <-> exists post, s = (p ++ post)%string.
Proof.
  revert s; induction p as [|a p IH]; intros s; simpl.
  - split; [intros _; exists s; reflexivity | reflexivity].
  - destruct s as [|b s]; simpl.
    + split; [discriminate | intros [post H]; discriminate].
    + rewrite andb_true_iff, Ascii.eqb_eq, IH. split.
      * intros [-> [post ->]]. exists post. reflexivity.
      * intros [post H]. injection H as -> ->. split; [reflexivity | eauto].
Qed.

Lemma includes_contains (hay needle : string) :
  JS.includes hay needle = true <-> contains hay needle.
Proof.
  unfold contains. induction hay as [|c t IH]; simpl.
  - rewrite orb_false_r, startsWith_spec. split.
    + intros [post H]. exists EmptyString, post. exact H.
    + intros [pre [post H]]. destruct pre; [|discriminate]. exists post. exact H.
  - rewrite orb_true_iff, IH, startsWith_spec. split.
    + intros [[post H] | [pre [post H]]].
      * exists EmptyString, post. exact H.
      * exists (String c pre), post. simpl. rewrite H. reflexivity.
    + intros [pre [post H]]. destruct pre as [|c' pre]; simpl in H.
      * left. exists post. exact H.
      * right. injection H as _ H. exists pre, post. exact H.
Qed.

(** ** Directories *)

Section DirFacts.
Context {A : Type}.
Implicit Types (d : dir A) (id : string) (f : file A).

Lemma dir_has_In id d : dir_has id d = true <-> In id (dir_ids d).
Proof.
  unfold dir_has. rewrite existsb_exists. split.
  - intros [k [Hk E]]. apply String.eqb_eq in E. subst. exact Hk.
  - intros H. exists id. split; [exact H | apply String.eqb_refl].
Qed.

Lemma dir_has_lookup id d :
  dir_has id d = match dir_lookup id d with Some _ => true | None => false end.
Proof.
  unfold dir_has, dir_ids. induction d as [|[k g] d IH]; simpl; [reflexivity|].
  destruct (k =? id); simpl; [reflexivity | exact IH].
Qed.

Lemma dir_lookup_write id' id f d :
  dir_lookup id' (dir_write id f d) =
  if id =? id' then Some f else dir_lookup id' d.
Proof.
  induction d as [|[k g] d IH]; simpl.
  - destruct (id =? id'); reflexivity.
  - destruct (k =? id) eqn:E; simpl.
    + apply String.eqb_eq in E. subst k. destruct (id =? id'); reflexivity.
    + rewrite IH. destruct (k =? id') eqn:E'; [|reflexivity].
      apply String.eqb_eq in E'. subst k. rewrite String.eqb_sym, E. reflexivity.
Qed.

Lemma dir_lookup_unlink id' id d :
  dir_lookup id' (dir_unlink id d) =
  if id =? id' then None else dir_lookup id' d.
Proof.
  unfold dir_unlink. induction d as [|[k g] d IH]; simpl.
  - destruct (id =? id'); reflexivity.
  - destruct (k =? id) eqn:E; simpl.
    + apply String.eqb_eq in E. subst k. rewrite IH.
      destruct (id =? id'); reflexivity.
    + rewrite IH. destruct (k =? id') eqn:E'; [|reflexivity].
      apply String.eqb_eq in E'. subst k. rewrite String.eqb_sym, E. reflexivity.
Qed.

Lemma dir_has_write id' id f d :
  dir_has id' (dir_write id f d) = if id =? id' then true else dir_has id' d.
Proof.
  rewrite !dir_has_lookup, dir_lookup_write. destruct (id =? id'); reflexivity.
Qed.

Lemma dir_has_unlink id' id d :
  dir_has id' (dir_unlink id d) = if id =? id' then false else dir_has id' d.
Proof.
  rewrite !dir_has_lookup, dir_lookup_unlink. destruct (id =? id'); reflexivity.
Qed.

Lemma dir_lookup_In id f d : dir_lookup id d = Some f -> In (id, f) d.
Proof.
  induction d as [|[k g] d IH]; simpl; [discriminate|].
  destruct (k =? id) eqn:E.
  - apply String.eqb_eq in E. intros [= ->]. left. subst. reflexivity.
  - intros H. right. exact (IH H).
Qed.

Lemma unique_lookup id f d :
  unique_names d = true -> In (id, f) d -> dir_lookup id d = Some f.
Proof.
  induction d as [|[k g] d IH]; simpl; [contradiction|].
  rewrite andb_true_iff, negb_true_iff. intros [Hk Hd] [H | H].
  - injection H as -> ->. rewrite String.eqb_refl. reflexivity.
  - destruct (k =? id) eqn:E.
    + apply String.eqb_eq in E. subst k.
      assert (dir_has id d = true) as C
          by (apply dir_has_In; unfold dir_ids; apply (in_map fst _ _ H)).
      congruence.
    + exact (IH Hd H).
Qed.
End DirFacts.

Lemma folder_eqb_eq (a b : folder) : folder_eqb a b = true <-> a = b.
Proof. destruct a, b; simpl; split; congruence. Qed.

Lemma folder_dir_with (f g : folder) (d : dir email) (s : store) :
  folder_dir f (with_folder g d s) = if folder_eqb f g then d else folder_dir f s.
Proof. destruct f, g; reflexivity. Qed.

(** ** Reasoning about computations *)

Lemma world_eta (w : world) : w = mkWorld (fs w) (env w) (log w ++ []).
Proof. destruct w; simpl. rewrite app_nil_r. reflexivity. Qed.

Section Combinators.
Context {A B : Type}.
Variable P : event -> Prop.

Lemma quiet_ret (a : A) : quiet P (ret a).
Proof. intros w. exists []. split; [apply world_eta | constructor]. Qed.

Lemma quiet_throw (msg : string) : quiet P (@throw A msg).
Proof. intros w. exists []. split; [apply world_eta | constructor]. Qed.

Lemma quiet_emit (ev : event) : P ev -> quiet P (emit ev).
Proof. intros H w. exists [ev]. split; [reflexivity | repeat constructor; exact H]. Qed.

Lemma quiet_get_fs : quiet P get_fs.
Proof. intros w. exists []. split; [apply world_eta | constructor]. Qed.

Lemma quiet_get_env : quiet P get_env.
Proof. intros w. exists []. split; [apply world_eta | constructor]. Qed.

Lemma quiet_get_log : quiet P get_log.
Proof. intros w. exists []. split; [apply world_eta | constructor]. Qed.

Lemma quiet_bind (c : M A) (k : A -> M B) :
  quiet P c -> (forall a, quiet P (k a)) -> quiet P (bind c k).
Proof.
  intros Hc Hk w. unfold bind. destruct (Hc w) as [evs [E F]].
  destruct (c w) as [[a|err] w1]; simpl in E; subst w1.
  - destruct (Hk a (mkWorld (fs w) (env w) (log w ++ evs))) as [evs' [E' F']].
    simpl in E'. exists (evs ++ evs'). rewrite E', app_assoc.
    split; [reflexivity | apply Forall_app; split; assumption].
  - exists evs. split; [reflexivity | exact F].
Qed.

Lemma quiet_try_catch (c : M A) (h : error -> M A) :
  quiet P c -> (forall e, quiet P (h e)) -> quiet P (try_catch c h).
Proof.
  intros Hc Hh w. unfold try_catch. destruct (Hc w) as [evs [E F]].
  destruct (c w) as [[a|err] w1]; simpl in E; subst w1.
  - exists evs. split; [reflexivity | exact F].
  - destruct (Hh err (mkWorld (fs w) (env w) (log w ++ evs))) as [evs' [E' F']].
    simpl in E'. exists (evs ++ evs'). rewrite E', app_assoc.
    split; [reflexivity | apply Forall_app; split; assumption].
Qed.

Lemma ensures_ret (Q : A -> Prop) (a : A) : Q a -> ensures Q (ret a).
Proof. intros H w a' w' [= <- _]. exact H. Qed.

Lemma ensures_throw (Q : A -> Prop) (msg : string) : ensures Q (throw msg).
Proof. intros w a w' [=]. Qed.

Lemma ensures_bind (Q : B -> Prop) (c : M A) (k : A -> M B) :
  (forall a, ensures Q (k a)) -> ensures Q (bind c k).
Proof.
  intros Hk w b w'. unfold bind. destruct (c w) as [[a|err] w1]; [|discriminate].
  apply Hk.
Qed.

End Combinators.

Lemma quiet_mapM {A B : Type} (P : event -> Prop) (f : A -> M B) (l : list A) :
  (forall x, quiet P (f x)) -> quiet P (mapM f l).
Proof.
  intros H. induction l as [|x l IH]; simpl.
  - apply quiet_ret.
  - apply quiet_bind; [apply H | intros y].
    apply quiet_bind; [exact IH | intros ys; apply quiet_ret].
Qed.

(** One step of a proof that a computation is [quiet]: split a bind, close a
    primitive, or take a conditional apart. *)
Ltac quiet_step :=
  lazymatch goal with
  | |- quiet _ (bind _ _) => apply quiet_bind; [|intros]
  | |- quiet _ (try_catch _ _) => apply quiet_try_catch; [|intros]
  | |- quiet _ (ret _) => apply quiet_ret
  | |- quiet _ (throw _) => apply quiet_throw
  | |- quiet _ get_fs => apply quiet_get_fs
  | |- quiet _ get_env => apply quiet_get_env
  | |- quiet _ get_log => apply quiet_get_log
  | |- quiet _ (emit _) => apply quiet_emit; try (simpl; intuition congruence)
  | |- quiet _ (mapM _ _) => apply quiet_mapM; intros
  | |- quiet _ (if ?b then _ else _) => destruct b
  | |- quiet _ (match ?x with _ => _ end) => destruct x
  end.

Ltac ensures_step :=
  lazymatch goal with
  | |- ensures _ (bind _ _) => apply ensures_bind; intros
  | |- ensures _ (throw _) => apply ensures_throw
  | |- ensures _ (ret _) => apply ensures_ret
  | |- ensures _ (if ?b then _ else _) => destruct b
  | |- ensures _ (match ?x with _ => _ end) => destruct x
  end.

(** ** The stores that the operations produce *)

Lemma file_as_sent_drafts (u : email) (s : store) :
  drafts (file_as_sent u s) = drafts s /\ skipped (file_as_sent u s) = skipped s /\
  awards (file_as_sent u s) = awards s /\
  variants_json (file_as_sent u s) = variants_json s.
Proof.
  unfold file_as_sent. simpl.
  destruct (dir_has (award_id u) (approved s)); simpl; repeat split; reflexivity.
Qed.

Lemma file_as_sent_sent (u : email) (s : store) (id : string) :
  dir_lookup id (sent (file_as_sent u s)) =
  if award_id u =? id then Some (JsonObject u) else dir_lookup id (sent s).
Proof.
  unfold file_as_sent. simpl.
  destruct (dir_has (award_id u) (approved s)); simpl; apply dir_lookup_write.
Qed.

Lemma file_as_sent_approved (u : email) (s : store) (id : string) :
  dir_lookup id (approved (file_as_sent u s)) =
  if award_id u =? id then None else dir_lookup id (approved s).
Proof.
  unfold file_as_sent. simpl.
  destruct (dir_has (award_id u) (approved s)) eqn:H; simpl.
  - apply dir_lookup_unlink.
  - destruct (award_id u =? id) eqn:E; [|reflexivity].
    apply String.eqb_eq in E. subst id.
    rewrite dir_has_lookup in H. destruct (dir_lookup (award_id u) (approved s));
      [discriminate | reflexivity].
Qed.

(** ** The award loader *)

Section Loader.
Context {L : JS.Lowering}.




Lemma existsb_map {X Y : Type} (p : Y -> bool) (f : X -> Y) (l : list X) :
  existsb (fun x => p (f x)) l = existsb p (map f l).
Proof. induction l as [|x l IH]; simpl; [reflexivity | rewrite IH; reflexivity]. Qed.

(** The keywords count only through what [toLowerCase] makes of them. *)
Lemma matchesKeywords_by_lowered_keywords (text : string) (k1 k2 : list string) :
  map JS.toLowerCase k1 = map JS.toLowerCase k2 ->
  matchesKeywords text k1 = matchesKeywords text k2.
Proof.
  intros H. unfold matchesKeywords.
  destruct k1 as [|a k1], k2 as [|b k2]; try discriminate H; [reflexivity|].
  destruct (text =? ""); [reflexivity|]. cbv zeta.
  rewrite (existsb_map (JS.includes (JS.toLowerCase text)) JS.toLowerCase (a :: k1)),
    (existsb_map (JS.includes (JS.toLowerCase text)) JS.toLowerCase (b :: k2)), H.
  reflexivity.
Qed.



End Loader.

Section Properties.
Variable out : outside.
Variable buildPrompt : award -> Style.guide -> string.
Variable finishBody : string -> string -> string.

Lemma markAsSent_run (e : email) (rid : option string) (w : world) :
  let u := stamp e (Date_now out (log w)) rid in
  markAsSent out e rid w = (Ok u, mkWorld (file_as_sent u (fs w)) (env w) (log w)).
Proof.
  unfold markAsSent, file_as_sent, now, writeJson, unlinkSync, bind, get_log, get_fs,
    put_fs, ret. simpl.
  destruct (dir_has (award_id e) (approved (fs w))); reflexivity.
Qed.

(** C9.  The record [markAsSent] files under [sent] is the record it was
    given, field for field, except that [sent_at] holds the clock's reading
    and [resend_id] the provider's confirmation id. *)
Theorem markAsSent_changes_only_sent_at_and_resend_id
    (e : email) (rid : option string) (w : world) :
  exists u,
    fst (markAsSent out e rid w) = Ok u /\
    dir_lookup (award_id e) (sent (fs (snd (markAsSent out e rid w))))
      = Some (JsonObject u) /\
    sent_at u = Some (Date_now out (log w)) /\
    resend_id u = rid /\
    award_id u = award_id e /\
    pi_name u = pi_name e /\
    pi_email u = pi_email e /\
    institution u = institution e /\
    award_title u = award_title e /\
    award_amount u = award_amount e /\
    subject u = subject e /\
    body u = body e /\
    variants u = variants e /\
    generated_at u = generated_at e.
Proof.
  rewrite markAsSent_run. simpl.
  exists (stamp e (Date_now out (log w)) rid). split; [reflexivity|]. split.
  - rewrite file_as_sent_sent. simpl. rewrite String.eqb_refl. reflexivity.
  - repeat split.
Qed.

(** C7.  A real run without the provider's key, or without a sender
    address, throws before it lists or reads anything: the world it leaves
    is the world it found, history included. *)
Theorem sendApprovedEmails_checks_configuration_first
    (opts : send_options) (w : world) :
  dryRun opts = false ->
  JS.truthy (RESEND_API_KEY (env w)) = false \/ JS.truthy (fromEmail opts) = false ->
  exists msg,
    sendApprovedEmails out opts w = (Throw (Error msg), w) /\
    (msg = "RESEND_API_KEY not set in environment" \/ msg = "fromEmail is required").
Proof.
  intros Hdry H. unfold sendApprovedEmails, bind, get_env. rewrite Hdry. simpl.
  destruct (JS.truthy (RESEND_API_KEY (env w))) eqn:K; simpl.
  - destruct H as [H | H]; [discriminate|]. rewrite H. simpl.
    eexists. split; [reflexivity | right; reflexivity].
  - eexists. split; [reflexivity | left; reflexivity].
Qed.

(** *** Contact validity *)

Lemma hasValidContact_spec (a : award) :
  hasValidContact a = true <->
  exists addr, Info.piEmail (extractPIInfo a) = Some addr /\ contains addr "@".
Proof.
  unfold hasValidContact. destruct (Info.piEmail (extractPIInfo a)) as [addr|].
  - destruct (addr =? "") eqn:E.
    + apply String.eqb_eq in E. subst addr. split; [discriminate|].
      intros [addr [[= <-] [pre [post H]]]]. destruct pre; discriminate.
    + rewrite includes_contains. split.
      * intros H. exists addr. split; [reflexivity | exact H].
      * intros [addr' [[= <-] H]]. exact H.
  - split; [discriminate | intros [addr [H _]]; discriminate].
Qed.

(** C5.  An award has a valid contact exactly when [extractPIInfo] finds a
    PI email and that email contains an at sign; for an award without one,
    [generateEmail] throws at once, leaving the world (and so the history,
    which would show a call to the model) as it was. *)
Theorem generateEmail_needs_a_valid_contact (a : award) :
  (hasValidContact a = true <->
   exists addr, Info.piEmail (extractPIInfo a) = Some addr /\ contains addr "@") /\
  (hasValidContact a = false ->
   forall (senderName : option string) (w : world),
     generateEmail out buildPrompt finishBody a senderName w
       = (Throw (Error "Award does not have valid PI email"), w)).
Proof.
  split; [apply hasValidContact_spec|].
  intros H senderName w. unfold generateEmail. rewrite H. reflexivity.
Qed.

(** *** Variant selection *)

Lemma floor_scale_lt (r : unit_interval) (n : nat) : 0 < n -> floor_scale r n < n.
Proof.
  intros Hn. unfold floor_scale.
  apply Nat.Div0.div_lt_upper_bound. nia.
Qed.

Lemma is_enabled_spec {A : Type} `{HasEnabled A} (x : A) :
  is_enabled x = true <-> enabled x <> EnabledBool false.
Proof.
  unfold is_enabled. destruct (enabled x) as [|[|]|]; split; congruence.
Qed.

Lemma filterEnabled_In {A : Type} `{HasEnabled A} (items : list A) (x : A) :
  In x (filterEnabled items) <-> In x items /\ enabled x <> EnabledBool false.
Proof. unfold filterEnabled. rewrite filter_In, is_enabled_spec. tauto. Qed.

Lemma filterEnabled_nil {A : Type} `{HasEnabled A} (items : list A) :
  filterEnabled items = [] <-> none_enabled items.
Proof.
  unfold none_enabled. split.
  - intros E x Hx. destruct (enabled x) as [|[|]|] eqn:Ex; try reflexivity;
      exfalso;
      (assert (In x (filterEnabled items)) as C
         by (apply filterEnabled_In; split; [exact Hx | congruence]));
      rewrite E in C; exact C.
  - intros Hn. destruct (filterEnabled items) as [|x l] eqn:E; [reflexivity|].
    assert (In x (filterEnabled items)) as C by (rewrite E; left; reflexivity).
    apply filterEnabled_In in C. destruct C as [Hx Hen]. elim Hen. exact (Hn x Hx).
Qed.

Lemma length_eqb_0 {A : Type} (l : list A) :
  (List.length l =? 0)%nat = true <-> l = [].
Proof. destruct l; simpl; split; congruence. Qed.

Lemma pick_enabled {A : Type} `{HasEnabled A} (items : list A) (r : unit_interval) :
  (List.length (filterEnabled items) =? 0)%nat = false ->
  exists x,
    nth_error (filterEnabled items) (floor_scale r (List.length (filterEnabled items)))
      = Some x /\
    In x items /\ enabled x <> EnabledBool false.
Proof.
  intros Hlen.
  assert (0 < List.length (filterEnabled items)) as Hpos
      by (apply Nat.eqb_neq in Hlen; lia).
  pose proof (floor_scale_lt r _ Hpos) as Hlt.
  apply nth_error_Some in Hlt.
  destruct (nth_error (filterEnabled items) _) as [x|] eqn:E; [|congruence].
  exists x. split; [reflexivity|]. apply filterEnabled_In.
  exact (nth_error_In _ _ E).
Qed.

Lemma selectVariants_run (w : world) (all : variants_config) :
  variants_json (fs w) = Some all ->
  selectVariants out w =
    let w1 := mkWorld (fs w) (env w) (log w ++ [EvReadVariants]) in
    let ts := filterEnabled (templates all) in
    let ds := filterEnabled (ouro_descriptions all) in
    let cs := filterEnabled (call_to_actions all) in
    if (List.length ts =? 0)%nat
    then (Throw (Error "No enabled templates available"), w1)
    else if (List.length ds =? 0)%nat
    then (Throw (Error "No enabled ouro_descriptions available"), w1)
    else if (List.length cs =? 0)%nat
    then (Throw (Error "No enabled call_to_actions available"), w1)
    else
      let r1 := Math_random out (log w1) in
      let r2 := Math_random out (log w1 ++ [EvRandom r1]) in
      let r3 := Math_random out ((log w1 ++ [EvRandom r1]) ++ [EvRandom r2]) in
      (Ok {| template := nth_error ts (floor_scale r1 (List.length ts));
             ouro_description := nth_error ds (floor_scale r2 (List.length ds));
             call_to_action := nth_error cs (floor_scale r3 (List.length cs)) |},
       mkWorld (fs w) (env w)
         (((log w1 ++ [EvRandom r1]) ++ [EvRandom r2]) ++ [EvRandom r3])).
Proof.
  intros Hcfg. unfold selectVariants, loadAllVariants, bind, emit, get_fs, ret, throw.
  cbn [fs env log]. rewrite Hcfg. cbv zeta.
  destruct (List.length (filterEnabled (templates all)) =? 0)%nat; [reflexivity|].
  destruct (List.length (filterEnabled (ouro_descriptions all)) =? 0)%nat; [reflexivity|].
  destruct (List.length (filterEnabled (call_to_actions all)) =? 0)%nat; reflexivity.
Qed.

(** C4.  With a configuration file in place, [selectVariants] either
    returns one item of each facet, none of them marked [enabled: false],
    or throws one of its three configuration errors, and then some facet
    has no enabled item; it throws whenever a facet has none.  It changes no
    file. *)
Theorem selectVariants_chooses_enabled_items (w : world) (all : variants_config) :
  variants_json (fs w) = Some all ->
  fs (snd (selectVariants out w)) = fs w /\
  match fst (selectVariants out w) with
  | Ok v =>
      exists t d c,
        v = mkSelection (Some t) (Some d) (Some c) /\
        (In t (templates all) /\ enabled t <> EnabledBool false) /\
        (In d (ouro_descriptions all) /\ enabled d <> EnabledBool false) /\
        (In c (call_to_actions all) /\ enabled c <> EnabledBool false)
  | Throw e =>
      (none_enabled (templates all) /\
       message e = "No enabled templates available") \/
      (none_enabled (ouro_descriptions all) /\
       message e = "No enabled ouro_descriptions available") \/
      (none_enabled (call_to_actions all) /\
       message e = "No enabled call_to_actions available")
  end /\
  (none_enabled (templates all) \/ none_enabled (ouro_descriptions all) \/
   none_enabled (call_to_actions all) ->
   exists e, fst (selectVariants out w) = Throw e).
Proof.
  intros Hcfg. rewrite (selectVariants_run w all Hcfg). cbv zeta.
  destruct (List.length (filterEnabled (templates all)) =? 0)%nat eqn:Et.
  { apply length_eqb_0 in Et. apply (proj1 (filterEnabled_nil _)) in Et.
    cbn [fst snd fs message].
    split; [reflexivity|]. split; [left; auto | eauto]. }
  destruct (List.length (filterEnabled (ouro_descriptions all)) =? 0)%nat eqn:Ed.
  { apply length_eqb_0 in Ed. apply (proj1 (filterEnabled_nil _)) in Ed.
    cbn [fst snd fs message].
    split; [reflexivity|]. split; [right; left; auto | eauto]. }
  destruct (List.length (filterEnabled (call_to_actions all)) =? 0)%nat eqn:Ec.
  { apply length_eqb_0 in Ec. apply (proj1 (filterEnabled_nil _)) in Ec.
    cbn [fst snd fs message].
    split; [reflexivity|]. split; [right; right; auto | eauto]. }
  cbn [fst snd fs].
  split; [reflexivity|]. split.
  - match goal with
    | |- context [nth_error (filterEnabled (templates all)) (floor_scale ?r _)] =>
        destruct (pick_enabled (templates all) r Et) as [t [-> Ht]]
    end.
    match goal with
    | |- context [nth_error (filterEnabled (ouro_descriptions all)) (floor_scale ?r _)] =>
        destruct (pick_enabled (ouro_descriptions all) r Ed) as [d [-> Hd]]
    end.
    match goal with
    | |- context [nth_error (filterEnabled (call_to_actions all)) (floor_scale ?r _)] =>
        destruct (pick_enabled (call_to_actions all) r Ec) as [c [-> Hc]]
    end.
    exists t, d, c. auto.
  - intros [H | [H | H]]; apply (proj2 (filterEnabled_nil _)) in H; rewrite H in *;
      discriminate.
Qed.

(** *** The batch sender, one turn at a time *)

Lemma mapM_readJson (f : folder) (ids : list string) :
  forall w,
    mapM (readJson f) ids w =
      (Ok (map (fun id => dir_read id (folder_dir f (fs w))) ids),
       mkWorld (fs w) (env w) (log w ++ map (EvReadJson f) ids)).
Proof.
  induction ids as [|id ids IH]; intros w.
  - simpl. unfold ret. f_equal. apply world_eta.
  - simpl. unfold bind at 1. unfold readJson, bind, emit, get_fs, ret at 1. simpl.
    unfold bind. rewrite IH. unfold ret. simpl. rewrite <- app_assoc. reflexivity.
Qed.

Lemma getApprovedEmails_run (w : world) :
  getApprovedEmails w =
    (Ok (records (approved (fs w))),
     mkWorld (fs w) (env w)
       (log w ++ EvListIds Approved :: map (EvReadJson Approved)
                                          (dir_ids (approved (fs w))))).
Proof.
  unfold getApprovedEmails, ensureDirs, listIds.
  unfold bind at 1. unfold ret at 1. unfold bind at 1.
  unfold bind at 2. unfold emit, bind at 2. unfold get_fs, ret at 1. simpl.
  unfold bind. rewrite mapM_readJson. unfold ret. simpl.
  rewrite <- app_assoc. reflexivity.
Qed.

Lemma send_one_run (opts : send_options) (total i : nat) (e : email)
    (res : Results.t) (w : world) :
  let pre := if onProgress opts
             then [EvProgress (i + 1) total (award_id e) (pi_email e)] else [] in
  let req := request_of e (fromEmail opts) (fromName opts) in
  let reply := emails_send out (log w ++ pre) req in
  let zz := if negb (dryRun opts) && (i <? total - 1)%nat && (0 <? delay opts)%Z
            then [EvSleep (delay opts * 1000)] else [] in
  send_one out opts total i e res w =
    if negb (JS.truthy (pi_email e))
    then (Ok (push_error e (Error "No recipient email address") res),
          mkWorld (fs w) (env w) (log w ++ pre))
    else if dryRun opts
    then (Ok (push_sent e (mkOutcome true None (pi_email e) (subject e)) res),
          mkWorld (fs w) (env w) (log w ++ pre))
    else
      match reply with
      | ReplyData rid =>
          let u := stamp e (Date_now out (log w ++ pre ++ [EvDispatch req reply])) rid in
          (Ok (push_sent e (mkOutcome false rid (pi_email e) (subject e)) res),
           mkWorld (file_as_sent u (fs w)) (env w)
             (log w ++ pre ++ EvDispatch req reply :: zz))
      | ReplyError msg | ReplyReject msg =>
          (Ok (push_error e (Error msg) res),
           mkWorld (fs w) (env w) (log w ++ pre ++ [EvDispatch req reply]))
      end.
Proof.
  cbv zeta. unfold send_one, sendEmail.
  destruct (JS.truthy (pi_email e)) eqn:T; cbn [negb].
  - destruct (dryRun opts) eqn:D; cbn [negb andb].
    + destruct (onProgress opts);
        unfold bind, try_catch, emit, ret; cbn [fs env log];
        rewrite ?app_nil_r; [reflexivity | destruct w; reflexivity].
    + destruct (onProgress opts);
        unfold sleep, bind, try_catch, emit, ret, throw, get_log; cbn [fs env log];
        rewrite ?app_nil_r;
        match goal with
        | |- context [emails_send out ?h ?r] =>
            remember (emails_send out h r) as reply eqn:R; clear R
        end;
        (destruct reply as [rid|msg|msg];
         [ rewrite markAsSent_run; cbn [fs env log resendId];
           destruct ((i <? total - 1)%nat && (0 <? delay opts)%Z);
           cbn [app fs env log]; rewrite <- ?app_assoc; rewrite ?app_nil_r;
           reflexivity
         | rewrite <- ?app_assoc; reflexivity
         | rewrite <- ?app_assoc; reflexivity ]).
  - destruct (onProgress opts);
      unfold bind, try_catch, emit, ret, throw; cbn [fs env log];
      rewrite ?app_nil_r; [reflexivity | destruct w; reflexivity].
Qed.

Lemma sendApprovedEmails_unfold (opts : send_options) (w : world) :
  sendApprovedEmails out opts w =
    if negb (dryRun opts) && negb (JS.truthy (RESEND_API_KEY (env w)))
    then (Throw (Error "RESEND_API_KEY not set in environment"), w)
    else if negb (JS.truthy (fromEmail opts)) && negb (dryRun opts)
    then (Throw (Error "fromEmail is required"), w)
    else
      send_loop out opts (List.length (to_send opts (fs w))) 0 (to_send opts (fs w))
        (Results.mk [] [] (dryRun opts))
        (mkWorld (fs w) (env w) (log w ++ approved_reads (fs w))).
Proof.
  unfold sendApprovedEmails. unfold bind at 1. unfold get_env.
  destruct (negb (dryRun opts) && negb (JS.truthy (RESEND_API_KEY (env w))));
    [reflexivity|].
  destruct (negb (JS.truthy (fromEmail opts)) && negb (dryRun opts)); [reflexivity|].
  unfold bind. rewrite getApprovedEmails_run. reflexivity.
Qed.

Lemma configured_passes (opts : send_options) (w : world) :
  configured opts w ->
  negb (dryRun opts) && negb (JS.truthy (RESEND_API_KEY (env w))) = false /\
  negb (JS.truthy (fromEmail opts)) && negb (dryRun opts) = false.
Proof.
  intros [H | [H1 H2]].
  - rewrite H. simpl. split; [reflexivity | apply andb_false_r].
  - rewrite H1, H2. simpl. split; [apply andb_false_r | reflexivity].
Qed.

Lemma filter_none {X : Type} (p : X -> bool) (l : list X) :
  (forall x, In x l -> p x = false) -> filter p l = [].
Proof.
  induction l as [|x l IH]; simpl; intros H; [reflexivity|].
  rewrite (H x (or_introl eq_refl)). apply IH. intros y Hy. apply H. right. exact Hy.
Qed.

(** A turn in which nothing is delivered: the events [pre] before the call,
    then at most the failed call. *)
Lemma failed_turn (opts : send_options) (total i : nat) (e : email)
    (res : Results.t) (w : world) (pre tail : list event) (msg : string) :
  (forall ev, In ev pre -> is_dispatch ev = false /\ is_sleep ev = false) ->
  (tail = [] /\ JS.truthy (pi_email e) = false /\ msg = "No recipient email address") \/
  tail = [EvDispatch (request_of e (fromEmail opts) (fromName opts)) (ReplyError msg)] \/
  tail = [EvDispatch (request_of e (fromEmail opts) (fromName opts)) (ReplyReject msg)] ->
  (dryRun opts = true -> tail = []) ->
  pre ++ tail = turn_events out opts total i e (log w) ->
  exists res1 w1 chunk new_s new_e,
    (Ok (push_error e (Error msg) res), mkWorld (fs w) (env w) (log w ++ pre ++ tail))
      = (Ok res1, w1) /\
    env w1 = env w /\ log w1 = log w ++ chunk /\
    same_elsewhere (fs w) (fs w1) /\
    (Results.sent res1 = Results.sent res ++ new_s /\
     Results.errors res1 = Results.errors res ++ new_e /\
     Results.dryRun res1 = Results.dryRun res) /\
    map SentEntry.awardId new_s ++ map ErrorEntry.awardId new_e = [award_id e] /\
    (forall id, id <> award_id e -> same_files id (fs w) (fs w1)) /\
    (dryRun opts = true -> fs w1 = fs w /\ no_delivery chunk) /\
    chunk = turn_events out opts total i e (log w) /\
    (dryRun opts = false ->
     turn_outcome out opts total i (log w) e chunk new_s new_e (fs w) (fs w1)).
Proof.
  intros Hpre Htail Hdry Hshape.
  exists (push_error e (Error msg) res),
    (mkWorld (fs w) (env w) (log w ++ pre ++ tail)), (pre ++ tail), [],
    [ErrorEntry.mk (award_id e) (pi_email e) msg].
  cbn [fs env log].
  assert (forall ev, In ev (pre ++ tail) -> is_sleep ev = false) as Hs.
  { intros ev H. apply in_app_or in H. destruct H as [H | H]; [apply Hpre; exact H|].
    destruct Htail as [[-> _] | [-> | ->]]; simpl in H;
      [contradiction | destruct H as [<- | []]; reflexivity
       | destruct H as [<- | []]; reflexivity]. }
  assert (forall req reply, In (EvDispatch req reply) (pre ++ tail) ->
            In (EvDispatch req reply) tail) as Hd.
  { intros req reply H. apply in_app_or in H. destruct H as [H | H]; [|exact H].
    apply Hpre in H. destruct H; discriminate. }
  split; [reflexivity|]. split; [reflexivity|]. split; [reflexivity|].
  split; [repeat split|].
  split; [repeat split; simpl; rewrite ?app_nil_r; reflexivity|].
  split; [reflexivity|].
  split; [intros id _; split; reflexivity|].
  split.
  { intros Hd'. split; [reflexivity|]. specialize (Hdry Hd'). subst tail.
    rewrite app_nil_r. exact Hpre. }
  split; [exact Hshape|].
  intros _. split; [|split].
  - rewrite filter_app, (filter_none is_dispatch pre) by (intros x Hx; apply Hpre; exact Hx).
    destruct Htail as [[-> _] | [-> | ->]]; simpl; lia.
  - intros req reply H. apply Hd in H.
    destruct Htail as [[-> _] | [-> | ->]]; simpl in H;
      [contradiction | destruct H as [H | []]; injection H as <- _; reflexivity
       | destruct H as [H | []]; injection H as <- _; reflexivity].
  - left. exists msg. split; [|repeat split; simpl; auto].
    destruct Htail as [[-> [T ->]] | [-> | ->]].
    + left. rewrite app_nil_r. repeat split; [exact T|].
      apply filter_none. intros x Hx. apply Hpre. exact Hx.
    + right; left. apply in_or_app; right; left; reflexivity.
    + right; right. apply in_or_app; right; left; reflexivity.
Qed.

(** One turn, described. *)
Lemma send_one_spec (opts : send_options) (total i : nat) (e : email)
    (res : Results.t) (w : world) :
  exists res1 w1 chunk new_s new_e,
    send_one out opts total i e res w = (Ok res1, w1) /\
    env w1 = env w /\ log w1 = log w ++ chunk /\
    same_elsewhere (fs w) (fs w1) /\
    (Results.sent res1 = Results.sent res ++ new_s /\
     Results.errors res1 = Results.errors res ++ new_e /\
     Results.dryRun res1 = Results.dryRun res) /\
    map SentEntry.awardId new_s ++ map ErrorEntry.awardId new_e = [award_id e] /\
    (forall id, id <> award_id e -> same_files id (fs w) (fs w1)) /\
    (dryRun opts = true -> fs w1 = fs w /\ no_delivery chunk) /\
    chunk = turn_events out opts total i e (log w) /\
    (dryRun opts = false ->
     turn_outcome out opts total i (log w) e chunk new_s new_e (fs w) (fs w1)).
Proof.
  pose proof (send_one_run opts total i e res w) as E. cbv zeta in E.
  set (pre := if onProgress opts
              then [EvProgress (i + 1) total (award_id e) (pi_email e)] else []) in *.
  assert (forall ev, In ev pre -> is_dispatch ev = false /\ is_sleep ev = false) as Hpre.
  { unfold pre. destruct (onProgress opts); simpl; intros ev H; [|contradiction].
    destruct H as [<- | []]. split; reflexivity. }
  assert (forall ms, ~ In (EvSleep ms) pre) as Hns.
  { intros ms H. apply Hpre in H. destruct H; discriminate. }
  assert (forall req reply, ~ In (EvDispatch req reply) pre) as Hnd.
  { intros req reply H. apply Hpre in H. destruct H; discriminate. }
  set (req := request_of e (fromEmail opts) (fromName opts)) in *.
  destruct (JS.truthy (pi_email e)) eqn:T; cbn [negb] in E.
  2: { (* no recipient *)
    rewrite E.
    replace (log w ++ pre) with (log w ++ pre ++ []) by (rewrite app_nil_r; reflexivity).
    apply (failed_turn opts total i e res w pre [] _);
      [exact Hpre | left; auto | intros _; reflexivity|].
    unfold turn_events. cbv zeta. rewrite T. cbn [andb].
    rewrite app_nil_r. reflexivity. }
  assert (dryRun opts = true \/ dryRun opts = false) as [D | D]
      by (destruct (dryRun opts); auto);
    rewrite D in E; cbn [negb andb] in E.
  { (* dry run *)
    rewrite E.
    exists (push_sent e (mkOutcome true None (pi_email e) (subject e)) res),
      (mkWorld (fs w) (env w) (log w ++ pre)), pre,
      [SentEntry.mk (award_id e) (pi_email e) (subject e) None], [].
    cbn [fs env log].
    split; [reflexivity|]. split; [reflexivity|]. split; [reflexivity|].
    split; [repeat split|].
    split; [repeat split; simpl; rewrite ?app_nil_r; reflexivity|].
    split; [reflexivity|].
    split; [intros id _; split; reflexivity|].
    split; [intros _; split; [reflexivity | exact Hpre]|].
    split; [|intros C; congruence].
    unfold turn_events. cbv zeta. rewrite T, D. reflexivity. }
  assert (turn_events out opts total i e (log w) =
          pre ++ EvDispatch req (emails_send out (log w ++ pre) req)
                   :: pause_after opts total i (emails_send out (log w ++ pre) req))
    as Hshape by (unfold turn_events; cbv zeta; rewrite T, D; reflexivity).
  remember (emails_send out (log w ++ pre) req) as reply eqn:R. clear R.
  destruct reply as [rid|msg|msg]; rewrite E.
  - (* delivered *)
    set (u := stamp e (Date_now out (log w ++ pre ++ [EvDispatch req (ReplyData rid)])) rid).
    set (zz := if (i <? total - 1)%nat && (0 <? delay opts)%Z
               then [EvSleep (delay opts * 1000)] else []).
    exists (push_sent e (mkOutcome false rid (pi_email e) (subject e)) res),
      (mkWorld (file_as_sent u (fs w)) (env w)
         (log w ++ pre ++ EvDispatch req (ReplyData rid) :: zz)),
      (pre ++ EvDispatch req (ReplyData rid) :: zz),
      [SentEntry.mk (award_id e) (pi_email e) (subject e) rid], [].
    cbn [fs env log].
    split; [reflexivity|]. split; [reflexivity|]. split; [reflexivity|].
    split; [exact (file_as_sent_drafts u (fs w))|].
    split; [repeat split; simpl; rewrite ?app_nil_r; reflexivity|].
    split; [reflexivity|].
    split.
    { intros id Hid. unfold same_files.
      rewrite file_as_sent_approved, file_as_sent_sent. cbn [u stamp award_id].
      destruct (award_id e =? id) eqn:Eid; [|split; reflexivity].
      apply String.eqb_eq in Eid. congruence. }
    split; [intros C; congruence|].
    split; [rewrite Hshape; reflexivity|].
    intros _. unfold turn_outcome. split; [|split].
    + rewrite filter_app, (filter_none is_dispatch pre)
        by (intros x Hx; apply Hpre; exact Hx).
      simpl. unfold zz.
      destruct ((i <? total - 1)%nat && (0 <? delay opts)%Z); simpl; lia.
    + intros r rp H. apply in_app_or in H. destruct H as [H | [H | H]].
      * elim (Hnd r rp H).
      * injection H as <- _. reflexivity.
      * unfold zz in H.
        destruct ((i <? total - 1)%nat && (0 <? delay opts)%Z);
          [destruct H as [H | []]; discriminate | contradiction].
    + right. exists rid, u.
      split; [apply in_or_app; right; left; reflexivity|].
      split; [left; reflexivity|].
      rewrite file_as_sent_approved, file_as_sent_sent. cbn [u stamp award_id].
      rewrite String.eqb_refl. split; [reflexivity|]. split; [reflexivity|].
      repeat split.
  - (* the provider answers with an error *)
    apply (failed_turn opts total i e res w pre [EvDispatch req (ReplyError msg)] msg);
      [exact Hpre | right; left; reflexivity | intros C; congruence
       | rewrite Hshape; reflexivity].
  - (* the call is rejected *)
    apply (failed_turn opts total i e res w pre [EvDispatch req (ReplyReject msg)] msg);
      [exact Hpre | right; right; reflexivity | intros C; congruence
       | rewrite Hshape; reflexivity].
Qed.

(** *** The batch sender, the whole loop *)

Lemma perm_interleave {X : Type} (a a' b b' : list X) :
  Permutation ((a ++ a') ++ (b ++ b')) ((a ++ b) ++ (a' ++ b')).
Proof.
  rewrite <- !app_assoc. apply Permutation_app_head.
  rewrite !app_assoc. apply Permutation_app_tail. apply Permutation_app_comm.
Qed.

Lemma same_files_refl (id : string) (s : store) : same_files id s s.
Proof. split; reflexivity. Qed.

Lemma same_files_trans (id : string) (s1 s2 s3 : store) :
  same_files id s1 s2 -> same_files id s2 s3 -> same_files id s1 s3.
Proof. intros [A B] [C D]. split; congruence. Qed.

Lemma same_elsewhere_trans (s1 s2 s3 : store) :
  same_elsewhere s1 s2 -> same_elsewhere s2 s3 -> same_elsewhere s1 s3.
Proof.
  intros [A [B [C D]]] [A' [B' [C' D']]]. repeat split; congruence.
Qed.

Lemma turn_outcome_move (opts : send_options) (total i : nat) (h : list event)
    (e : email) (chunk : list event)
    (ns ns' : list SentEntry.t) (ne ne' : list ErrorEntry.t) (s0 s1 s0' s1' : store) :
  turn_outcome out opts total i h e chunk ns ne s0 s1 ->
  same_files (award_id e) s0' s0 ->
  same_files (award_id e) s1 s1' ->
  incl ns ns' -> incl ne ne' ->
  turn_outcome out opts total i h e chunk ns' ne' s0' s1'.
Proof.
  intros [Hone [Hreq Hcase]] [A0 S0] [A1 S1] Hns Hne.
  split; [exact Hone|]. split; [exact Hreq|].
  destruct Hcase as [[msg [Hc [Hin [Ha Hs]]]] | [rid [u [Hev [Hin [Ha [Hs Hst]]]]]]].
  - left. exists msg. split; [exact Hc|]. split; [apply Hne; exact Hin|].
    split; congruence.
  - right. exists rid, u. split; [exact Hev|]. split; [apply Hns; exact Hin|].
    split; [congruence|]. split; [congruence | exact Hst].
Qed.

Lemma send_loop_spec (opts : send_options) (total : nat) (rest : list email) :
  forall (i : nat) (res : Results.t) (w : world),
  exists res' w' chunks new_s new_e,
    send_loop out opts total i rest res w = (Ok res', w') /\
    env w' = env w /\ log w' = log w ++ concat chunks /\
    List.length chunks = List.length rest /\
    same_elsewhere (fs w) (fs w') /\
    (Results.sent res' = Results.sent res ++ new_s /\
     Results.errors res' = Results.errors res ++ new_e /\
     Results.dryRun res' = Results.dryRun res) /\
    Permutation (map SentEntry.awardId new_s ++ map ErrorEntry.awardId new_e)
                (map award_id rest) /\
    (forall id, ~ In id (map award_id rest) -> same_files id (fs w) (fs w')) /\
    (dryRun opts = true -> fs w' = fs w /\ no_delivery (concat chunks)) /\
    (forall k e chunk, nth_error rest k = Some e -> nth_error chunks k = Some chunk ->
       chunk = turn_events out opts total (i + k) e
                 (log w ++ concat (firstn k chunks))) /\
    (dryRun opts = false -> NoDup (map award_id rest) ->
     forall k e chunk, nth_error rest k = Some e -> nth_error chunks k = Some chunk ->
       turn_outcome out opts total (i + k) (log w ++ concat (firstn k chunks))
         e chunk new_s new_e (fs w) (fs w')).
Proof.
  induction rest as [|e rest IH]; intros i res w.
  - exists res, w, [], [], []. simpl. unfold ret.
    split; [reflexivity|]. split; [reflexivity|].
    split; [rewrite app_nil_r; reflexivity|]. split; [reflexivity|].
    split; [repeat split|].
    split; [rewrite !app_nil_r; repeat split|].
    split; [constructor|].
    split; [intros id _; apply same_files_refl|].
    split; [intros _; split; [reflexivity | intros ev []]|].
    split; [intros [|k] e chunk H; discriminate|].
    intros _ _ [|k] e chunk H; discriminate.
  - destruct (send_one_spec opts total i e res w)
      as [res1 [w1 [chunk [ns [ne [E1 [Henv1 [Hlog1 [Hels1 [[Rs1 [Re1 Rd1]]
          [Hids1 [Hfr1 [Hdry1 [Hsl1 Hout1]]]]]]]]]]]]]].
    destruct (IH (S i) res1 w1)
      as [res' [w' [chunks [ns' [ne' [E [Henv [Hlog [Hlen [Hels [[Rs [Re Rd]]
          [Hperm [Hfr [Hdry [Hsl Hout]]]]]]]]]]]]]]].
    exists res', w', (chunk :: chunks), (ns ++ ns'), (ne ++ ne').
    split; [simpl; unfold bind; rewrite E1; exact E|].
    split; [congruence|].
    split; [rewrite Hlog, Hlog1; simpl; rewrite app_assoc; reflexivity|].
    split; [simpl; congruence|].
    split; [exact (same_elsewhere_trans _ _ _ Hels1 Hels)|].
    split; [rewrite Rs, Re, Rd, Rs1, Re1, Rd1, !app_assoc; repeat split|].
    split.
    { rewrite !map_app. simpl.
      eapply Permutation_trans; [apply perm_interleave|].
      rewrite Hids1. simpl. constructor. exact Hperm. }
    split.
    { intros id Hid. simpl in Hid.
      apply (same_files_trans _ _ (fs w1)).
      - apply Hfr1. intros C. apply Hid. left. symmetry. exact C.
      - apply Hfr. intros C. apply Hid. right. exact C. }
    split.
    { intros Hd. destruct (Hdry1 Hd) as [F1 N1]. destruct (Hdry Hd) as [F N].
      split; [congruence|]. intros ev Hev. simpl in Hev.
      apply in_app_or in Hev. destruct Hev as [Hev | Hev]; [apply N1 | apply N]; exact Hev. }
    split.
    { intros [|k] e' c He' Hc; simpl in He', Hc.
      - injection He' as <-. injection Hc as <-. rewrite Nat.add_0_r.
        cbn [firstn concat]. rewrite app_nil_r. exact Hsl1.
      - replace (i + S k) with (S i + k) by lia. cbn [firstn concat].
        rewrite app_assoc, <- Hlog1. exact (Hsl k e' c He' Hc). }
    intros Hd Hnd [|k] e' c He' Hc; simpl in He', Hc.
    + injection He' as <-. injection Hc as <-.
      simpl in Hnd. apply NoDup_cons_iff in Hnd. destruct Hnd as [Hnotin Hnd].
      rewrite Nat.add_0_r. cbn [firstn concat]. rewrite app_nil_r.
      apply (turn_outcome_move opts total i (log w) e chunk ns (ns ++ ns') ne (ne ++ ne')
               (fs w) (fs w1) (fs w) (fs w')).
      * exact (Hout1 Hd).
      * apply same_files_refl.
      * apply Hfr. exact Hnotin.
      * apply incl_appl, incl_refl.
      * apply incl_appl, incl_refl.
    + simpl in Hnd. apply NoDup_cons_iff in Hnd. destruct Hnd as [Hnotin Hnd].
      replace (i + S k) with (S i + k) by lia. cbn [firstn concat].
      rewrite app_assoc, <- Hlog1.
      apply (turn_outcome_move opts total (S i + k) (log w1 ++ concat (firstn k chunks))
               e' c ns' (ns ++ ns') ne' (ne ++ ne') (fs w1) (fs w') (fs w) (fs w')).
      * exact (Hout Hd Hnd k e' c He' Hc).
      * apply Hfr1. intros C. apply Hnotin. rewrite <- C.
        apply in_map. exact (nth_error_In _ _ He').
      * apply same_files_refl.
      * apply incl_appr, incl_refl.
      * apply incl_appr, incl_refl.
Qed.

(** *** The records of a well-formed directory *)

Lemma filter_Boolean_In {X : Type} (l : list (option X)) (x : X) :
  In x (filter_Boolean l) <-> In (Some x) l.
Proof.
  induction l as [|[y|] l IH]; simpl.
  - tauto.
  - rewrite IH. split; intros [H | H]; auto; left; congruence.
  - rewrite IH. split; [auto | intros [H | H]; [discriminate | exact H]].
Qed.

Lemma dir_read_Some {X : Type} (id : string) (d : dir X) (x : X) :
  dir_read id d = Some x <-> dir_lookup id d = Some (JsonObject x).
Proof.
  unfold dir_read. destruct (dir_lookup id d) as [[| | |y]|]; simpl;
    split; congruence.
Qed.

Lemma records_In (d : dir email) (e : email) :
  In e (records d) <->
  exists id, In id (dir_ids d) /\ dir_lookup id d = Some (JsonObject e).
Proof.
  unfold records. rewrite filter_Boolean_In, in_map_iff.
  split; intros [id [H1 H2]]; exists id.
  - split; [exact H2 | apply dir_read_Some; exact H1].
  - split; [apply dir_read_Some; exact H2 | exact H1].
Qed.

Lemma filed_lookup (d : dir email) (id : string) (e : email) :
  filed_under_award_id d = true ->
  dir_lookup id d = Some (JsonObject e) -> award_id e = id.
Proof.
  unfold filed_under_award_id. rewrite forallb_forall. intros H L.
  apply dir_lookup_In in L. specialize (H _ L). simpl in H.
  apply String.eqb_eq. exact H.
Qed.

Lemma unique_names_NoDup {X : Type} (d : dir X) :
  unique_names d = true -> NoDup (dir_ids d).
Proof.
  induction d as [|[k f] d IH]; simpl; intros H; [constructor|].
  apply andb_true_iff in H. destruct H as [Hk Hd]. constructor; [|exact (IH Hd)].
  intros C. apply dir_has_In in C. rewrite C in Hk. discriminate.
Qed.

Lemma read_ids (d : dir email) (ids : list string) :
  (forall id e, In id ids -> dir_read id d = Some e -> award_id e = id) ->
  map award_id (filter_Boolean (map (fun id => dir_read id d) ids)) =
  filter (fun id => match dir_read id d with Some _ => true | None => false end) ids.
Proof.
  induction ids as [|id ids IH]; intros H; simpl; [reflexivity|].
  destruct (dir_read id d) as [e|] eqn:R; simpl.
  - rewrite (H id e (or_introl eq_refl) R). f_equal. apply IH.
    intros i x Hi. apply H. right. exact Hi.
  - apply IH. intros i x Hi. apply H. right. exact Hi.
Qed.

Lemma well_formed_records (d : dir email) :
  well_formed d = true ->
  NoDup (map award_id (records d)) /\
  forall e, In e (records d) -> dir_lookup (award_id e) d = Some (JsonObject e).
Proof.
  unfold well_formed. rewrite andb_true_iff. intros [Hu Hf]. split.
  - unfold records. rewrite read_ids.
    + apply NoDup_filter. apply unique_names_NoDup. exact Hu.
    + intros id e _ R. apply dir_read_Some in R. exact (filed_lookup d id e Hf R).
  - intros e He. apply records_In in He. destruct He as [id [_ L]].
    rewrite (filed_lookup d id e Hf L). exact L.
Qed.

Lemma slice0_firstn {X : Type} (l : list X) (n : Z) :
  exists k, JS.slice0 l n = firstn k l.
Proof. unfold JS.slice0. eexists. reflexivity. Qed.

Lemma firstn_In {X : Type} (k : nat) (l : list X) (x : X) :
  In x (firstn k l) -> In x l.
Proof.
  intros H. rewrite <- (firstn_skipn k l). apply in_or_app. left. exact H.
Qed.

Lemma firstn_NoDup {X : Type} (k : nat) (l : list X) :
  NoDup l -> NoDup (firstn k l).
Proof.
  intros H. rewrite <- (firstn_skipn k l) in H. exact (NoDup_app_remove_r _ _ H).
Qed.

Lemma to_send_well_formed (opts : send_options) (s : store) :
  well_formed (approved s) = true ->
  NoDup (map award_id (to_send opts s)) /\
  forall e, In e (to_send opts s) ->
    In e (records (approved s)) /\
    dir_lookup (award_id e) (approved s) = Some (JsonObject e).
Proof.
  intros Hwf. destruct (well_formed_records _ Hwf) as [Hnd Hl].
  unfold to_send. destruct (slice0_firstn (records (approved s)) (limit opts)) as [k ->].
  split.
  - rewrite <- firstn_map. apply firstn_NoDup. exact Hnd.
  - intros e He. apply firstn_In in He. split; [exact He | exact (Hl e He)].
Qed.

Lemma to_send_records (opts : send_options) (s : store) (e : email) :
  In e (to_send opts s) -> In e (records (approved s)).
Proof.
  unfold to_send. destruct (slice0_firstn (records (approved s)) (limit opts)) as [k ->].
  apply firstn_In.
Qed.

Lemma approved_reads_quiet (s : store) : no_delivery (approved_reads s).
Proof.
  intros ev [<- | H]; [split; reflexivity|].
  apply in_map_iff in H. destruct H as [id [<- _]]. split; reflexivity.
Qed.

(** A configured run, in terms of its loop. *)
Lemma sendApprovedEmails_spec (opts : send_options) (w : world) :
  configured opts w ->
  exists res w' chunks,
    sendApprovedEmails out opts w = (Ok res, w') /\
    env w' = env w /\
    log w' = log w ++ approved_reads (fs w) ++ concat chunks /\
    List.length chunks = List.length (to_send opts (fs w)) /\
    same_elsewhere (fs w) (fs w') /\
    Results.dryRun res = dryRun opts /\
    Permutation
      (map SentEntry.awardId (Results.sent res) ++
       map ErrorEntry.awardId (Results.errors res))
      (map award_id (to_send opts (fs w))) /\
    (forall id, ~ In id (map award_id (to_send opts (fs w))) ->
       same_files id (fs w) (fs w')) /\
    (dryRun opts = true -> fs w' = fs w /\ no_delivery (concat chunks)) /\
    (forall k e chunk,
       nth_error (to_send opts (fs w)) k = Some e -> nth_error chunks k = Some chunk ->
       chunk = turn_events out opts (List.length (to_send opts (fs w))) k e
                 (log w ++ approved_reads (fs w) ++ concat (firstn k chunks))) /\
    (dryRun opts = false -> NoDup (map award_id (to_send opts (fs w))) ->
     forall k e chunk,
       nth_error (to_send opts (fs w)) k = Some e -> nth_error chunks k = Some chunk ->
       turn_outcome out opts (List.length (to_send opts (fs w))) k
         (log w ++ approved_reads (fs w) ++ concat (firstn k chunks))
         e chunk (Results.sent res) (Results.errors res) (fs w) (fs w')).
Proof.
  intros Hc. destruct (configured_passes opts w Hc) as [C1 C2].
  rewrite sendApprovedEmails_unfold, C1, C2.
  destruct (send_loop_spec opts (List.length (to_send opts (fs w))) (to_send opts (fs w))
              0 (Results.mk [] [] (dryRun opts))
              (mkWorld (fs w) (env w) (log w ++ approved_reads (fs w))))
    as [res [w' [chunks [ns [ne [E [Henv [Hlog [Hlen [Hels [[Rs [Re Rd]]
        [Hperm [Hfr [Hdry [Hsl Hout]]]]]]]]]]]]]]].
  cbn [fs env log Results.sent Results.errors Results.dryRun] in *.
  simpl in Rs, Re.
  exists res, w', chunks.
  split; [exact E|]. split; [exact Henv|].
  split; [rewrite Hlog, app_assoc; reflexivity|].
  split; [exact Hlen|]. split; [exact Hels|]. split; [exact Rd|].
  split; [rewrite Rs, Re; exact Hperm|]. split; [exact Hfr|]. split; [exact Hdry|].
  split; [intros k e c He Hk; rewrite app_assoc; exact (Hsl k e c He Hk)|].
  rewrite Rs, Re. intros Hd Hnd k e c He Hk. rewrite app_assoc.
  exact (Hout Hd Hnd k e c He Hk).
Qed.

(** C2, as amended.  A real, configured run over an [approved] directory
    in which every record is filed under its own [award_id] returns normally
    whatever the provider answers.  Its history, after the reads, splits
    into one turn per record taken up, in order; in its turn a record's
    message is offered to the provider at most once; if that fails (or the
    record has no recipient) the record has an entry in the errors with the
    failure's message and its file in [approved] is as before the run; if
    it is confirmed the record has an entry in the sent list with the
    provider's id, its file is gone from [approved] and [sent] holds the
    record with [sent_at] set to the clock's reading after the call and
    [resend_id] to the provider's id, every other field as it was.  Over
    the whole run every record taken up has exactly one entry, and the files
    of every other id are as before. *)
Theorem sendApprovedEmails_isolates_failures (opts : send_options) (w : world) :
  dryRun opts = false ->
  JS.truthy (RESEND_API_KEY (env w)) = true ->
  JS.truthy (fromEmail opts) = true ->
  well_formed (approved (fs w)) = true ->
  exists res w' chunks,
    sendApprovedEmails out opts w = (Ok res, w') /\
    log w' = log w ++ approved_reads (fs w) ++ concat chunks /\
    List.length chunks = List.length (to_send opts (fs w)) /\
    Permutation
      (map SentEntry.awardId (Results.sent res) ++
       map ErrorEntry.awardId (Results.errors res))
      (map award_id (to_send opts (fs w))) /\
    NoDup (map award_id (to_send opts (fs w))) /\
    same_elsewhere (fs w) (fs w') /\
    (forall id, ~ In id (map award_id (to_send opts (fs w))) ->
       same_files id (fs w) (fs w')) /\
    forall k e chunk,
      nth_error (to_send opts (fs w)) k = Some e -> nth_error chunks k = Some chunk ->
      dir_lookup (award_id e) (approved (fs w)) = Some (JsonObject e) /\
      turn_outcome out opts (List.length (to_send opts (fs w))) k
        (log w ++ approved_reads (fs w) ++ concat (firstn k chunks))
        e chunk (Results.sent res) (Results.errors res) (fs w) (fs w').
Proof.
  intros Hdry Hkey Hfrom Hwf.
  destruct (sendApprovedEmails_spec opts w (or_intror (conj Hkey Hfrom)))
    as [res [w' [chunks [E [_ [Hlog [Hlen [Hels [_ [Hperm [Hfr [_ [_ Hout]]]]]]]]]]]]].
  destruct (to_send_well_formed opts (fs w) Hwf) as [Hnd Hin].
  exists res, w', chunks.
  split; [exact E|]. split; [exact Hlog|]. split; [exact Hlen|].
  split; [exact Hperm|]. split; [exact Hnd|]. split; [exact Hels|].
  split; [exact Hfr|].
  intros k e chunk He Hc. split.
  - apply Hin. exact (nth_error_In _ _ He).
  - exact (Hout Hdry Hnd k e chunk He Hc).
Qed.

(** C3.  A dry run returns normally and leaves the four status collections
    (the whole store, and the environment) exactly as they were; what it adds
    to the history holds no call to the provider and no sleep. *)
Theorem dry_run_leaves_the_store_alone (opts : send_options) (w : world) :
  dryRun opts = true ->
  exists res evs,
    sendApprovedEmails out opts w = (Ok res, mkWorld (fs w) (env w) (log w ++ evs)) /\
    no_delivery evs.
Proof.
  intros Hdry.
  destruct (sendApprovedEmails_spec opts w (or_introl Hdry))
    as [res [w' [chunks [E [Henv [Hlog [_ [_ [_ [_ [_ [Hd _]]]]]]]]]]]].
  destruct (Hd Hdry) as [Hfs Hno].
  exists res, (approved_reads (fs w) ++ concat chunks). split.
  - rewrite E. f_equal. destruct w' as [s' en' lg']. simpl in *. congruence.
  - intros ev H. apply in_app_or in H. destruct H as [H | H].
    + exact (approved_reads_quiet _ ev H).
    + exact (Hno ev H).
Qed.

Lemma turn_events_sleeps (opts : send_options) (total k : nat) (e : email)
    (h : list event) :
  let pre := progress_events opts total k e in
  let req := request_of e (fromEmail opts) (fromName opts) in
  let reply := emails_send out (h ++ pre) req in
  filter is_sleep (turn_events out opts total k e h) =
    (if JS.truthy (pi_email e) && negb (dryRun opts) && confirmed reply &&
        (k <? total - 1)%nat && (0 <? delay opts)%Z
     then [EvSleep (delay opts * 1000)] else []) /\
  (filter is_sleep (turn_events out opts total k e h) <> [] ->
   turn_events out opts total k e h
     = pre ++ [EvDispatch req reply; EvSleep (delay opts * 1000)]).
Proof.
  cbv zeta. unfold turn_events, pause_after. cbv zeta.
  assert (filter is_sleep (progress_events opts total k e) = []) as Hp
    by (unfold progress_events; destruct (onProgress opts); reflexivity).
  destruct (JS.truthy (pi_email e)), (dryRun opts); cbn [negb andb];
    try (rewrite Hp; split; [reflexivity | intros C; exfalso; apply C; reflexivity]).
  destruct (confirmed (emails_send out (h ++ progress_events opts total k e)
                         (request_of e (fromEmail opts) (fromName opts))));
    destruct (k <? total - 1)%nat, (0 <? delay opts)%Z; cbn [andb];
    rewrite filter_app, Hp; cbn [filter is_sleep app];
    (split; [reflexivity | intros C; try reflexivity; exfalso; apply C; reflexivity]).
Qed.

(** C6, as amended.  A configured run's history, after the reads, splits
    into one turn per record taken up, in order, and each turn is known
    event for event: the progress report, then (unless the run is dry or the
    record has no recipient) the one call of the delivery API, then the
    pause.  The turn sleeps exactly when the run is real, the call was
    confirmed, the record is not the last one taken up and [delay] is
    positive; it then sleeps once, for [delay * 1000] milliseconds ([delay]
    counts seconds), directly after the call and as the turn's last event.
    After a failed call, in the last turn, and in a dry run there is no
    sleep. *)
Theorem sender_sleeps_delay_seconds_between_deliveries
    (opts : send_options) (w : world) :
  configured opts w ->
  exists res w' chunks,
    sendApprovedEmails out opts w = (Ok res, w') /\
    log w' = log w ++ approved_reads (fs w) ++ concat chunks /\
    List.length chunks = List.length (to_send opts (fs w)) /\
    (forall ev, In ev (approved_reads (fs w)) -> is_sleep ev = false) /\
    (forall k e chunk,
       nth_error (to_send opts (fs w)) k = Some e -> nth_error chunks k = Some chunk ->
       let total := List.length (to_send opts (fs w)) in
       let h := log w ++ approved_reads (fs w) ++ concat (firstn k chunks) in
       let pre := progress_events opts total k e in
       let req := request_of e (fromEmail opts) (fromName opts) in
       let reply := emails_send out (h ++ pre) req in
       chunk = turn_events out opts total k e h /\
       filter is_sleep chunk =
         (if JS.truthy (pi_email e) && negb (dryRun opts) && confirmed reply &&
             (k <? total - 1)%nat && (0 <? delay opts)%Z
          then [EvSleep (delay opts * 1000)] else []) /\
       (filter is_sleep chunk <> [] ->
        chunk = pre ++ [EvDispatch req reply; EvSleep (delay opts * 1000)])) /\
    (dryRun opts = true -> forall ev, In ev (concat chunks) -> is_sleep ev = false).
Proof.
  intros Hc.
  destruct (sendApprovedEmails_spec opts w Hc)
    as [res [w' [chunks [E [_ [Hlog [Hlen [_ [_ [_ [_ [Hd [Hsl _]]]]]]]]]]]]].
  exists res, w', chunks.
  split; [exact E|]. split; [exact Hlog|]. split; [exact Hlen|].
  split; [intros ev H; apply (approved_reads_quiet _ ev H)|].
  split.
  { intros k e chunk He Hk. cbv zeta.
    pose proof (Hsl k e chunk He Hk) as S.
    destruct (turn_events_sleeps opts (List.length (to_send opts (fs w))) k e
                (log w ++ approved_reads (fs w) ++ concat (firstn k chunks)))
      as [S1 S2].
    rewrite <- S in S1, S2. split; [exact S|]. split; [exact S1 | exact S2]. }
  intros Hdry ev H. destruct (Hd Hdry) as [_ Hno]. apply (Hno ev H).
Qed.

Lemma in_concat_nth {X : Type} (ls : list (list X)) (x : X) :
  In x (concat ls) -> exists k l, nth_error ls k = Some l /\ In x l.
Proof.
  intros H. apply in_concat in H. destruct H as [l [Hl Hx]].
  apply In_nth_error in Hl. destruct Hl as [k Hk]. exists k, l. auto.
Qed.

Lemma turn_events_dispatch (opts : send_options) (total k : nat) (e : email)
    (h : list event) (req : request) (reply : provider_reply) :
  In (EvDispatch req reply) (turn_events out opts total k e h) ->
  req = request_of e (fromEmail opts) (fromName opts) /\
  JS.truthy (pi_email e) = true /\ dryRun opts = false.
Proof.
  unfold turn_events, progress_events, pause_after. cbv zeta.
  destruct (JS.truthy (pi_email e)), (dryRun opts), (onProgress opts); cbn [negb andb];
    try match goal with
        | |- context [if ?c then [EvSleep _] else []] => destruct c
        end;
    intros H; simpl in H;
    repeat (destruct H as [H | H]; try discriminate H);
    try contradiction;
    injection H as <- _; repeat split.
Qed.

(** C10, as amended.  For every store, [getApprovedEmails] returns the
    records of the files of [approved] that parse to an object, and only
    those, and changes nothing.  A run that lacks its configuration throws
    and leaves the world as it found it; every other run returns its lists,
    each call to the provider carries the message of a record that did
    parse, and each entry of either list carries the [award_id] of such a
    record: a file that does not parse contributes nothing.  Provided no
    record of [approved] carries the name of that file as its [award_id] (as
    in a directory whose records are filed under their own [award_id]), the
    file's id is in neither list and its files are as before the run. *)
Theorem unparsable_approved_files_are_passed_over
    (opts : send_options) (w : world) (id : string) (f : file email) :
  dir_lookup id (approved (fs w)) = Some f ->
  parsed f = None ->
  (exists w0, getApprovedEmails w = (Ok (records (approved (fs w))), w0) /\ fs w0 = fs w) /\
  (forall e, In e (records (approved (fs w))) <->
     exists i, In i (dir_ids (approved (fs w))) /\
               dir_lookup i (approved (fs w)) = Some (JsonObject e)) /\
  (forall e, In e (records (approved (fs w))) ->
     dir_lookup id (approved (fs w)) <> Some (JsonObject e)) /\
  (well_formed (approved (fs w)) = true ->
   forall e, In e (records (approved (fs w))) -> award_id e <> id) /\
  (configured opts w \/ ~ configured opts w) /\
  (~ configured opts w ->
   exists msg, sendApprovedEmails out opts w = (Throw (Error msg), w)) /\
  (configured opts w ->
   exists res w' evs,
    sendApprovedEmails out opts w = (Ok res, w') /\
    log w' = log w ++ approved_reads (fs w) ++ evs /\
    (forall req reply, In (EvDispatch req reply) evs ->
       exists e, In e (records (approved (fs w))) /\
                 req = request_of e (fromEmail opts) (fromName opts)) /\
    (forall x, In x (Results.sent res) ->
       exists e, In e (records (approved (fs w))) /\ SentEntry.awardId x = award_id e) /\
    (forall y, In y (Results.errors res) ->
       exists e, In e (records (approved (fs w))) /\ ErrorEntry.awardId y = award_id e) /\
    ((forall e, In e (records (approved (fs w))) -> award_id e <> id) ->
     ~ In id (map SentEntry.awardId (Results.sent res)) /\
     ~ In id (map ErrorEntry.awardId (Results.errors res)) /\
     same_files id (fs w) (fs w'))).
Proof.
  intros Hl Hp.
  split; [rewrite getApprovedEmails_run; eexists; split; reflexivity|].
  split; [apply records_In|].
  split; [intros e _ C; rewrite Hl in C; injection C as ->; discriminate|].
  split.
  { intros Hwf e He C. destruct (well_formed_records _ Hwf) as [_ L].
    specialize (L e He). rewrite C, Hl in L. injection L as ->. discriminate. }
  split.
  { unfold configured.
    destruct (dryRun opts); [left; left; reflexivity|].
    destruct (JS.truthy (RESEND_API_KEY (env w))), (JS.truthy (fromEmail opts));
      try (left; right; split; reflexivity);
      right; intros [C | [C1 C2]]; discriminate. }
  split.
  { intros Hn. rewrite sendApprovedEmails_unfold.
    destruct (dryRun opts) eqn:Hd; [exfalso; apply Hn; left; exact Hd|].
    destruct (JS.truthy (RESEND_API_KEY (env w))) eqn:Hk; cbn [negb andb];
      [|eexists; reflexivity].
    destruct (JS.truthy (fromEmail opts)) eqn:Hf; cbn [negb andb];
      [|eexists; reflexivity].
    exfalso. apply Hn. right. split; [exact Hk | exact Hf]. }
  intros Hc.
  destruct (sendApprovedEmails_spec opts w Hc)
    as [res [w' [chunks [E [_ [Hlog [Hlen [_ [_ [Hperm [Hfr [_ [Hsl _]]]]]]]]]]]]].
  assert (forall i, In i (map SentEntry.awardId (Results.sent res) ++
                          map ErrorEntry.awardId (Results.errors res)) ->
            exists e, In e (records (approved (fs w))) /\ i = award_id e) as Hids.
  { intros i Hi. apply (Permutation_in _ Hperm) in Hi.
    apply in_map_iff in Hi. destruct Hi as [e [He1 He2]].
    exists e. split; [exact (to_send_records opts (fs w) e He2) | symmetry; exact He1]. }
  exists res, w', (concat chunks).
  split; [exact E|]. split; [exact Hlog|].
  split.
  { intros req reply Hev.
    apply in_concat_nth in Hev. destruct Hev as [k [chunk [Hk Hev]]].
    assert (k < List.length (to_send opts (fs w))) as Hlt.
    { rewrite <- Hlen. apply nth_error_Some. congruence. }
    apply nth_error_Some in Hlt.
    destruct (nth_error (to_send opts (fs w)) k) as [e|] eqn:He; [|congruence].
    rewrite (Hsl k e chunk He Hk) in Hev.
    destruct (turn_events_dispatch _ _ _ _ _ _ _ Hev) as [Hreq _].
    exists e. split; [|exact Hreq].
    exact (to_send_records opts (fs w) e (nth_error_In _ _ He)). }
  split.
  { intros x Hx. apply Hids, in_or_app. left. apply in_map. exact Hx. }
  split.
  { intros y Hy. apply Hids, in_or_app. right. apply in_map. exact Hy. }
  intros Hne.
  assert (~ In id (map award_id (to_send opts (fs w)))) as Hnot.
  { intros C. apply in_map_iff in C. destruct C as [e [He1 He2]].
    exact (Hne e (to_send_records opts (fs w) e He2) He1). }
  split.
  { intros C. apply Hnot. apply (Permutation_in _ Hperm).
    apply in_or_app. left. exact C. }
  split.
  { intros C. apply Hnot. apply (Permutation_in _ Hperm).
    apply in_or_app. right. exact C. }
  exact (Hfr id Hnot).
Qed.

(** *** One collection per id *)

Lemma appears_with (id : string) (f g : folder) (d : dir email) (s : store) :
  appears id f (with_folder g d s) =
  if folder_eqb f g then dir_has id d else appears id f s.
Proof. unfold appears. rewrite folder_dir_with. destruct (folder_eqb f g); reflexivity. Qed.

Lemma set_has_app (l1 l2 : list string) (x : string) :
  set_has (l1 ++ l2) x = set_has l1 x || set_has l2 x.
Proof. unfold set_has. apply existsb_app. Qed.

Lemma not_processed_occurrences (id : string) (s : store) :
  set_has (dir_ids (drafts s) ++ dir_ids (approved s) ++
           dir_ids (sent s) ++ dir_ids (skipped s)) id = false <->
  occurrences id s = 0.
Proof.
  rewrite !set_has_app. unfold occurrences, appears, dir_has, set_has. simpl.
  destruct (existsb _ (dir_ids (drafts s))), (existsb _ (dir_ids (approved s))),
    (existsb _ (dir_ids (sent s))), (existsb _ (dir_ids (skipped s)));
    simpl; split; (discriminate || reflexivity).
Qed.

Lemma processed_occurrences (id : string) (s : store) :
  processed id s <-> occurrences id s <> 0.
Proof.
  unfold processed, occurrences. split.
  - intros [f H]. destruct f; rewrite H; simpl; lia.
  - intros H.
    destruct (appears id Drafts s) eqn:A; [exists Drafts; exact A|].
    destruct (appears id Approved s) eqn:B; [exists Approved; exact B|].
    destruct (appears id Sent s) eqn:C; [exists Sent; exact C|].
    destruct (appears id Skipped s) eqn:D; [exists Skipped; exact D|].
    simpl in H. congruence.
Qed.

(** Writing a draft for an id that is nowhere yet. *)
Lemma at_most_one_save (id : string) (e : email) (s : store) :
  occurrences (award_id e) s = 0 ->
  at_most_one id s ->
  at_most_one id
    (with_folder Drafts (dir_write (award_id e) (JsonObject e) (drafts s)) s).
Proof.
  unfold at_most_one, occurrences. rewrite !appears_with. simpl.
  rewrite dir_has_write. fold (appears id Drafts s).
  destruct (award_id e =? id) eqn:E.
  - apply String.eqb_eq in E. rewrite E. intros H _.
    destruct (appears id Drafts s), (appears id Approved s), (appears id Sent s),
      (appears id Skipped s); simpl in *; lia.
  - intros _ H. exact H.
Qed.

Lemma moveFile_run (id : string) (a b : folder) (w : world) :
  moveFile id a b w =
    match dir_lookup id (folder_dir a (fs w)) with
    | None => (Throw (Error "ENOENT: no such file or directory"), w)
    | Some f =>
        if folder_eqb a b then (Ok tt, w)
        else
          let s1 := with_folder b (dir_write id f (folder_dir b (fs w))) (fs w) in
          (Ok tt, mkWorld (with_folder a (dir_unlink id (folder_dir a s1)) s1)
                    (env w) (log w))
    end.
Proof.
  unfold moveFile, bind, get_fs.
  destruct (dir_lookup id (folder_dir a (fs w))); [|reflexivity].
  destruct (folder_eqb a b); reflexivity.
Qed.

(** A rename keeps every id in at most one collection. *)
Lemma moveFile_preserves (id0 id : string) (a b : folder) (w : world) :
  at_most_one id0 (fs w) -> at_most_one id0 (fs (snd (moveFile id a b w))).
Proof.
  intros H. rewrite moveFile_run.
  destruct (dir_lookup id (folder_dir a (fs w))) as [f|] eqn:L; [|exact H].
  destruct (folder_eqb a b) eqn:Eab; [exact H|]. cbv zeta. cbn [snd fs].
  assert (appears id a (fs w) = true) as Ha
      by (unfold appears; rewrite dir_has_lookup, L; reflexivity).
  revert H. unfold at_most_one, occurrences.
  rewrite !appears_with, !folder_dir_with.
  destruct a, b; try discriminate Eab; cbn [folder_eqb folder_dir];
    rewrite ?dir_has_unlink, ?dir_has_write; unfold appears in *; cbn [folder_dir] in *;
    (destruct (id =? id0) eqn:E;
     [ apply String.eqb_eq in E; subst id0; rewrite ?Ha;
       destruct (dir_has id (drafts (fs w))), (dir_has id (approved (fs w))),
         (dir_has id (sent (fs w))), (dir_has id (skipped (fs w)));
       simpl in *; try discriminate; lia
     | intros H; exact H ]).
Qed.

(** Filing a record as sent keeps its id in one collection when the id is
    in neither [drafts] nor [skipped]; every other id is untouched. *)
Lemma file_as_sent_preserves (id : string) (u : email) (s : store) :
  (award_id u = id -> appears id Drafts s = false /\ appears id Skipped s = false) ->
  at_most_one id s -> at_most_one id (file_as_sent u s).
Proof.
  intros Hc. unfold at_most_one, occurrences, appears. cbn [folder_dir].
  destruct (file_as_sent_drafts u s) as [-> [-> _]].
  rewrite (dir_has_lookup id (approved (file_as_sent u s))),
    (dir_has_lookup id (sent (file_as_sent u s))),
    file_as_sent_approved, file_as_sent_sent.
  destruct (award_id u =? id) eqn:E;
    [|rewrite <- !dir_has_lookup; intros H; exact H].
  apply String.eqb_eq in E. destruct (Hc E) as [Hd Hk].
  unfold appears in Hd, Hk. cbn [folder_dir] in Hd, Hk. rewrite Hd, Hk.
  intros _. simpl. lia.
Qed.

Lemma isAlreadyProcessed_run (id : string) (w : world) :
  isAlreadyProcessed id w =
    (Ok (set_has (dir_ids (drafts (fs w)) ++ dir_ids (approved (fs w)) ++
                  dir_ids (sent (fs w)) ++ dir_ids (skipped (fs w))) id),
     mkWorld (fs w) (env w)
       (log w ++ [EvListIds Drafts; EvListIds Approved; EvListIds Sent;
                  EvListIds Skipped])).
Proof.
  unfold isAlreadyProcessed, listIds, bind, emit, get_fs, ret. cbn [fs env log folder_dir].
  rewrite <- !app_assoc. reflexivity.
Qed.

Lemma random_quiet (P : event -> Prop) :
  (forall r, P (EvRandom r)) -> quiet P (random out).
Proof.
  intros H. unfold random. apply quiet_bind; [apply quiet_get_log | intros h].
  cbv zeta. apply quiet_bind; [apply quiet_emit; apply H | intros; apply quiet_ret].
Qed.

Lemma shuffle_from_quiet {X : Type} (P : event -> Prop) (i : nat) :
  (forall r, P (EvRandom r)) ->
  forall l : list X, quiet P (shuffle_from out i l).
Proof.
  intros H. induction i as [|i IH]; intros l; simpl.
  - apply quiet_ret.
  - apply quiet_bind; [apply random_quiet; exact H | intros r; apply IH].
Qed.

(** [generateEmail] writes nothing. *)
Lemma generateEmail_quiet (a : award) (senderName : option string) :
  quiet (fun _ => True) (generateEmail out buildPrompt finishBody a senderName).
Proof.
  unfold generateEmail, isAlreadyProcessed, listIds, selectVariants, loadAllVariants,
    randomSelect, buildStyleGuide, variant_ids_of, undefined_property, now.
  repeat first [ quiet_step
               | apply random_quiet; intros; exact I
               | progress cbv zeta ].
Qed.

Lemma generateEmail_award_id (a : award) (senderName : option string) :
  ensures (fun e => award_id e = awardId_of a)
    (generateEmail out buildPrompt finishBody a senderName).
Proof.
  unfold generateEmail.
  repeat first [ ensures_step | progress cbv zeta ]. reflexivity.
Qed.

Lemma generateEmail_fresh (a : award) (senderName : option string)
    (w w' : world) (e : email) :
  generateEmail out buildPrompt finishBody a senderName w = (Ok e, w') ->
  hasValidContact a = true /\ occurrences (awardId_of a) (fs w) = 0.
Proof.
  unfold generateEmail. destruct (hasValidContact a); cbn [negb]; [|discriminate].
  unfold bind at 1. rewrite isAlreadyProcessed_run.
  destruct (set_has _ (awardId_of a)) eqn:S; [discriminate|].
  intros _. split; [reflexivity | apply not_processed_occurrences; exact S].
Qed.

Lemma generate_one_preserves (id : string) (progress : bool) (total i : nat)
    (a : award) (senderName : option string) (res : Generated.results) (w : world) :
  at_most_one id (fs w) ->
  at_most_one id
    (fs (snd (generate_one out buildPrompt finishBody progress total i a senderName res w))).
Proof.
  intros H. unfold generate_one. cbv zeta.
  set (first := if progress then emit _ else ret tt).
  assert (exists w0, first w = (Ok tt, w0) /\ fs w0 = fs w) as [w0 [E0 F0]]
      by (unfold first; destruct progress; eexists; split; reflexivity).
  unfold bind at 1. rewrite E0. unfold try_catch. unfold bind at 1.
  destruct (generateEmail_quiet a senderName w0) as [evs [Q _]].
  destruct (generateEmail out buildPrompt finishBody a senderName w0)
    as [[e|err] w1] eqn:G; simpl in Q; subst w1.
  - destruct (generateEmail_fresh _ _ _ _ _ G) as [_ Hfresh].
    pose proof (generateEmail_award_id a senderName _ _ _ G) as Hid. simpl in Hid.
    unfold saveDraft, ensureDirs, writeJson, bind, get_fs, put_fs, ret.
    cbn [fs env log snd folder_dir]. rewrite F0.
    apply at_most_one_save; [rewrite Hid, <- F0; exact Hfresh | exact H].
  - unfold ret. cbn [snd fs]. rewrite F0. exact H.
Qed.

Lemma generate_loop_preserves (id : string) (progress : bool) (total : nat)
    (senderName : option string) (toProcess : list award) :
  forall (i : nat) (res : Generated.results) (w : world),
    at_most_one id (fs w) ->
    at_most_one id
      (fs (snd (generate_loop out buildPrompt finishBody progress total i toProcess
                  senderName res w))).
Proof.
  induction toProcess as [|a rest IH]; intros i res w H; simpl; [exact H|].
  unfold bind.
  pose proof (generate_one_preserves id progress total i a senderName res w H) as H1.
  destruct (generate_one out buildPrompt finishBody progress total i a senderName res w)
    as [[res1|err] w1]; simpl in H1; [apply IH; exact H1 | exact H1].
Qed.

Lemma generateEmails_preserves (id : string) (awards : list award) (limit : Z)
    (progress : bool) (senderName : option string) (w : world) :
  at_most_one id (fs w) ->
  at_most_one id
    (fs (snd (generateEmails out buildPrompt finishBody awards limit progress
                senderName w))).
Proof.
  intros H. unfold generateEmails, shuffleArray. unfold bind at 1.
  destruct (shuffle_from_quiet (fun _ => True) (List.length awards - 1)
              (fun _ => I) awards w) as [evs [Q _]].
  destruct (shuffle_from out (List.length awards - 1) awards w) as [[l|err] w1];
    simpl in Q; subst w1.
  - apply generate_loop_preserves. exact H.
  - exact H.
Qed.

Lemma decide_preserves (id : string) (dest : folder) (st : review_state) (w : world) :
  at_most_one id (fs w) -> at_most_one id (fs (snd (decide dest st w))).
Proof.
  intros H. unfold decide.
  destruct (nth_error (emails st) (currentIndex st)) as [[k e]|]; [|exact H].
  unfold try_catch, bind.
  pose proof (moveFile_preserves id k Drafts dest w H) as Hm.
  destruct (moveFile k Drafts dest w) as [[[]|err] w1]; exact Hm.
Qed.

Lemma handleKeypress_preserves (id : string) (str : string) (st : review_state)
    (w : world) :
  at_most_one id (fs w) -> at_most_one id (fs (snd (handleKeypress str st w))).
Proof.
  intros H. unfold handleKeypress.
  destruct (negb (running st)); [exact H|].
  destruct (str =? "q"); [exact H|].
  destruct ((str =? "l") || (str =? "j")); [exact H|].
  destruct ((str =? "h") || (str =? "k")); [exact H|].
  destruct ((str =? "a") && folder_eqb (rv_folder st) Drafts);
    [apply decide_preserves; exact H|].
  destruct ((str =? "s") && folder_eqb (rv_folder st) Drafts);
    [apply decide_preserves; exact H | exact H].
Qed.

Lemma markAsSent_preserves (id : string) (e : email) (rid : option string) (w : world) :
  (award_id e = id ->
   appears id Drafts (fs w) = false /\ appears id Skipped (fs w) = false) ->
  at_most_one id (fs w) ->
  at_most_one id (fs (snd (markAsSent out e rid w))).
Proof.
  intros Hc H. rewrite markAsSent_run. cbv zeta. cbn [snd fs].
  apply file_as_sent_preserves; [exact Hc | exact H].
Qed.

Lemma occurrences_same (id : string) (s s' : store) :
  same_elsewhere s s' -> same_files id s s' -> occurrences id s' = occurrences id s.
Proof.
  intros [Hd [Hk _]] [Ha Hs]. unfold occurrences, appears. cbn [folder_dir].
  rewrite Hd, Hk, !(dir_has_lookup id (approved _)), !(dir_has_lookup id (sent _)), Ha, Hs.
  reflexivity.
Qed.

Lemma sendApprovedEmails_preserves (id : string) (opts : send_options) (w : world) :
  well_formed (approved (fs w)) = true ->
  at_most_one id (fs w) ->
  at_most_one id (fs (snd (sendApprovedEmails out opts w))).
Proof.
  intros Hwf H.
  destruct (dryRun opts) eqn:Hdry.
  { destruct (sendApprovedEmails_spec opts w (or_introl Hdry))
      as [res [w' [chunks [E [_ [_ [_ [_ [_ [_ [_ [Hd _]]]]]]]]]]]].
    rewrite E. cbn [snd]. destruct (Hd Hdry) as [-> _]. exact H. }
  destruct (JS.truthy (RESEND_API_KEY (env w))) eqn:K.
  2: { rewrite sendApprovedEmails_unfold, Hdry, K. exact H. }
  destruct (JS.truthy (fromEmail opts)) eqn:F.
  2: { rewrite sendApprovedEmails_unfold, Hdry, K, F. exact H. }
  destruct (sendApprovedEmails_spec opts w (or_intror (conj K F)))
    as [res [w' [chunks [E [_ [_ [Hlen [Hels [_ [_ [Hfr [_ [_ Hout]]]]]]]]]]]]].
  destruct (to_send_well_formed opts (fs w) Hwf) as [Hnd Hin].
  rewrite E. cbn [snd].
  destruct (in_dec string_dec id (map award_id (to_send opts (fs w)))) as [Hmem | Hnot].
  2: { unfold at_most_one. rewrite (occurrences_same id _ _ Hels (Hfr id Hnot)). exact H. }
  apply in_map_iff in Hmem. destruct Hmem as [e [He Hmem]]. subst id.
  destruct (Hin e Hmem) as [_ Hl].
  apply In_nth_error in Hmem. destruct Hmem as [k Hk].
  assert (k < List.length chunks) as Hlt
      by (rewrite Hlen; apply nth_error_Some; congruence).
  apply nth_error_Some in Hlt.
  destruct (nth_error chunks k) as [chunk|] eqn:Hc; [|congruence].
  destruct (Hout Hdry Hnd k e chunk Hk Hc) as [_ [_ [Hfail | Hok]]].
  - destruct Hfail as [msg [_ [_ [Ha Hs]]]].
    unfold at_most_one. rewrite (occurrences_same (award_id e) _ _ Hels (conj Ha Hs)).
    exact H.
  - destruct Hok as [rid [t [_ [_ [Ha [Hs _]]]]]].
    destruct Hels as [Hd [Hsk _]].
    revert H. unfold at_most_one, occurrences, appears. cbn [folder_dir].
    rewrite Hd, Hsk, !(dir_has_lookup _ (approved _)), !(dir_has_lookup _ (sent _)),
      Ha, Hs, Hl.
    destruct (dir_has (award_id e) (drafts (fs w))),
      (dir_has (award_id e) (skipped (fs w))),
      (dir_lookup (award_id e) (sent (fs w))); simpl; lia.
Qed.

Lemma generateEmail_refuses_processed (a : award) (senderName : option string)
    (w : world) :
  processed (awardId_of a) (fs w) ->
  exists msg evs,
    generateEmail out buildPrompt finishBody a senderName w
      = (Throw (Error msg), mkWorld (fs w) (env w) (log w ++ evs)) /\
    (forall ev, In ev evs -> is_model_call ev = false) /\
    msg = if hasValidContact a
          then ("Award " ++ awardId_of a ++
                " has already been processed (draft, approved, sent, or skipped)")%string
          else "Award does not have valid PI email".
Proof.
  intros Hp. apply processed_occurrences in Hp.
  unfold generateEmail. destruct (hasValidContact a); cbn [negb].
  - unfold bind at 1. rewrite isAlreadyProcessed_run.
    destruct (set_has _ (awardId_of a)) eqn:S.
    + eexists. eexists. split; [reflexivity|]. split; [|reflexivity].
      intros ev [<- | [<- | [<- | [<- | []]]]]; reflexivity.
    + apply not_processed_occurrences in S. congruence.
  - exists "Award does not have valid PI email", []. split.
    + unfold throw. f_equal. apply world_eta.
    + split; [intros ev [] | reflexivity].
Qed.

(** C1, as amended.  From a store in which an id is in at most one of the
    four status collections: generating and saving a draft, the whole
    generation batch, every key of a review session (approve and skip
    included) and a whole run of the sender over a well-formed [approved]
    directory leave the id in at most one collection; [markAsSent] does so
    for every id other than the record's own, and for the record's own id
    when that id is in neither [drafts] nor [skipped].  And [generateEmail]
    on an award whose id is in any of the four throws without calling the
    model or changing a file: the already-processed error if the award has a
    valid contact, the invalid-contact error (checked first) otherwise. *)
Theorem status_moves_keep_an_id_in_one_collection (id : string) (w : world) :
  at_most_one id (fs w) ->
  (forall progress total i a senderName res,
     at_most_one id
       (fs (snd (generate_one out buildPrompt finishBody progress total i a
                   senderName res w)))) /\
  (forall awards limit progress senderName,
     at_most_one id
       (fs (snd (generateEmails out buildPrompt finishBody awards limit progress
                   senderName w)))) /\
  (forall str st, at_most_one id (fs (snd (handleKeypress str st w)))) /\
  (forall e rid,
     (award_id e = id ->
      appears id Drafts (fs w) = false /\ appears id Skipped (fs w) = false) ->
     at_most_one id (fs (snd (markAsSent out e rid w)))) /\
  (forall opts,
     well_formed (approved (fs w)) = true ->
     at_most_one id (fs (snd (sendApprovedEmails out opts w)))) /\
  (forall a senderName,
     processed (awardId_of a) (fs w) ->
     exists msg evs,
       generateEmail out buildPrompt finishBody a senderName w
         = (Throw (Error msg), mkWorld (fs w) (env w) (log w ++ evs)) /\
       (forall ev, In ev evs -> is_model_call ev = false) /\
       msg = if hasValidContact a
             then ("Award " ++ awardId_of a ++
                   " has already been processed (draft, approved, sent, or skipped)")%string
             else "Award does not have valid PI email").
Proof.
  intros H.
  split; [intros; apply generate_one_preserves; exact H|].
  split; [intros; apply generateEmails_preserves; exact H|].
  split; [intros; apply handleKeypress_preserves; exact H|].
  split; [intros e rid Hc; apply markAsSent_preserves; [exact Hc | exact H]|].
  split; [intros opts Hwf; apply sendApprovedEmails_preserves; [exact Hwf | exact H]|].
  intros a senderName Hp. apply generateEmail_refuses_processed. exact Hp.
Qed.

(** *** Well-formed directories stay well-formed *)

Lemma unique_names_write {X : Type} (id : string) (f : file X) (d : dir X) :
  unique_names d = true -> unique_names (dir_write id f d) = true.
Proof.
  induction d as [|[k g] d IH]; simpl; [reflexivity|].
  rewrite andb_true_iff. intros [Hk Hd].
  destruct (k =? id) eqn:E; simpl.
  - rewrite Hk, Hd. reflexivity.
  - rewrite dir_has_write, String.eqb_sym, E, Hk, (IH Hd). reflexivity.
Qed.

Lemma unique_names_unlink {X : Type} (id : string) (d : dir X) :
  unique_names d = true -> unique_names (dir_unlink id d) = true.
Proof.
  induction d as [|[k g] d IH]; simpl; [reflexivity|].
  rewrite andb_true_iff, negb_true_iff. intros [Hk Hd].
  destruct (k =? id) eqn:E; simpl; [exact (IH Hd)|].
  fold (dir_unlink id d). rewrite dir_has_unlink, Hk, (IH Hd).
  destruct (id =? k); reflexivity.
Qed.

Lemma filed_write (id : string) (f : file email) (d : dir email) :
  (forall e, f = JsonObject e -> award_id e = id) ->
  filed_under_award_id d = true -> filed_under_award_id (dir_write id f d) = true.
Proof.
  intros Hf. unfold filed_under_award_id.
  induction d as [|[k g] d IH]; simpl.
  - intros _. destruct f as [| | |e]; try reflexivity.
    rewrite (Hf e eq_refl), String.eqb_refl. reflexivity.
  - rewrite andb_true_iff. intros [Hk Hd].
    destruct (k =? id) eqn:E; simpl.
    + rewrite Hd, andb_true_r. apply String.eqb_eq in E. subst k.
      destruct f as [| | |e]; try reflexivity.
      rewrite (Hf e eq_refl). apply String.eqb_refl.
    + rewrite Hk, (IH Hd). reflexivity.
Qed.

Lemma filed_unlink (id : string) (d : dir email) :
  filed_under_award_id d = true -> filed_under_award_id (dir_unlink id d) = true.
Proof.
  unfold filed_under_award_id, dir_unlink. rewrite !forallb_forall.
  intros H p Hp. apply filter_In in Hp. apply H. exact (proj1 Hp).
Qed.

Lemma well_formed_write (id : string) (f : file email) (d : dir email) :
  (forall e, f = JsonObject e -> award_id e = id) ->
  well_formed d = true -> well_formed (dir_write id f d) = true.
Proof.
  unfold well_formed. rewrite !andb_true_iff. intros Hf [Hu Hd].
  split; [apply unique_names_write; exact Hu | apply filed_write; assumption].
Qed.

Lemma well_formed_unlink (id : string) (d : dir email) :
  well_formed d = true -> well_formed (dir_unlink id d) = true.
Proof.
  unfold well_formed. rewrite !andb_true_iff. intros [Hu Hd].
  split; [apply unique_names_unlink; exact Hu | apply filed_unlink; exact Hd].
Qed.

Lemma well_formed_store_iff (s : store) :
  well_formed_store s = true <->
  forall f, well_formed (folder_dir f s) = true.
Proof.
  unfold well_formed_store. rewrite !andb_true_iff. split.
  - intros [[[A B] C] D] []; assumption.
  - intros H. repeat split; [apply (H Drafts) | apply (H Approved) | apply (H Sent)
                            | apply (H Skipped)].
Qed.

(** The three writers of the pipeline file every record under its own
    [award_id], so a well-formed store stays well-formed. *)
Lemma writers_keep_the_store_well_formed (w : world) :
  well_formed_store (fs w) = true ->
  (forall e, well_formed_store (fs (snd (saveDraft e w))) = true) /\
  (forall id a b, well_formed_store (fs (snd (moveFile id a b w))) = true) /\
  (forall e rid, well_formed_store (fs (snd (markAsSent out e rid w))) = true).
Proof.
  intros H. pose proof (proj1 (well_formed_store_iff _) H) as Hf.
  split; [|split].
  - intros e. apply well_formed_store_iff. intros f.
    unfold saveDraft, ensureDirs, writeJson, bind, get_fs, put_fs, ret.
    cbn [snd fs folder_dir]. rewrite folder_dir_with.
    destruct (folder_eqb f Drafts); [|apply Hf].
    apply well_formed_write; [intros e' [= <-]; reflexivity | apply (Hf Drafts)].
  - intros id a b. rewrite moveFile_run.
    destruct (dir_lookup id (folder_dir a (fs w))) as [c|] eqn:L; [|exact H].
    destruct (folder_eqb a b) eqn:Eab; [exact H|].
    cbv zeta. cbn [snd fs]. apply well_formed_store_iff. intros f.
    assert (forall e, c = JsonObject e -> award_id e = id) as Hc.
    { intros e ->. pose proof (Hf a) as Ha. unfold well_formed in Ha.
      apply andb_true_iff in Ha. exact (filed_lookup _ _ _ (proj2 Ha) L). }
    rewrite !folder_dir_with.
    destruct (folder_eqb f a) eqn:Efa.
    + apply well_formed_unlink. rewrite Eab.  apply Hf.
    + destruct (folder_eqb f b); [|apply Hf].
      apply well_formed_write; [exact Hc | apply Hf].
  - intros e rid. rewrite markAsSent_run. cbv zeta. cbn [snd fs].
    apply well_formed_store_iff. intros f. unfold file_as_sent.
    set (u := stamp e (Date_now out (log w)) rid).
    assert (well_formed (dir_write (award_id u) (JsonObject u) (sent (fs w))) = true) as Hs
        by (apply well_formed_write; [intros e' [= <-]; reflexivity | apply (Hf Sent)]).
    cbn [approved with_folder].
    destruct (dir_has (award_id u) (approved (fs w))); destruct f; cbn [folder_dir with_folder
      drafts approved sent skipped]; try exact Hs; try apply (Hf Drafts);
      try apply (Hf Skipped); try apply (Hf Approved).
    apply well_formed_unlink. apply (Hf Approved).
Qed.
End Properties.

(** ** The properties at concrete inputs *)

(** C1, as stated, fails: [markAsSent] on a record that is still in
    [drafts] files it under [sent] as well; and an award that is already
    processed but has no valid contact is refused with the invalid-contact
    error, not the already-processed one. *)
Lemma markAsSent_can_put_an_id_in_two_collections :
  (at_most_one "2300001" (fs Scenario.one_draft) /\
   ~ at_most_one "2300001"
       (fs (snd (markAsSent Scenario.reliable Scenario.e1 (Some "re_1")
                   Scenario.one_draft)))) /\
  (awardId_of Scenario.no_contact = "2300001" /\
   processed "2300001" (fs Scenario.one_draft) /\
   fst (generateEmail Scenario.reliable Scenario.prompt Scenario.finish
          Scenario.no_contact None Scenario.one_draft)
     = Throw (Error "Award does not have valid PI email")).
Proof.
  split; [split|split; [|split]].
  - unfold at_most_one. vm_compute. lia.
  - unfold at_most_one. vm_compute. lia.
  - reflexivity.
  - exists Drafts. reflexivity.
  - reflexivity.
Qed.

Lemma status_moves_witness :
  at_most_one "2300001" (fs Scenario.three_approved) /\
  well_formed (approved (fs Scenario.three_approved)) = true /\
  at_most_one "2300001"
    (fs (snd (sendApprovedEmails Scenario.second_fails (Scenario.opts 2 0 false)
                Scenario.three_approved))) /\
  at_most_one "2300001"
    (fs (snd (handleKeypress "a"
                (mkReview Drafts [("2300001", Scenario.e1)] 0 true)
                Scenario.one_draft))).
Proof.
  assert (at_most_one "2300001" (fs Scenario.three_approved)) as H3
      by (unfold at_most_one; vm_compute; lia).
  assert (at_most_one "2300001" (fs Scenario.one_draft)) as H1
      by (unfold at_most_one; vm_compute; lia).
  split; [exact H3|]. split; [reflexivity|]. split.
  - apply (status_moves_keep_an_id_in_one_collection Scenario.second_fails
             Scenario.prompt Scenario.finish "2300001" Scenario.three_approved H3).
    reflexivity.
  - apply (status_moves_keep_an_id_in_one_collection Scenario.reliable
             Scenario.prompt Scenario.finish "2300001" Scenario.one_draft H1).
Defined.

(** C2, as stated, fails for a record whose file is not named by its
    [award_id]: the run reports it as sent and files it in [sent], yet its
    file is still in [approved], to be sent again by the next run. *)
Lemma a_misfiled_record_is_sent_and_stays_approved :
  let run := sendApprovedEmails Scenario.reliable (Scenario.opts 10 0 false)
               Scenario.misfiled in
  records (approved (fs Scenario.misfiled)) = [Scenario.e1] /\
  exists res,
    fst run = Ok res /\
    map SentEntry.awardId (Results.sent res) = ["2300001"] /\
    Results.errors res = [] /\
    appears "2300001" Sent (fs (snd run)) = true /\
    dir_lookup "A" (approved (fs (snd run))) = Some (JsonObject Scenario.e1) /\
    records (approved (fs (snd run))) = [Scenario.e1].
Proof.
  cbv zeta. split; [reflexivity|].
  eexists. split; [vm_compute; reflexivity|].
  repeat split; vm_compute; reflexivity.
Qed.

(** Scenario C of the specification: three approved records, a limit of
    two, no delay, and a provider whose second call fails. *)
Lemma scenario_C :
  let run := sendApprovedEmails Scenario.second_fails (Scenario.opts 2 0 false)
               Scenario.three_approved in
  exists res u,
    fst run = Ok res /\
    List.length (Results.sent res) = 1 /\
    List.length (Results.errors res) = 1 /\
    map ErrorEntry.awardId (Results.errors res) = ["2300002"] /\
    dir_lookup "2300002" (approved (fs (snd run))) = Some (JsonObject Scenario.e2) /\
    appears "2300002" Sent (fs (snd run)) = false /\
    map SentEntry.awardId (Results.sent res) = ["2300001"] /\
    map SentEntry.resendId (Results.sent res) = [Some "re_1"] /\
    dir_lookup "2300001" (sent (fs (snd run))) = Some (JsonObject u) /\
    sent_at Scenario.e1 = None /\
    sent_at u = Some "2025-12-01T09:00:00.000Z" /\
    resend_id u = Some "re_1" /\
    appears "2300001" Approved (fs (snd run)) = false /\
    appears "2300001" Drafts (fs (snd run)) = false /\
    appears "2300001" Skipped (fs (snd run)) = false.
Proof.
  cbv zeta. eexists. eexists. split; [vm_compute; reflexivity|].
  repeat split; vm_compute; reflexivity.
Qed.

Lemma isolates_failures_witness :
  dryRun (Scenario.opts 2 0 false) = false /\
  JS.truthy (RESEND_API_KEY (env Scenario.three_approved)) = true /\
  JS.truthy (fromEmail (Scenario.opts 2 0 false)) = true /\
  well_formed (approved (fs Scenario.three_approved)) = true /\
  exists res w',
    sendApprovedEmails Scenario.second_fails (Scenario.opts 2 0 false)
      Scenario.three_approved = (Ok res, w') /\
    List.length (Results.sent res) + List.length (Results.errors res) = 2 /\
    (exists u,
       dir_lookup "2300001" (sent (fs w')) = Some (JsonObject u) /\
       sent_at u = Some "2025-12-01T09:00:00.000Z" /\
       resend_id u = Some "re_1") /\
    dir_lookup "2300002" (approved (fs w')) = Some (JsonObject Scenario.e2).
Proof.
  split; [reflexivity|]. split; [reflexivity|]. split; [reflexivity|].
  split; [reflexivity|].
  destruct (sendApprovedEmails_isolates_failures Scenario.second_fails
              (Scenario.opts 2 0 false) Scenario.three_approved
              eq_refl eq_refl eq_refl eq_refl)
    as [res [w' [chunks [E [_ [_ [Hperm _]]]]]]].
  exists res, w'. split; [exact E|].
  split.
  { apply Permutation_length in Hperm.
    rewrite length_app, !length_map in Hperm. exact Hperm. }
  pose proof (f_equal snd E) as Ew. cbn [snd] in Ew. rewrite <- Ew.
  split; [|vm_compute; reflexivity].
  eexists. split; [vm_compute; reflexivity|]. split; reflexivity.
Defined.

Lemma dry_run_witness :
  dryRun (Scenario.opts 2 60 true) = true /\
  exists res evs,
    sendApprovedEmails Scenario.second_fails (Scenario.opts 2 60 true)
      Scenario.three_approved
    = (Ok res, mkWorld (fs Scenario.three_approved) (env Scenario.three_approved)
                 (log Scenario.three_approved ++ evs)) /\
    no_delivery evs.
Proof.
  split; [reflexivity|].
  apply (dry_run_leaves_the_store_alone Scenario.second_fails). reflexivity.
Defined.

(** Scenario B of the specification: whatever [Math.random] returns, the
    selection fails, so the disabled description is never selected. *)
Lemma scenario_B (out : outside) :
  fst (selectVariants out (Scenario.with_config Scenario.config))
    = Throw (Error "No enabled ouro_descriptions available").
Proof. reflexivity. Qed.

Lemma selectVariants_witness :
  variants_json (fs (Scenario.with_config Scenario.usable_config))
    = Some Scenario.usable_config /\
  fs (snd (selectVariants Scenario.reliable
             (Scenario.with_config Scenario.usable_config)))
    = fs (Scenario.with_config Scenario.usable_config) /\
  variants_json (fs (Scenario.with_config Scenario.config)) = Some Scenario.config /\
  none_enabled (ouro_descriptions Scenario.config) /\
  exists e,
    fst (selectVariants Scenario.reliable (Scenario.with_config Scenario.config))
      = Throw e.
Proof.
  split; [reflexivity|]. split.
  { apply (selectVariants_chooses_enabled_items Scenario.reliable _
             Scenario.usable_config). reflexivity. }
  split; [reflexivity|].
  assert (none_enabled (ouro_descriptions Scenario.config)) as Hn
      by (intros x [<- | []]; reflexivity).
  split; [exact Hn|].
  apply (selectVariants_chooses_enabled_items Scenario.reliable
           (Scenario.with_config Scenario.config) Scenario.config eq_refl).
  right; left. exact Hn.
Defined.

Lemma valid_contact_witness :
  hasValidContact Scenario.no_contact = false /\
  generateEmail Scenario.reliable Scenario.prompt Scenario.finish
    Scenario.no_contact None Scenario.one_award
  = (Throw (Error "Award does not have valid PI email"), Scenario.one_award).
Proof.
  split; [reflexivity|].
  apply (generateEmail_needs_a_valid_contact Scenario.reliable Scenario.prompt
           Scenario.finish Scenario.no_contact). reflexivity.
Defined.

(** C6, as stated, fails twice over.  With [delay = 60] the sender sleeps
    60000 ms after a delivery, not 60.  And it does not sleep between each
    pair of successive sends: when the second of three calls fails, the third
    call follows it with no sleep in between, so that three calls are
    separated by one sleep. *)
Lemma sender_sleeps_seconds_not_milliseconds :
  let o := Scenario.opts 10 60 false in
  let h := log (snd (sendApprovedEmails Scenario.reliable o Scenario.three_approved)) in
  let h2 := log (snd (sendApprovedEmails Scenario.second_fails o
                        Scenario.three_approved)) in
  (delay o = 60%Z /\ In (EvSleep 60000) h /\ ~ In (EvSleep (delay o)) h) /\
  (List.length (filter is_dispatch h2) = 3 /\
   filter is_sleep h2 = [EvSleep 60000] /\
   exists front r2 r3 rid,
     h2 = front ++ [EvDispatch r2 (ReplyError "rate limit exceeded");
                    EvProgress 3 3 "2300003" (Some "c@x.edu");
                    EvDispatch r3 (ReplyData rid)]).
Proof.
  cbv zeta. split.
  - split; [reflexivity|]. split.
    + vm_compute. do 6 right. left. reflexivity.
    + vm_compute. intros H.
      repeat (destruct H as [H | H]; [discriminate H|]). exact H.
  - split; [vm_compute; reflexivity|]. split; [vm_compute; reflexivity|].
    eexists (firstn 8 (log (snd (sendApprovedEmails Scenario.second_fails
                                   (Scenario.opts 10 60 false)
                                   Scenario.three_approved)))).
    eexists. eexists. eexists. vm_compute. reflexivity.
Qed.

Lemma sender_sleeps_witness :
  configured (Scenario.opts 10 60 false) Scenario.three_approved /\
  exists res w' first others,
    sendApprovedEmails Scenario.reliable (Scenario.opts 10 60 false)
      Scenario.three_approved = (Ok res, w') /\
    log w' = log Scenario.three_approved ++
             approved_reads (fs Scenario.three_approved) ++ first ++ concat others /\
    first = [EvProgress 1 3 "2300001" (Some "a@x.edu");
             EvDispatch (request_of Scenario.e1 (Some "me@ouro.foundation") None)
               (ReplyData (Some "re_1"));
             EvSleep 60000].
Proof.
  assert (configured (Scenario.opts 10 60 false) Scenario.three_approved) as Hc
      by (right; split; reflexivity).
  split; [exact Hc|].
  destruct (sender_sleeps_delay_seconds_between_deliveries Scenario.reliable
              (Scenario.opts 10 60 false) Scenario.three_approved Hc)
    as [res [w' [chunks [E [Hlog [Hlen [_ [Hturn _]]]]]]]].
  destruct chunks as [|first others]; [discriminate Hlen|].
  exists res, w', first, others. split; [exact E|]. split; [exact Hlog|].
  destruct (Hturn 0 Scenario.e1 first eq_refl eq_refl) as [H _].
  rewrite H. vm_compute. reflexivity.
Defined.

Lemma configuration_witness :
  let w := mkWorld (fs Scenario.three_approved) Scenario.key_missing [] in
  dryRun (Scenario.opts 2 0 false) = false /\
  (JS.truthy (RESEND_API_KEY (env w)) = false \/
   JS.truthy (fromEmail (Scenario.opts 2 0 false)) = false) /\
  exists msg,
    sendApprovedEmails Scenario.reliable (Scenario.opts 2 0 false) w
      = (Throw (Error msg), w) /\
    (msg = "RESEND_API_KEY not set in environment" \/ msg = "fromEmail is required").
Proof.
  cbv zeta. split; [reflexivity|].
  assert (JS.truthy (RESEND_API_KEY
            (env (mkWorld (fs Scenario.three_approved) Scenario.key_missing [])))
          = false \/
          JS.truthy (fromEmail (Scenario.opts 2 0 false)) = false) as H
      by (left; reflexivity).
  split; [exact H|].
  exact (sendApprovedEmails_checks_configuration_first Scenario.reliable
           (Scenario.opts 2 0 false) _ eq_refl H).
Defined.

(** Scenario A of the specification, and keywords that match the title
    in another case. *)
Lemma scenario_A :
  title Scenario.the_award = "X" /\ abstractText Scenario.the_award = "Y" /\
  fst (loadAwards (L := Scenario.ascii) "2023" ["DFT"] Scenario.one_award) = Ok [] /\
  fst (loadAwards (L := Scenario.ascii) "2023" [] Scenario.one_award)
    = Ok [Scenario.the_award] /\
  fst (loadAwards (L := Scenario.ascii) "2023" ["dft"; "x"] Scenario.one_award)
    = Ok [Scenario.the_award] /\
  fst (loadAwards (L := Scenario.ascii) "2023" ["Z y"] Scenario.one_award) = Ok [] /\
  fst (loadAwards (L := Scenario.ascii) "2023" ["x Y"] Scenario.one_award)
    = Ok [Scenario.the_award].
Proof. repeat split; reflexivity. Qed.


(** C10, as stated, fails when a record filed under another name carries
    the name of the unparsable file as its [award_id]: that id is then in
    the sent list, and [markAsSent] deletes the unparsable file. *)
Lemma an_unparsable_file_can_be_listed_and_deleted :
  let run := sendApprovedEmails Scenario.reliable (Scenario.opts 10 0 false)
               Scenario.misfiled_beside_malformed in
  dir_lookup "2300001" (approved (fs Scenario.misfiled_beside_malformed))
    = Some Malformed /\
  parsed (@Malformed email) = None /\
  exists res,
    fst run = Ok res /\
    In "2300001" (map SentEntry.awardId (Results.sent res)) /\
    dir_lookup "2300001" (approved (fs (snd run))) = None.
Proof.
  cbv zeta. split; [reflexivity|]. split; [reflexivity|].
  eexists. split; [vm_compute; reflexivity|].
  split; [left; reflexivity | vm_compute; reflexivity].
Qed.

Lemma unparsable_witness :
  configured (Scenario.opts 10 0 false) Scenario.one_broken /\
  dir_lookup "2300002" (approved (fs Scenario.one_broken)) = Some Malformed /\
  parsed (@Malformed email) = None /\
  well_formed (approved (fs Scenario.one_broken)) = true /\
  exists res w',
    sendApprovedEmails Scenario.reliable (Scenario.opts 10 0 false) Scenario.one_broken
      = (Ok res, w') /\
    ~ In "2300002" (map SentEntry.awardId (Results.sent res)) /\
    ~ In "2300002" (map ErrorEntry.awardId (Results.errors res)) /\
    same_files "2300002" (fs Scenario.one_broken) (fs w').
Proof.
  assert (configured (Scenario.opts 10 0 false) Scenario.one_broken) as Hc
      by (right; split; reflexivity).
  split; [exact Hc|]. split; [reflexivity|]. split; [reflexivity|].
  split; [reflexivity|].
  destruct (unparsable_approved_files_are_passed_over Scenario.reliable
              (Scenario.opts 10 0 false) Scenario.one_broken "2300002" Malformed
              eq_refl eq_refl)
    as [_ [_ [_ [Hwf [_ [_ Hrun]]]]]].
  destruct (Hrun Hc) as [res [w' [evs [E [_ [_ [_ [_ H]]]]]]]].
  exists res, w'. split; [exact E|]. exact (H (Hwf eq_refl)).
Defined.

(** * Further properties of the code *)

(** ** The award loader, as a function of the store *)

Section LoaderRuns.
Context {L : JS.Lowering}.

Lemma loadAwards_loop_run (year : string) (keywords ids : list string) :
  forall (acc : list award) (w : world),
    loadAwards_loop year keywords ids acc w =
      (Ok (acc ++
           flat_map
             (fun id =>
                match dir_read id (year_dir year (awards (fs w))) with
                | Some raw =>
                    let a := normalize id (Some year) raw in
                    if matchesKeywords (searchText a) keywords then [a] else []
                | None => []
                end) ids),
       mkWorld (fs w) (env w) (log w ++ map (EvReadAward year) ids)).
Proof.
  induction ids as [|id ids IH]; intros acc w.
  - simpl. unfold ret. rewrite !app_nil_r. destruct w; reflexivity.
  - cbn [loadAwards_loop]. unfold bind at 1.
    unfold loadAward, bind, emit, get_fs, ret. cbn [fs env log].
    cbn [flat_map map].
    destruct (dir_read id (year_dir year (awards (fs w)))) as [raw|].
    + cbv zeta.
      destruct (matchesKeywords (searchText (normalize id (Some year) raw)) keywords);
        rewrite IH; cbn [fs env log]; rewrite <- !app_assoc; reflexivity.
    + rewrite IH. cbn [fs env log]. rewrite <- !app_assoc. reflexivity.
Qed.

Lemma loadAwards_run (year : string) (keywords : list string) (w : world) :
  loadAwards year keywords w =
    (Ok (loaded year keywords (fs w)),
     mkWorld (fs w) (env w)
       (log w ++ EvListAwards year ::
          map (EvReadAward year) (dir_ids (year_dir year (awards (fs w)))))).
Proof.
  unfold loadAwards, listAwardIds. unfold bind at 1.
  unfold bind, emit, get_fs, ret. cbn [fs env log].
  rewrite loadAwards_loop_run. cbn [fs env log app]. rewrite <- app_assoc.
  reflexivity.
Qed.

Lemma not_yet_processed_spec (s : store) (a : award) :
  negb (set_has (dir_ids (drafts s) ++ dir_ids (approved s) ++
                 dir_ids (sent s) ++ dir_ids (skipped s)) (awardId_of a))
  = not_yet_processed s a.
Proof.
  unfold not_yet_processed.
  destruct (set_has _ (awardId_of a)) eqn:S; simpl.
  - destruct (occurrences (awardId_of a) s) eqn:O; [|reflexivity].
    apply not_processed_occurrences in O. congruence.
  - apply not_processed_occurrences in S. rewrite S. reflexivity.
Qed.

Lemma getUnprocessedAwards_run (year : string) (keywords : list string) (w : world) :
  getUnprocessedAwards year keywords w =
    (Ok (filter (not_yet_processed (fs w)) (loaded year keywords (fs w))),
     mkWorld (fs w) (env w)
       (log w ++
        (EvListAwards year ::
           map (EvReadAward year) (dir_ids (year_dir year (awards (fs w))))) ++
        [EvListIds Drafts; EvListIds Approved; EvListIds Sent; EvListIds Skipped])).
Proof.
  unfold getUnprocessedAwards. unfold bind at 1. rewrite loadAwards_run.
  unfold listIds, bind, emit, get_fs, ret. cbn [fs env log folder_dir].
  f_equal.
  - f_equal. apply filter_ext. intros a. apply not_yet_processed_spec.
  - f_equal. rewrite <- !app_assoc. reflexivity.
Qed.

(** X1.  [getUnprocessedAwards] returns the awards [loadAwards] returns, in
    the same order, less those whose id ([awardNumber], or [_id] when that is
    empty) has a file in any of the four status collections; it changes no
    file. *)
Theorem getUnprocessedAwards_drops_the_processed
    (year : string) (keywords : list string) (w : world) :
  exists found,
    fst (loadAwards year keywords w) = Ok found /\
    fst (getUnprocessedAwards year keywords w)
      = Ok (filter (fun a => (occurrences (awardId_of a) (fs w) =? 0)%nat) found) /\
    fs (snd (getUnprocessedAwards year keywords w)) = fs w.
Proof.
  exists (loaded year keywords (fs w)).
  rewrite loadAwards_run, getUnprocessedAwards_run. repeat split.
Qed.

(** X2.  The loader and the generator agree on what is processed: of the
    awards [loadAwards] returns, [getUnprocessedAwards] keeps exactly those
    for whose id [isAlreadyProcessed] then answers false. *)
Theorem getUnprocessedAwards_agrees_with_isAlreadyProcessed
    (year : string) (keywords : list string) (w : world) :
  exists found unprocessed,
    fst (loadAwards year keywords w) = Ok found /\
    fst (getUnprocessedAwards year keywords w) = Ok unprocessed /\
    forall a,
      In a unprocessed <->
      In a found /\
      fst (isAlreadyProcessed (awardId_of a)
             (snd (getUnprocessedAwards year keywords w))) = Ok false.
Proof.
  exists (loaded year keywords (fs w)),
         (filter (not_yet_processed (fs w)) (loaded year keywords (fs w))).
  rewrite loadAwards_run, getUnprocessedAwards_run.
  split; [reflexivity|]. split; [reflexivity|].
  intros a. rewrite filter_In, isAlreadyProcessed_run. cbn [fst snd fs].
  rewrite <- not_yet_processed_spec.
  destruct (set_has _ (awardId_of a)); simpl; split; intros [H1 H2];
    split; auto; discriminate.
Qed.

Lemma filter_split_length {X : Type} (p : X -> bool) (l : list X) :
  List.length (filter p l) + List.length (filter (fun x => negb (p x)) l)
  = List.length l.
Proof.
  induction l as [|x l IH]; simpl; [reflexivity|].
  destruct (p x); simpl; lia.
Qed.

Lemma filter_length_le' {X : Type} (p : X -> bool) (l : list X) :
  List.length (filter p l) <= List.length l.
Proof.
  induction l as [|x l IH]; simpl; [lia|]. destruct (p x); simpl; lia.
Qed.

Lemma filter_filter_length {X : Type} (p q : X -> bool) (l : list X) :
  List.length (filter p (filter q l)) <= List.length (filter p l).
Proof.
  induction l as [|x l IH]; simpl; [lia|].
  destruct (q x); destruct (p x) eqn:P; simpl; rewrite ?P; simpl; lia.
Qed.

Lemma getScanStats_run (year : string) (keywords : list string) (w : world) :
  exists evs,
    getScanStats year keywords w =
      (let found := loaded year keywords (fs w) in
       let unp := filter (not_yet_processed (fs w)) found in
       Ok {| Scan.total := List.length found;
             Scan.withEmail := List.length (filter hasValidContact found);
             Scan.withoutEmail :=
               List.length (filter (fun a => negb (hasValidContact a)) found);
             Scan.unprocessed := List.length unp;
             Scan.unprocessedWithEmail := List.length (filter hasValidContact unp);
             Scan.readyToGenerate := List.length (filter hasValidContact unp) |},
       mkWorld (fs w) (env w) (log w ++ evs)).
Proof.
  unfold getScanStats. unfold bind at 1. rewrite loadAwards_run.
  unfold bind at 1. rewrite getUnprocessedAwards_run. cbv zeta. unfold ret.
  cbn [fs env log]. eexists. rewrite <- app_assoc. reflexivity.
Qed.

(** X3.  The numbers of [getScanStats] add up: every award has an email or
    has none; the unprocessed are among all; the ones ready to generate are
    the unprocessed with an email, so no more than either.  The scan changes
    no file. *)
Theorem getScanStats_adds_up (year : string) (keywords : list string) (w : world) :
  exists st,
    fst (getScanStats year keywords w) = Ok st /\
    fs (snd (getScanStats year keywords w)) = fs w /\
    (exists found, fst (loadAwards year keywords w) = Ok found /\
                   Scan.total st = List.length found) /\
    Scan.total st = Scan.withEmail st + Scan.withoutEmail st /\
    Scan.unprocessed st <= Scan.total st /\
    Scan.readyToGenerate st = Scan.unprocessedWithEmail st /\
    Scan.readyToGenerate st <= Scan.unprocessed st /\
    Scan.readyToGenerate st <= Scan.withEmail st.
Proof.
  destruct (getScanStats_run year keywords w) as [evs ->]. cbv zeta.
  cbn [fst snd fs]. eexists. split; [reflexivity|]. split; [reflexivity|].
  cbn [Scan.total Scan.withEmail Scan.withoutEmail Scan.unprocessed
       Scan.unprocessedWithEmail Scan.readyToGenerate].
  split; [exists (loaded year keywords (fs w)); rewrite loadAwards_run; split; reflexivity|].
  split; [symmetry; apply filter_split_length|].
  split; [apply filter_length_le'|].
  split; [reflexivity|].
  split; [apply filter_length_le' | apply filter_filter_length].
Qed.

End LoaderRuns.

(** ** The years on disk *)

Lemma insert_sorted_perm (x : string) (l : list string) :
  Permutation (insert_sorted x l) (x :: l).
Proof.
  induction l as [|y t IH]; simpl; [reflexivity|].
  destruct (x <=? y)%string; [reflexivity|].
  apply (perm_trans (perm_skip y IH)). apply perm_swap.
Qed.

Lemma sort_strings_perm (l : list string) : Permutation (sort_strings l) l.
Proof.
  induction l as [|x t IH]; simpl; [constructor|].
  apply (perm_trans (insert_sorted_perm x (sort_strings t))).
  apply perm_skip. exact IH.
Qed.

Lemma string_leb_flip (x y : string) :
  (x <=? y)%string = false -> (y <=? x)%string = true.
Proof.
  intros H. destruct (String.leb_total x y) as [C | C]; [congruence | exact C].
Qed.

Lemma insert_sorted_sorted (x : string) (l : list string) :
  sorted_strings l -> sorted_strings (insert_sorted x l).
Proof.
  unfold sorted_strings. induction l as [|y t IH]; simpl; intros H.
  - repeat constructor.
  - destruct (x <=? y)%string eqn:E.
    + constructor; [exact H | constructor; exact E].
    + apply Sorted_inv in H. destruct H as [Ht Hy].
      constructor; [exact (IH Ht)|].
      destruct t as [|z t']; simpl.
      * constructor. apply string_leb_flip. exact E.
      * destruct (x <=? z)%string.
        -- constructor. apply string_leb_flip. exact E.
        -- constructor. inversion Hy. assumption.
Qed.

Lemma sort_strings_sorted (l : list string) : sorted_strings (sort_strings l).
Proof.
  induction l as [|x t IH]; simpl; [constructor|].
  apply insert_sorted_sorted. exact IH.
Qed.

Lemma is_year_name_length (y : string) :
  is_year_name y = true -> String.length y = 4.
Proof.
  destruct y as [|a [|b [|c [|d [|e y]]]]]; simpl; congruence.
Qed.

(** X4.  [getAvailableYears] lists the sub-directories of [awards/] whose
    name is four digits, each as often as it is there, in ascending order;
    it changes no file. *)
Theorem getAvailableYears_sorted_years (w : world) :
  exists years,
    getAvailableYears w
      = (Ok years, mkWorld (fs w) (env w) (log w ++ [EvListAwards ""])) /\
    sorted_strings years /\
    Permutation years (filter is_year_name (map fst (awards (fs w)))) /\
    forall y, In y years <->
      In y (map fst (awards (fs w))) /\ is_year_name y = true.
Proof.
  exists (sort_strings (filter is_year_name (map fst (awards (fs w))))).
  split; [reflexivity|]. split; [apply sort_strings_sorted|].
  split; [apply sort_strings_perm|].
  intros y. rewrite <- filter_In. split; apply Permutation_in;
    [apply sort_strings_perm | symmetry; apply sort_strings_perm].
Qed.

(** ** Keywords *)

Lemma includes_empty (hay : string) : JS.includes hay "" = true.
Proof. destruct hay; reflexivity. Qed.

Lemma matchesKeywords_by_lowerings {L : JS.Lowering}
    (t1 t2 : string) (k1 k2 : list string) :
  JS.toLowerCase t1 = JS.toLowerCase t2 ->
  (t1 =? "") = (t2 =? "") ->
  map JS.toLowerCase k1 = map JS.toLowerCase k2 ->
  matchesKeywords t1 k1 = matchesKeywords t2 k2.
Proof.
  intros Ht He Hk. rewrite (matchesKeywords_by_lowered_keywords t1 k1 k2 Hk).
  unfold matchesKeywords. destruct k2 as [|k ks]; [reflexivity|].
  rewrite He, Ht. reflexivity.
Qed.

(** X5.  The keyword test ignores case, whatever [toLowerCase] does:
    two texts with the same lower-cased form (both empty or neither), or two
    keyword lists with the same lower-cased forms, get the same answer.  So,
    [toLowerCase] being idempotent and mapping only the empty string to the
    empty string, lower-casing the text and the keywords beforehand changes
    no answer; and a keyword that is the empty string matches every text but
    the empty one. *)
Theorem matchesKeywords_ignores_case {L : JS.Lowering}
    (text : string) (keywords : list string) :
  (forall text' keywords',
     JS.toLowerCase text' = JS.toLowerCase text ->
     (text' =? "") = (text =? "") ->
     map JS.toLowerCase keywords' = map JS.toLowerCase keywords ->
     matchesKeywords text' keywords' = matchesKeywords text keywords) /\
  ((forall s, JS.toLowerCase (JS.toLowerCase s) = JS.toLowerCase s) ->
   (forall s, (JS.toLowerCase s =? "") = (s =? "")) ->
   matchesKeywords (JS.toLowerCase text) (map JS.toLowerCase keywords)
     = matchesKeywords text keywords /\
   ((text =? "") = false -> In "" keywords -> matchesKeywords text keywords = true)).
Proof.
  split; [intros t' k'; apply matchesKeywords_by_lowerings|].
  intros Hidem Hempty. split.
  - apply matchesKeywords_by_lowerings; [apply Hidem | apply Hempty|].
    rewrite map_map. apply map_ext. intros s. apply Hidem.
  - intros Ht Hin. unfold matchesKeywords. destruct keywords as [|k ks]; [reflexivity|].
    rewrite Ht. apply existsb_exists. exists "". split; [exact Hin|].
    assert (JS.toLowerCase "" = "") as -> by (apply String.eqb_eq; apply Hempty).
    apply includes_empty.
Qed.

(** On the ASCII range [toLowerCase] is idempotent and maps only the empty
    string to the empty string. *)
Lemma lower_ascii_idem (c : ascii) :
  JS.lower_ascii (JS.lower_ascii c) = JS.lower_ascii c.
Proof. destruct c as [[] [] [] [] [] [] [] []]; reflexivity. Qed.

Lemma toLowerCaseAscii_idem (s : string) :
  JS.toLowerCaseAscii (JS.toLowerCaseAscii s) = JS.toLowerCaseAscii s.
Proof.
  induction s as [|c s IH]; simpl; [reflexivity|].
  rewrite lower_ascii_idem, IH. reflexivity.
Qed.

Lemma toLowerCaseAscii_empty (s : string) :
  (JS.toLowerCaseAscii s =? "") = (s =? "").
Proof. destruct s; reflexivity. Qed.

(** ** Files *)

Lemma folder_eqb_refl (f : folder) : folder_eqb f f = true.
Proof. destruct f; reflexivity. Qed.

(** X6.  A record written with [writeJson] is what [readJson] then finds
    under the same name, and [listIds] lists the name; every other file of
    the four collections reads as before. *)
Theorem writeJson_then_readJson (f : folder) (id : string) (data : email) (w : world) :
  let w' := snd (writeJson f id data w) in
  fst (writeJson f id data w) = Ok tt /\
  fst (readJson f id w') = Ok (Some data) /\
  (exists ids, fst (listIds f w') = Ok ids /\ In id ids) /\
  (forall g id', g <> f \/ id' <> id ->
     fst (readJson g id' w') = fst (readJson g id' w)).
Proof.
  cbv zeta. unfold writeJson, readJson, listIds, bind, get_fs, put_fs, emit, ret.
  cbn [fst snd fs env log]. split; [reflexivity|].
  rewrite !folder_dir_with. rewrite folder_eqb_refl.
  split; [|split].
  - unfold dir_read. rewrite dir_lookup_write, String.eqb_refl. reflexivity.
  - eexists. split; [reflexivity|]. apply dir_has_In.
    rewrite dir_has_write, String.eqb_refl. reflexivity.
  - intros g id' H. rewrite folder_dir_with.
    destruct (folder_eqb g f) eqn:E; [|reflexivity].
    apply folder_eqb_eq in E. subst g. destruct H as [H | H]; [congruence|].
    unfold dir_read. rewrite dir_lookup_write.
    destruct (id =? id') eqn:E'; [|reflexivity].
    apply String.eqb_eq in E'. congruence.
Qed.

Lemma moveFile_effect (id : string) (a b : folder) (w : world) :
  (dir_lookup id (folder_dir a (fs w)) = None ->
   moveFile id a b w = (Throw (Error "ENOENT: no such file or directory"), w)) /\
  (forall c, dir_lookup id (folder_dir a (fs w)) = Some c -> a <> b ->
     let s' := fs (snd (moveFile id a b w)) in
     fst (moveFile id a b w) = Ok tt /\
     dir_lookup id (folder_dir b s') = Some c /\
     dir_lookup id (folder_dir a s') = None /\
     forall g id', id' <> id \/ (g <> a /\ g <> b) ->
       dir_lookup id' (folder_dir g s') = dir_lookup id' (folder_dir g (fs w))).
Proof.
  split.
  - intros H. rewrite moveFile_run, H. reflexivity.
  - intros c H Hab. cbv zeta. rewrite moveFile_run, H.
    assert (folder_eqb a b = false) as Eab.
    { destruct (folder_eqb a b) eqn:E; [|reflexivity].
      apply folder_eqb_eq in E. contradiction. }
    assert (folder_eqb b a = false) as Eba by (destruct a, b; simpl in *; congruence).
    rewrite Eab. cbv zeta. cbn [fst snd fs].
    split; [reflexivity|]. rewrite !folder_dir_with.
    rewrite Eba, Eab, !folder_eqb_refl.
    split; [rewrite dir_lookup_write, String.eqb_refl; reflexivity|].
    split; [rewrite dir_lookup_unlink, String.eqb_refl; reflexivity|].
    intros g id' Hc. rewrite !folder_dir_with.
    destruct (folder_eqb g a) eqn:Ega.
    + apply folder_eqb_eq in Ega. subst g. rewrite dir_lookup_unlink.
      destruct (id =? id') eqn:E; [|reflexivity].
      apply String.eqb_eq in E. destruct Hc as [Hc | [Hc _]]; congruence.
    + destruct (folder_eqb g b) eqn:Egb; [|reflexivity].
      apply folder_eqb_eq in Egb. subst g. rewrite dir_lookup_write.
      destruct (id =? id') eqn:E; [|reflexivity].
      apply String.eqb_eq in E. destruct Hc as [Hc | [_ Hc]]; congruence.
Qed.

(** X7.  [moveFile] throws, changing nothing, when the source file is
    missing.  Otherwise, between two different folders, the file (whatever it
    holds) ends up in the destination under the same name, replacing what
    was there, and is gone from the source; every other file is as it was. *)
Theorem moveFile_renames (id : string) (a b : folder) (w : world) :
  (dir_lookup id (folder_dir a (fs w)) = None ->
   moveFile id a b w = (Throw (Error "ENOENT: no such file or directory"), w)) /\
  (forall c, dir_lookup id (folder_dir a (fs w)) = Some c -> a <> b ->
     let s' := fs (snd (moveFile id a b w)) in
     fst (moveFile id a b w) = Ok tt /\
     dir_lookup id (folder_dir b s') = Some c /\
     dir_lookup id (folder_dir a s') = None /\
     forall g id', id' <> id \/ (g <> a /\ g <> b) ->
       dir_lookup id' (folder_dir g s') = dir_lookup id' (folder_dir g (fs w))).
Proof. exact (moveFile_effect id a b w). Qed.

(** ** The review session *)

Lemma refresh_in_bounds (st : review_state) : in_bounds (refresh st).
Proof.
  unfold in_bounds, refresh. destruct (emails st) as [|x l] eqn:E.
  - simpl. discriminate.
  - destruct (List.length (x :: l) <=? currentIndex st)%nat eqn:L.
    + cbn [running currentIndex emails]. intros _. simpl. lia.
    + rewrite E. intros _. apply Nat.leb_gt in L. exact L.
Qed.

Lemma refresh_folder (st : review_state) : rv_folder (refresh st) = rv_folder st.
Proof.
  unfold refresh. destruct (emails st); [reflexivity|].
  destruct (_ <=? _)%nat; reflexivity.
Qed.

Lemma refresh_emails (st : review_state) : emails (refresh st) = emails st.
Proof.
  unfold refresh. destruct (emails st) eqn:E; [simpl; congruence|].
  destruct (_ <=? _)%nat; simpl; congruence.
Qed.

Lemma refresh_stops (st : review_state) :
  running st = true ->
  (running (refresh st) = false <-> emails (refresh st) = []).
Proof.
  intros R. rewrite refresh_emails. unfold refresh.
  destruct (emails st) as [|x l] eqn:E.
  - simpl. split; reflexivity.
  - destruct (_ <=? _)%nat; cbn [running]; rewrite R; split; discriminate.
Qed.

Lemma decide_run (dest : folder) (st : review_state) (w : world) :
  decide dest st w =
    match nth_error (emails st) (currentIndex st) with
    | None => (Ok st, w)
    | Some (id, _) =>
        match dir_lookup id (drafts (fs w)) with
        | None => (Ok st, w)
        | Some c =>
            (Ok (refresh (mkReview (rv_folder st)
                            (splice1 (currentIndex st) (emails st))
                            (currentIndex st) (running st))),
             snd (moveFile id Drafts dest w))
        end
    end.
Proof.
  unfold decide. destruct (nth_error (emails st) (currentIndex st)) as [[id e]|];
    [|reflexivity].
  unfold try_catch, bind. rewrite moveFile_run. cbn [folder_dir].
  destruct (dir_lookup id (drafts (fs w))); [|reflexivity].
  destruct (folder_eqb Drafts dest); reflexivity.
Qed.

Lemma handleKeypress_in_bounds
    (str : string) (st : review_state) (w : world) :
  exists st',
    fst (handleKeypress str st w) = Ok st' /\
    rv_folder st' = rv_folder st /\
    (in_bounds st -> in_bounds st') /\
    (running st = false -> handleKeypress str st w = (Ok st, w)).
Proof.
  unfold handleKeypress. destruct (running st) eqn:R; cbn [negb].
  2: { exists st. repeat split; auto. }
  assert (forall dest, exists st',
            fst (decide dest st w) = Ok st' /\ rv_folder st' = rv_folder st /\
            (in_bounds st -> in_bounds st') /\
            (true = false -> decide dest st w = (Ok st, w))) as Hdec.
  { intros dest. rewrite decide_run.
    destruct (nth_error (emails st) (currentIndex st)) as [[id e]|];
      [|exists st; repeat split; auto; discriminate].
    destruct (dir_lookup id (drafts (fs w)));
      [|exists st; repeat split; auto; discriminate].
    eexists. split; [reflexivity|]. split; [rewrite refresh_folder; reflexivity|].
    split; [intros _; apply refresh_in_bounds | discriminate]. }
  destruct (str =? "q").
  { eexists. split; [reflexivity|]. split; [reflexivity|].
    split; [intros _; unfold in_bounds; simpl; discriminate | discriminate]. }
  destruct ((str =? "l") || (str =? "j")).
  { eexists. split; [reflexivity|]. split; [rewrite refresh_folder; reflexivity|].
    split; [intros _; apply refresh_in_bounds | discriminate]. }
  destruct ((str =? "h") || (str =? "k")).
  { eexists. split; [reflexivity|]. split; [rewrite refresh_folder; reflexivity|].
    split; [intros _; apply refresh_in_bounds | discriminate]. }
  destruct ((str =? "a") && folder_eqb (rv_folder st) Drafts); [apply Hdec|].
  destruct ((str =? "s") && folder_eqb (rv_folder st) Drafts); [apply Hdec|].
  exists st. repeat split; auto; discriminate.
Qed.

Lemma keeps_refl (st : review_state) : keeps st st.
Proof. split; [reflexivity | auto]. Qed.

Lemma keeps_trans (a b c : review_state) : keeps a b -> keeps b c -> keeps a c.
Proof. intros [F1 B1] [F2 B2]. split; [congruence | auto]. Qed.

Lemma keeps_move_right (st : review_state) : keeps st (move_right st).
Proof.
  unfold move_right. split; [rewrite refresh_folder; reflexivity|].
  intros _. apply refresh_in_bounds.
Qed.

Lemma keeps_move_left (st : review_state) : keeps st (move_left st).
Proof.
  unfold move_left. split; [rewrite refresh_folder; reflexivity|].
  intros _. apply refresh_in_bounds.
Qed.

Lemma keeps_if (c : bool) (f : review_state -> review_state) (a b : review_state) :
  (forall s, keeps s (f s)) -> keeps a b -> keeps a (if c then f b else b).
Proof.
  intros Hf H. destruct c; [|exact H]. exact (keeps_trans _ _ _ H (Hf b)).
Qed.

Lemma decide_keeps (dest : folder) (st : review_state) (w : world) :
  exists st', fst (decide dest st w) = Ok st' /\ keeps st st'.
Proof.
  rewrite decide_run.
  destruct (nth_error (emails st) (currentIndex st)) as [[id e]|];
    [|exists st; split; [reflexivity | apply keeps_refl]].
  destruct (dir_lookup id (drafts (fs w)));
    [|exists st; split; [reflexivity | apply keeps_refl]].
  eexists. split; [reflexivity|]. split; [rewrite refresh_folder; reflexivity|].
  intros _. apply refresh_in_bounds.
Qed.

Lemma handleKeypress_with_key_keeps (str : string) (key : Key) (st : review_state)
    (w : world) :
  exists st', fst (handleKeypress_with_key str key st w) = Ok st' /\ keeps st st'.
Proof.
  unfold handleKeypress_with_key.
  destruct (negb (running st)); [exists st; split; [reflexivity | apply keeps_refl]|].
  destruct (name_is key "q" || (key_ctrl key && name_is key "c")).
  { eexists. split; [reflexivity|]. split; [reflexivity|].
    intros _. unfold in_bounds. simpl. discriminate. }
  cbv zeta.
  match goal with
  | |- context [decide Approved ?s] => set (st4 := s)
  end.
  assert (keeps st st4) as K4.
  { unfold st4.
    apply keeps_if; [apply keeps_move_left|].
    apply keeps_if; [apply keeps_move_right|].
    apply keeps_if; [apply keeps_move_left|].
    apply keeps_if; [apply keeps_move_right|].
    apply keeps_refl. }
  clearbody st4. unfold bind.
  assert (exists st5 w5,
            (if (str =? "a") && folder_eqb (rv_folder st4) Drafts
             then decide Approved st4 else ret st4) w = (Ok st5, w5) /\
            keeps st st5) as [st5 [w5 [E5 K5]]].
  { destruct ((str =? "a") && folder_eqb (rv_folder st4) Drafts).
    - destruct (decide_keeps Approved st4 w) as [st5 [E K]].
      destruct (decide Approved st4 w) as [[s5|err] w5]; [|discriminate E].
      simpl in E. injection E as ->. exists st5, w5.
      split; [reflexivity | exact (keeps_trans _ _ _ K4 K)].
    - exists st4, w. split; [reflexivity | exact K4]. }
  rewrite E5.
  destruct ((str =? "s") && folder_eqb (rv_folder st5) Drafts).
  - destruct (decide_keeps Skipped st5 w5) as [st6 [E K]].
    exists st6. split; [exact E | exact (keeps_trans _ _ _ K5 K)].
  - exists st5. split; [reflexivity | exact K5].
Qed.

Lemma plain_key_is_no_arrow (str : string) :
  plain_key str = true ->
  (str =? "right") = false /\ (str =? "left") = false /\
  (str =? "down") = false /\ (str =? "up") = false.
Proof.
  destruct str as [|c [|c' s]]; try discriminate. intros _.
  repeat split; simpl; destruct (Ascii.eqb c _); reflexivity.
Qed.

Lemma bind_ret_r {A : Type} (c : M A) (w : world) : bind c ret w = c w.
Proof. unfold bind, ret. destruct (c w) as [[a|err] w1]; reflexivity. Qed.

(** On a plain key the handler is a function of the character. *)
Lemma handleKeypress_on_plain_keys (str : string) (st : review_state) (w : world) :
  plain_key str = true ->
  handleKeypress_with_key str (plain str) st w = handleKeypress str st w.
Proof.
  intros P. destruct (plain_key_is_no_arrow str P) as [R [L [D U]]].
  unfold handleKeypress_with_key, handleKeypress, name_is, plain.
  cbn [key_name key_ctrl andb]. rewrite R, L, D, U, !orb_false_r. cbn [orb].
  destruct (negb (running st)); [reflexivity|].
  destruct (String.eqb_spec str "q") as [->|_]; [reflexivity|].
  destruct (String.eqb_spec str "l") as [->|_]; [reflexivity|].
  destruct (String.eqb_spec str "j") as [->|_]; [reflexivity|].
  destruct (String.eqb_spec str "h") as [->|_]; [reflexivity|].
  destruct (String.eqb_spec str "k") as [->|_]; [reflexivity|].
  cbn [orb]. cbv zeta.
  destruct (String.eqb_spec str "a") as [->|_].
  - cbn [andb String.eqb Ascii.eqb Bool.eqb].
    destruct (folder_eqb (rv_folder st) Drafts); [apply bind_ret_r | reflexivity].
  - reflexivity.
Qed.

(** X8.  A session that has stopped ignores every key press.  In a running
    session, whatever key is pressed other than [e] (a letter, a digit, an
    arrow, a shifted or a control key), the handler returns normally with a
    session for the same folder, and if the index pointed at one of the
    session's emails before, it does so after.  On a plain key the handler
    depends on the character alone. *)
Theorem handleKeypress_keeps_the_index_in_bounds
    (str : string) (key : Key) (st : review_state) (w : world) :
  (running st = false -> handleKeypress_with_key str key st w = (Ok st, w)) /\
  (str <> "e" ->
   exists st',
     fst (handleKeypress_with_key str key st w) = Ok st' /\
     rv_folder st' = rv_folder st /\
     (in_bounds st -> in_bounds st')) /\
  (plain_key str = true ->
   handleKeypress_with_key str (plain str) st w = handleKeypress str st w).
Proof.
  split; [intros R; unfold handleKeypress_with_key; rewrite R; reflexivity|].
  split; [|apply handleKeypress_on_plain_keys].
  intros _. destruct (handleKeypress_with_key_keeps str key st w) as [st' [E [F B]]].
  exists st'. split; [exact E|]. split; [exact F | exact B].
Qed.

Lemma splice1_length {X : Type} (i : nat) (l : list X) (x : X) :
  nth_error l i = Some x -> List.length (splice1 i l) + 1 = List.length l.
Proof.
  revert i. induction l as [|y l IH]; intros [|i] H; simpl in *; try discriminate.
  - lia.
  - rewrite <- (IH i H). lia.
Qed.

(** X9.  In a running session on [drafts], the approve key (and likewise
    the skip key) moves the file of the current email to [approved]
    ([skipped]) and drops the email from the session, which stops when that
    was its last one.  If the file is no longer in [drafts] the key changes
    neither the session nor the store. *)
Theorem approve_and_skip_move_the_current_draft
    (str : string) (dest : folder) (st : review_state) (w : world)
    (id : string) (e : email) :
  (str = "a" /\ dest = Approved) \/ (str = "s" /\ dest = Skipped) ->
  running st = true ->
  rv_folder st = Drafts ->
  nth_error (emails st) (currentIndex st) = Some (id, e) ->
  (dir_lookup id (drafts (fs w)) = None -> handleKeypress str st w = (Ok st, w)) /\
  (forall c, dir_lookup id (drafts (fs w)) = Some c ->
     exists st',
       fst (handleKeypress str st w) = Ok st' /\
       emails st' = splice1 (currentIndex st) (emails st) /\
       List.length (emails st') + 1 = List.length (emails st) /\
       (running st' = false <-> emails st' = []) /\
       dir_lookup id (folder_dir dest (fs (snd (handleKeypress str st w)))) = Some c /\
       dir_lookup id (drafts (fs (snd (handleKeypress str st w)))) = None).
Proof.
  intros Hkey Hrun Hf Hcur.
  assert (handleKeypress str st w = decide dest st w) as ->.
  { unfold handleKeypress. rewrite Hrun, Hf. cbn [negb folder_eqb].
    destruct Hkey as [[-> ->] | [-> ->]]; reflexivity. }
  assert (Drafts <> dest) as Hd by (destruct Hkey as [[_ ->] | [_ ->]]; discriminate).
  rewrite decide_run, Hcur. split.
  - intros ->. reflexivity.
  - intros c Hc. rewrite Hc. cbn [fst snd].
    destruct (proj2 (moveFile_effect id Drafts dest w) c Hc Hd) as [_ [Hb [Ha _]]].
    eexists. split; [reflexivity|].
    rewrite refresh_emails. cbn [emails].
    split; [reflexivity|]. split; [exact (splice1_length _ _ _ Hcur)|].
    split; [|split; [exact Hb | exact Ha]].
    pose proof (refresh_stops (mkReview (rv_folder st)
                  (splice1 (currentIndex st) (emails st)) (currentIndex st) (running st))
                  Hrun) as Hs.
    rewrite refresh_emails in Hs. exact Hs.
Qed.

Lemma handleKeypress_world (str : string) (st : review_state) (w : world) :
  rv_folder st <> Drafts \/ (str <> "a" /\ str <> "s") ->
  snd (handleKeypress str st w) = w.
Proof.
  intros H. unfold handleKeypress.
  destruct (negb (running st)); [reflexivity|].
  destruct (str =? "q"); [reflexivity|].
  destruct ((str =? "l") || (str =? "j")); [reflexivity|].
  destruct ((str =? "h") || (str =? "k")); [reflexivity|].
  assert ((str =? "a") && folder_eqb (rv_folder st) Drafts = false) as ->.
  { apply andb_false_iff. destruct H as [H | [H _]].
    - right. destruct (folder_eqb (rv_folder st) Drafts) eqn:E; [|reflexivity].
      apply folder_eqb_eq in E. contradiction.
    - left. apply String.eqb_neq. exact H. }
  assert ((str =? "s") && folder_eqb (rv_folder st) Drafts = false) as ->.
  { apply andb_false_iff. destruct H as [H | [_ H]].
    - right. destruct (folder_eqb (rv_folder st) Drafts) eqn:E; [|reflexivity].
      apply folder_eqb_eq in E. contradiction.
    - left. apply String.eqb_neq. exact H. }
  reflexivity.
Qed.

Lemma handleKeypress_with_key_world (str : string) (key : Key) (st : review_state)
    (w : world) :
  rv_folder st <> Drafts \/ (str <> "a" /\ str <> "s") ->
  snd (handleKeypress_with_key str key st w) = w.
Proof.
  intros H. unfold handleKeypress_with_key.
  destruct (negb (running st)); [reflexivity|].
  destruct (name_is key "q" || (key_ctrl key && name_is key "c")); [reflexivity|].
  cbv zeta.
  match goal with
  | |- context [decide Approved ?s] => set (st4 := s)
  end.
  assert (rv_folder st4 = rv_folder st) as F4.
  { unfold st4.
    repeat match goal with
           | |- context [if ?c then _ else _] => destruct c
           end;
      unfold move_left, move_right; rewrite ?refresh_folder; reflexivity. }
  clearbody st4.
  assert (forall c, (str =? c) && folder_eqb (rv_folder st) Drafts = false \/
                    (c <> "a" /\ c <> "s")) as Hoff.
  { intros c. destruct H as [H | [Ha Hs]].
    - left. apply andb_false_iff. right.
      destruct (folder_eqb (rv_folder st) Drafts) eqn:E; [|reflexivity].
      apply folder_eqb_eq in E. contradiction.
    - destruct (String.eqb_spec str c) as [<-|N]; [right; split; assumption|].
      left. reflexivity. }
  unfold bind. rewrite F4.
  destruct (Hoff "a") as [-> | [C _]]; [|contradiction].
  cbn [ret]. rewrite F4.
  destruct (Hoff "s") as [-> | [_ C]]; [|contradiction].
  reflexivity.
Qed.

(** X10.  Of the key presses other than [e], only the approve and skip keys
    of a session on [drafts] touch the world: every other one (a letter, a
    digit, an arrow, a shifted or a control key), and every one in a session
    on another folder, leaves store, environment and history as they were. *)
Theorem other_keys_change_nothing
    (str : string) (key : Key) (st : review_state) (w : world) :
  str <> "e" ->
  rv_folder st <> Drafts \/ (str <> "a" /\ str <> "s") ->
  snd (handleKeypress_with_key str key st w) = w.
Proof. intros _. apply handleKeypress_with_key_world. Qed.

Lemma mapM_load_entry (f : folder) (ids : list string) :
  forall w,
    mapM (load_entry f) ids w =
      (Ok (map (fun id => (id, dir_read id (folder_dir f (fs w)))) ids),
       mkWorld (fs w) (env w) (log w ++ map (EvReadJson f) ids)).
Proof.
  induction ids as [|id ids IH]; intros w.
  - simpl. unfold ret. f_equal. apply world_eta.
  - simpl. unfold bind at 1. unfold load_entry, readJson, bind, emit, get_fs, ret at 1.
    simpl. unfold bind. rewrite IH. unfold ret. simpl. rewrite <- app_assoc. reflexivity.
Qed.

Lemma valid_entries_records (d : dir email) (ids : list string) :
  map snd (valid_entries (map (fun id => (id, dir_read id d)) ids))
  = filter_Boolean (map (fun id => dir_read id d) ids).
Proof.
  induction ids as [|id ids IH]; simpl; [reflexivity|].
  destruct (dir_read id d); simpl; rewrite IH; reflexivity.
Qed.

Lemma valid_entries_In (d : dir email) (ids : list string) (id : string) (e : email) :
  In (id, e) (valid_entries (map (fun i => (i, dir_read i d)) ids)) ->
  In id ids /\ dir_read id d = Some e.
Proof.
  induction ids as [|i ids IH]; simpl; [contradiction|].
  destruct (dir_read i d) as [x|] eqn:R.
  - intros [[= -> ->] | H]; [auto | destruct (IH H); auto].
  - intros H. destruct (IH H); auto.
Qed.

Lemma startReview_run (f : folder) (w : world) :
  exists evs,
    startReview f w =
      (Ok (let loaded := valid_entries
                           (map (fun id => (id, dir_read id (folder_dir f (fs w))))
                                (dir_ids (folder_dir f (fs w)))) in
           match loaded with
           | [] => None
           | _ => Some (mkReview f loaded 0 true)
           end),
       mkWorld (fs w) (env w) (log w ++ evs)).
Proof.
  unfold startReview, ensureDirs, listIds.
  unfold bind at 1. unfold ret at 1. unfold bind at 1.
  unfold bind at 1. unfold emit at 1. unfold bind at 1. unfold get_fs at 1.
  unfold ret at 1. cbn [fs env log].
  destruct (dir_ids (folder_dir f (fs w))) as [|i ids] eqn:E.
  - simpl. unfold ret. eexists. reflexivity.
  - cbn [List.length Nat.eqb]. unfold bind. rewrite mapM_load_entry. cbn [fs env log].
    cbv zeta.
    destruct (valid_entries (map (fun id => (id, dir_read id (folder_dir f (fs w))))
                               (i :: ids))) as [|x l] eqn:V.
    + simpl. unfold ret. eexists. rewrite <- app_assoc. reflexivity.
    + cbn [List.length Nat.eqb]. unfold ret, refresh. cbn [emails List.length Nat.leb].
      eexists. rewrite <- app_assoc. reflexivity.
Qed.

(** X11.  [startReview] changes no file and never throws.  It gives no
    session exactly when no file of the folder parses; otherwise the session
    holds the records that parse, in listing order, each under its file's
    name, with the first one current. *)
Theorem startReview_lists_the_readable_files (f : folder) (w : world) :
  fs (snd (startReview f w)) = fs w /\
  match fst (startReview f w) with
  | Ok None => records (folder_dir f (fs w)) = []
  | Ok (Some st) =>
      rv_folder st = f /\
      map snd (emails st) = records (folder_dir f (fs w)) /\
      emails st <> [] /\
      currentIndex st = 0 /\ running st = true /\
      forall id e, In (id, e) (emails st) ->
        In id (dir_ids (folder_dir f (fs w))) /\
        dir_read id (folder_dir f (fs w)) = Some e
  | Throw _ => False
  end.
Proof.
  destruct (startReview_run f w) as [evs ->]. cbv zeta. cbn [fst snd fs].
  split; [reflexivity|].
  pose proof (valid_entries_records (folder_dir f (fs w)) (dir_ids (folder_dir f (fs w))))
    as Hr.
  pose proof (valid_entries_In (folder_dir f (fs w)) (dir_ids (folder_dir f (fs w))))
    as Hin.
  fold (records (folder_dir f (fs w))) in Hr.
  destruct (valid_entries _) as [|x l].
  - simpl in Hr. symmetry. exact Hr.
  - cbn [rv_folder emails currentIndex running].
    split; [reflexivity|]. split; [exact Hr|]. split; [discriminate|].
    split; [reflexivity|]. split; [reflexivity|]. exact Hin.
Qed.

(** ** The generator's batch *)

Lemma list_set_replace {X : Type} (t : list X) (k : nat) (a b : X) :
  nth_error t k = Some b -> Permutation (b :: list_set k a t) (a :: t).
Proof.
  revert k. induction t as [|x t IH]; intros [|k] H; simpl in *; try discriminate.
  - injection H as ->. apply perm_swap.
  - apply (perm_trans (perm_swap x b (list_set k a t))).
    apply (perm_trans (perm_skip x (IH k H))). apply perm_swap.
Qed.

Lemma swap_perm {X : Type} (i j : nat) (l : list X) : Permutation (swap i j l) l.
Proof.
  unfold swap.
  destruct (nth_error l i) as [a|] eqn:Hi; [|reflexivity].
  destruct (nth_error l j) as [b|] eqn:Hj; [|reflexivity].
  revert i j Hi Hj. induction l as [|x l IH]; intros [|i] [|j] Hi Hj;
    simpl in *; try discriminate.
  - injection Hi as ->. injection Hj as ->. reflexivity.
  - injection Hi as ->. exact (list_set_replace l j a b Hj).
  - injection Hj as ->. exact (list_set_replace l i b a Hi).
  - apply perm_skip. exact (IH i j Hi Hj).
Qed.

Lemma slice0_length {X : Type} (l : list X) (e : Z) :
  Z.of_nat (List.length (JS.slice0 l e)) =
  if (e <? 0)%Z then Z.max (Z.of_nat (List.length l) + e) 0
  else Z.min e (Z.of_nat (List.length l)).
Proof.
  unfold JS.slice0. rewrite length_firstn.
  destruct (e <? 0)%Z eqn:E; [apply Z.ltb_lt in E | apply Z.ltb_ge in E]; lia.
Qed.

Lemma slice0_length_same {X Y : Type} (l : list X) (l' : list Y) (e : Z) :
  List.length l = List.length l' ->
  List.length (JS.slice0 l e) = List.length (JS.slice0 l' e).
Proof.
  intros H. apply Nat2Z.inj. rewrite !slice0_length, H. reflexivity.
Qed.

Lemma slice0_In {X : Type} (l : list X) (e : Z) (x : X) :
  In x (JS.slice0 l e) -> In x l.
Proof. unfold JS.slice0. apply firstn_In. Qed.

Section More.
Variable out : outside.
Variable buildPrompt : award -> Style.guide -> string.
Variable finishBody : string -> string -> string.

Lemma shuffle_from_run {X : Type} (i : nat) :
  forall (l : list X) (w : world),
  exists l' evs,
    shuffle_from out i l w = (Ok l', mkWorld (fs w) (env w) (log w ++ evs)) /\
    Permutation l' l /\
    List.length evs = i /\
    forall ev, In ev evs -> exists r, ev = EvRandom r.
Proof.
  induction i as [|i IH]; intros l w.
  - exists l, []. simpl. unfold ret. split; [f_equal; apply world_eta|].
    split; [reflexivity|]. split; [reflexivity | intros ev []].
  - cbn [shuffle_from]. unfold bind at 1. unfold random, bind, get_log, emit, ret.
    cbn [fs env log]. cbv zeta.
    set (r := Math_random out (log w)).
    destruct (IH (swap (S i) (floor_scale r (S i + 1)) l)
                (mkWorld (fs w) (env w) (log w ++ [EvRandom r])))
      as [l' [evs [E [Hp [Hl Hev]]]]].
    exists l', (EvRandom r :: evs). rewrite E. cbn [fs env log].
    split; [rewrite <- app_assoc; reflexivity|].
    split; [exact (perm_trans Hp (swap_perm _ _ _))|].
    split; [simpl; congruence|].
    intros ev [<- | H]; [exists r; reflexivity | exact (Hev ev H)].
Qed.

Lemma shuffleArray_run {X : Type} (arr : list X) (w : world) :
  exists shuffled evs,
    shuffleArray out arr w = (Ok shuffled, mkWorld (fs w) (env w) (log w ++ evs)) /\
    Permutation shuffled arr /\
    List.length evs = List.length arr - 1 /\
    forall ev, In ev evs -> exists r, ev = EvRandom r.
Proof. unfold shuffleArray. apply shuffle_from_run. Qed.

(** X12.  [shuffleArray] returns a rearrangement of the array it is given,
    whatever [Math.random] returns: the same elements, each as often.  It
    draws one random number less than the array has elements and touches no
    file. *)
Theorem shuffleArray_permutes {X : Type} (arr : list X) (w : world) :
  exists shuffled evs,
    shuffleArray out arr w = (Ok shuffled, mkWorld (fs w) (env w) (log w ++ evs)) /\
    Permutation shuffled arr /\
    List.length evs = List.length arr - 1 /\
    forall ev, In ev evs -> exists r, ev = EvRandom r.
Proof. exact (shuffleArray_run arr w). Qed.

Lemma generateEmail_events (a : award) (senderName : option string) :
  quiet (generator_event buildPrompt a)
    (generateEmail out buildPrompt finishBody a senderName).
Proof.
  unfold generateEmail. destruct (hasValidContact a) eqn:V; cbn [negb];
    [|apply quiet_throw].
  unfold isAlreadyProcessed, listIds, selectVariants, loadAllVariants,
    randomSelect, buildStyleGuide, variant_ids_of, undefined_property, now.
  repeat first [ quiet_step
               | apply random_quiet; intros; exact I
               | progress cbv zeta
               | solve [simpl; split; [exact V | eexists; reflexivity]] ].
Qed.

Lemma generateEmail_drafted_from (a : award) (senderName : option string) :
  ensures (drafted_from a) (generateEmail out buildPrompt finishBody a senderName).
Proof.
  unfold generateEmail.
  repeat first [ ensures_step | progress cbv zeta ].
  repeat split.
Qed.


Lemma calls_of_quiet {A : Type} (c : M A) :
  quiet (fun ev => is_model_call ev = false) c -> calls_at_most 0 c.
Proof.
  intros H w. destruct (H w) as [evs [E F]]. exists evs. split; [exact E|].
  clear E. induction F as [|ev evs Hev _ IH]; simpl; [lia|]. rewrite Hev. exact IH.
Qed.

Lemma calls_weaken {A : Type} (n m : nat) (c : M A) :
  n <= m -> calls_at_most n c -> calls_at_most m c.
Proof.
  intros L H w. destruct (H w) as [evs [E F]]. exists evs. split; [exact E | lia].
Qed.

Lemma calls_bind {A B : Type} (n m : nat) (c : M A) (k : A -> M B) :
  calls_at_most n c -> (forall a, calls_at_most m (k a)) ->
  calls_at_most (n + m) (bind c k).
Proof.
  intros Hc Hk w. unfold bind. destruct (Hc w) as [evs [E F]].
  destruct (c w) as [[a|err] w1]; simpl in E; subst w1.
  - destruct (Hk a (mkWorld (fs w) (env w) (log w ++ evs))) as [evs' [E' F']].
    simpl in E'. exists (evs ++ evs'). rewrite E', app_assoc.
    split; [reflexivity|]. rewrite filter_app, length_app. lia.
  - exists evs. split; [reflexivity | lia].
Qed.

Lemma generateEmail_one_call (a : award) (senderName : option string) :
  calls_at_most 1 (generateEmail out buildPrompt finishBody a senderName).
Proof.
  assert (forall r, is_model_call (EvRandom r) = false) as Hr by reflexivity.
  unfold generateEmail. destruct (negb (hasValidContact a)).
  { apply (calls_weaken 0); [lia|]. apply calls_of_quiet, quiet_throw. }
  cbv zeta. apply (calls_bind 0 1).
  { apply calls_of_quiet. unfold isAlreadyProcessed, listIds. repeat quiet_step. }
  intros processed. destruct processed.
  { apply (calls_weaken 0); [lia|]. apply calls_of_quiet, quiet_throw. }
  apply (calls_bind 0 1).
  { apply calls_of_quiet. unfold selectVariants, loadAllVariants, randomSelect.
    repeat first [ quiet_step | apply random_quiet; exact Hr | progress cbv zeta ]. }
  intros v. apply (calls_bind 0 1).
  { apply calls_of_quiet. unfold buildStyleGuide, undefined_property.
    repeat quiet_step. }
  intros styleGuide. apply (calls_bind 0 1).
  { apply calls_of_quiet, quiet_get_log. }
  intros h. apply (calls_bind 1 0).
  { intros w. exists [EvModelCall (buildPrompt a styleGuide)
                        (messages_create out h (buildPrompt a styleGuide))].
    split; [reflexivity | simpl; lia]. }
  intros []. apply calls_of_quiet.
  unfold variant_ids_of, undefined_property, now.
  repeat first [ quiet_step | progress cbv zeta ].
Qed.

Lemma only_adds_refl (s : store) : only_adds_drafts s s.
Proof. repeat split; auto. Qed.

Lemma only_adds_trans (s1 s2 s3 : store) :
  only_adds_drafts s1 s2 -> only_adds_drafts s2 s3 -> only_adds_drafts s1 s3.
Proof.
  intros [A1 [B1 [C1 [D1 [E1 F1]]]]] [A2 [B2 [C2 [D2 [E2 F2]]]]].
  repeat split; try congruence. intros id c H. apply F2, F1, H.
Qed.

Lemma occurrences_0_lookup (id : string) (s : store) :
  occurrences id s = 0 -> dir_lookup id (drafts s) = None.
Proof.
  unfold occurrences, appears. cbn [folder_dir]. rewrite (dir_has_lookup id (drafts s)).
  destruct (dir_lookup id (drafts s)); [simpl; lia | reflexivity].
Qed.

Lemma only_adds_write (id : string) (f : file email) (s : store) :
  occurrences id s = 0 ->
  only_adds_drafts s (with_folder Drafts (dir_write id f (drafts s)) s).
Proof.
  intros H. apply occurrences_0_lookup in H.
  unfold only_adds_drafts, with_folder.
  cbn [approved sent skipped awards variants_json drafts]. repeat split.
  intros id' c Hc. rewrite dir_lookup_write.
  destruct (id =? id') eqn:E; [|exact Hc].
  apply String.eqb_eq in E. subst id'. congruence.
Qed.

Lemma only_adds_occurrences (id : string) (s s' : store) :
  only_adds_drafts s s' -> occurrences id s' = 0 -> occurrences id s = 0.
Proof.
  intros [A [B [C [_ [_ F]]]]]. unfold occurrences, appears. cbn [folder_dir].
  rewrite A, B, C, (dir_has_lookup id (drafts s)), (dir_has_lookup id (drafts s')).
  destruct (dir_lookup id (drafts s)) as [c|] eqn:L; [|simpl; lia].
  rewrite (F id c L). simpl. lia.
Qed.

Lemma generate_one_spec (progress : bool) (total i : nat) (a : award)
    (senderName : option string) (res : Generated.results) (w : world) :
  exists res' w' evs,
    generate_one out buildPrompt finishBody progress total i a senderName res w
      = (Ok res', w') /\
    env w' = env w /\ log w' = log w ++ evs /\
    Forall (generator_event buildPrompt a) evs /\
    List.length (filter is_model_call evs) <= 1 /\
    ((exists msg,
        res' = Generated.mkResults (Generated.generated res)
                 (Generated.errors res ++ [(awardId_of a, msg)]) /\
        fs w' = fs w) \/
     (exists e,
        res' = Generated.mkResults
                 (Generated.generated res ++ [(awardId_of a, draft_path a)])
                 (Generated.errors res) /\
        hasValidContact a = true /\
        occurrences (awardId_of a) (fs w) = 0 /\
        drafted_from a e /\
        fs w' = with_folder Drafts
                  (dir_write (awardId_of a) (JsonObject e) (drafts (fs w))) (fs w))).
Proof.
  unfold generate_one. cbv zeta.
  set (first := if progress then emit _ else ret tt).
  assert (exists pre, first w = (Ok tt, mkWorld (fs w) (env w) (log w ++ pre)) /\
                      Forall (generator_event buildPrompt a) pre /\
                      filter is_model_call pre = []) as [pre [E0 [F0 C0]]].
  { unfold first. destruct progress.
    - eexists [_]. split; [reflexivity|]. split; [repeat constructor | reflexivity].
    - exists []. split; [unfold ret; f_equal; apply world_eta|].
      split; [constructor | reflexivity]. }
  unfold bind at 1. rewrite E0. unfold try_catch. unfold bind at 1.
  destruct (generateEmail_events a senderName (mkWorld (fs w) (env w) (log w ++ pre)))
    as [evs [Q Fe]].
  destruct (generateEmail_one_call a senderName (mkWorld (fs w) (env w) (log w ++ pre)))
    as [evs' [Q' L]].
  rewrite Q in Q'. injection Q' as Q'. apply app_inv_head in Q'. subst evs'.
  assert (List.length (filter is_model_call (pre ++ evs)) <= 1) as Hcount
    by (rewrite filter_app, C0; exact L).
  destruct (generateEmail out buildPrompt finishBody a senderName
              (mkWorld (fs w) (env w) (log w ++ pre))) as [[e|err] w1] eqn:G;
    simpl in Q; subst w1.
  - destruct (generateEmail_fresh _ _ _ _ _ _ _ _ G) as [Hv Hfresh].
    pose proof (generateEmail_drafted_from a senderName _ _ _ G) as Hd.
    destruct Hd as [Hid Hrest].
    unfold saveDraft, ensureDirs, writeJson, bind, get_fs, put_fs, ret.
    cbn [fs env log snd folder_dir]. rewrite Hid.
    eexists _, _, (pre ++ evs). split; [reflexivity|]. cbn [fs env log].
    split; [reflexivity|]. split; [symmetry; apply app_assoc|].
    split; [apply Forall_app; split; assumption|]. split; [exact Hcount|].
    right. exists e. split; [reflexivity|]. split; [exact Hv|].
    split; [exact Hfresh|]. split; [split; [exact Hid | exact Hrest]|reflexivity].
  - unfold ret. eexists _, _, (pre ++ evs). split; [reflexivity|]. cbn [fs env log].
    split; [reflexivity|]. split; [symmetry; apply app_assoc|].
    split; [apply Forall_app; split; assumption|]. split; [exact Hcount|].
    left. exists (message err). split; reflexivity.
Qed.

Lemma generate_loop_spec (progress : bool) (total : nat)
    (senderName : option string) (toProcess : list award) :
  forall (i : nat) (res : Generated.results) (w : world),
  exists res' w' evs new_g new_e,
    generate_loop out buildPrompt finishBody progress total i toProcess senderName res w
      = (Ok res', w') /\
    env w' = env w /\ log w' = log w ++ evs /\
    Generated.generated res' = Generated.generated res ++ new_g /\
    Generated.errors res' = Generated.errors res ++ new_e /\
    Permutation (map fst new_g ++ map fst new_e) (map awardId_of toProcess) /\
    only_adds_drafts (fs w) (fs w') /\
    Forall (fun ev => exists a, In a toProcess /\ generator_event buildPrompt a ev) evs /\
    List.length (filter is_model_call evs) <= List.length toProcess /\
    (forall id path, In (id, path) new_g ->
       exists a e,
         In a toProcess /\ hasValidContact a = true /\
         id = awardId_of a /\ path = draft_path a /\
         occurrences id (fs w) = 0 /\ drafted_from a e /\
         dir_lookup id (drafts (fs w')) = Some (JsonObject e)).
Proof.
  induction toProcess as [|a rest IH]; intros i res w.
  - exists res, w, [], [], []. simpl. unfold ret. rewrite !app_nil_r.
    repeat split; auto; try apply only_adds_refl. intros id path [].
  - cbn [generate_loop]. unfold bind.
    destruct (generate_one_spec progress total i a senderName res w)
      as [res1 [w1 [evs1 [E1 [Henv1 [Hlog1 [F1 [C1 Hcase]]]]]]]].
    rewrite E1.
    destruct (IH (S i) res1 w1)
      as [res' [w' [evs2 [g2 [e2 [E2 [Henv2 [Hlog2 [Hg [He [Hp [Hs [F2 [C2 Hnew]]]]]]]]]]]]]].
    assert (Forall (fun ev => exists a0, In a0 (a :: rest) /\
                                 generator_event buildPrompt a0 ev) (evs1 ++ evs2)) as F.
    { apply Forall_app. split.
      - eapply Forall_impl; [|exact F1]. intros ev H. exists a. split; [left; auto | exact H].
      - eapply Forall_impl; [|exact F2]. intros ev [a0 [Hin H]].
        exists a0. split; [right; exact Hin | exact H]. }
    assert (List.length (filter is_model_call (evs1 ++ evs2)) <= List.length (a :: rest))
      as C by (rewrite filter_app, length_app; simpl; lia).
    assert (log w' = log w ++ evs1 ++ evs2) as Hlog
      by (rewrite Hlog2, Hlog1, app_assoc; reflexivity).
    destruct Hcase as [[msg [-> Hfs]] | [e [-> [Hv [Hfresh [Hd Hfs]]]]]].
    + exists res', w', (evs1 ++ evs2), g2, ((awardId_of a, msg) :: e2).
      cbn [Generated.generated Generated.errors] in Hg, He.
      split; [exact E2|]. split; [congruence|]. split; [exact Hlog|].
      split; [exact Hg|]. split; [rewrite He, <- app_assoc; reflexivity|].
      split; [cbn [map]; apply Permutation_sym, Permutation_cons_app,
                Permutation_sym; exact Hp|].
      split; [rewrite <- Hfs; exact Hs|]. split; [exact F|]. split; [exact C|].
      intros id path Hin. destruct (Hnew id path Hin)
        as [a0 [e0 [Hin0 [Hv0 [Hid0 [Hpath0 [Hocc0 [Hd0 Hl0]]]]]]]].
      exists a0, e0. rewrite <- Hfs. split; [right; exact Hin0|].
      split; [exact Hv0|]. split; [exact Hid0|]. split; [exact Hpath0|].
      split; [exact Hocc0|]. split; [exact Hd0 | exact Hl0].
    + assert (only_adds_drafts (fs w) (fs w1)) as Hs1
        by (rewrite Hfs; apply only_adds_write; exact Hfresh).
      exists res', w', (evs1 ++ evs2), ((awardId_of a, draft_path a) :: g2), e2.
      cbn [Generated.generated Generated.errors] in Hg, He.
      split; [exact E2|]. split; [congruence|]. split; [exact Hlog|].
      split; [rewrite Hg, <- app_assoc; reflexivity|]. split; [exact He|].
      split; [cbn [map fst app]; apply perm_skip; exact Hp|].
      split; [exact (only_adds_trans _ _ _ Hs1 Hs)|]. split; [exact F|].
      split; [exact C|].
      intros id path [Hin | Hin].
      * injection Hin as <- <-. exists a, e.
        split; [left; reflexivity|]. split; [exact Hv|]. split; [reflexivity|].
        split; [reflexivity|]. split; [exact Hfresh|]. split; [exact Hd|].
        destruct Hs as [_ [_ [_ [_ [_ Hkeep]]]]]. apply Hkeep. rewrite Hfs.
        unfold with_folder. cbn [drafts].
        rewrite dir_lookup_write, String.eqb_refl. reflexivity.
      * destruct (Hnew id path Hin)
          as [a0 [e0 [Hin0 [Hv0 [Hid0 [Hpath0 [Hocc0 [Hd0 Hl0]]]]]]]].
        exists a0, e0. split; [right; exact Hin0|]. split; [exact Hv0|].
        split; [exact Hid0|]. split; [exact Hpath0|].
        split; [exact (only_adds_occurrences _ _ _ Hs1 Hocc0)|].
        split; [exact Hd0 | exact Hl0].
Qed.

Lemma randoms_are_no_calls (evs : list event) :
  (forall ev, In ev evs -> exists r, ev = EvRandom r) ->
  filter is_model_call evs = [].
Proof.
  induction evs as [|ev evs IH]; intros H; [reflexivity|]. simpl.
  destruct (H ev (or_introl eq_refl)) as [r ->]. simpl.
  apply IH. intros ev' H'. apply H. right. exact H'.
Qed.

Lemma generateEmails_spec (awards : list award) (limit : Z) (progress : bool)
    (senderName : option string) (w : world) :
  exists res w' evs shuffled,
    generateEmails out buildPrompt finishBody awards limit progress senderName w
      = (Ok res, w') /\
    env w' = env w /\ log w' = log w ++ evs /\
    Permutation shuffled awards /\
    Permutation (map fst (Generated.generated res) ++ map fst (Generated.errors res))
                (map awardId_of (JS.slice0 shuffled limit)) /\
    only_adds_drafts (fs w) (fs w') /\
    Forall (fun ev => exists a, In a awards /\ generator_event buildPrompt a ev) evs /\
    List.length (filter is_model_call evs) <= List.length (JS.slice0 shuffled limit) /\
    (forall id path, In (id, path) (Generated.generated res) ->
       exists a e,
         In a awards /\ hasValidContact a = true /\
         id = awardId_of a /\ path = draft_path a /\
         occurrences id (fs w) = 0 /\ drafted_from a e /\
         dir_lookup id (drafts (fs w')) = Some (JsonObject e)).
Proof.
  unfold generateEmails. unfold bind at 1.
  destruct (shuffleArray_run awards w) as [shuffled [evs0 [E0 [Hp [Hlen Hr]]]]].
  rewrite E0. cbv zeta.
  destruct (generate_loop_spec progress (List.length (JS.slice0 shuffled limit))
              senderName (JS.slice0 shuffled limit) 0
              (Generated.mkResults [] [])
              (mkWorld (fs w) (env w) (log w ++ evs0)))
    as [res [w' [evs [g [e [E [Henv [Hlog [Hg [He [Hperm [Hs [F [C Hnew]]]]]]]]]]]]]].
  cbn [fs env log Generated.generated Generated.errors app] in *.
  assert (forall a, In a (JS.slice0 shuffled limit) -> In a awards) as Hsub.
  { intros a H. apply (Permutation_in _ Hp). exact (slice0_In _ _ _ H). }
  exists res, w', (evs0 ++ evs), shuffled.
  split; [exact E|]. split; [exact Henv|].
  split; [rewrite Hlog, app_assoc; reflexivity|]. split; [exact Hp|].
  split; [rewrite Hg, He; exact Hperm|]. split; [exact Hs|].
  pose proof (randoms_are_no_calls evs0 Hr) as C0.
  split.
  { apply Forall_app. split.
    - apply Forall_forall. intros ev Hin. destruct (Hr ev Hin) as [r ->].
      destruct awards as [|a0 awards'].
      + destruct evs0; [destruct Hin | simpl in Hlen; discriminate].
      + exists a0. split; [left; reflexivity | exact I].
    - eapply Forall_impl; [|exact F]. intros ev [a [Hin H]].
      exists a. split; [apply Hsub; exact Hin | exact H]. }
  split; [rewrite filter_app, length_app, C0; exact C|].
  intros id path Hin. rewrite Hg in Hin.
  destruct (Hnew id path Hin) as [a [e0 [Hin0 H]]].
  exists a, e0. split; [apply Hsub; exact Hin0 | exact H].
Qed.

(** X13.  [generateEmails] never throws: whatever the single awards do, it
    returns a result in which every award it took up is reported once, as
    generated or as an error.  It takes up the first [limit] awards of the
    shuffled list, all of them when there are fewer, and with a negative
    [limit] all but the last [-limit]. *)
Theorem generateEmails_reports_every_award_it_takes_up
    (awards : list award) (limit : Z) (progress : bool)
    (senderName : option string) (w : world) :
  exists res shuffled,
    fst (generateEmails out buildPrompt finishBody awards limit progress senderName w)
      = Ok res /\
    Permutation shuffled awards /\
    Permutation (map fst (Generated.generated res) ++ map fst (Generated.errors res))
                (map awardId_of (JS.slice0 shuffled limit)) /\
    Z.of_nat (List.length (Generated.generated res) +
              List.length (Generated.errors res)) =
      if (limit <? 0)%Z then Z.max (Z.of_nat (List.length awards) + limit) 0
      else Z.min limit (Z.of_nat (List.length awards)).
Proof.
  destruct (generateEmails_spec awards limit progress senderName w)
    as [res [w' [evs [shuffled [E [_ [_ [Hp [Hperm _]]]]]]]]].
  exists res, shuffled. rewrite E. split; [reflexivity|]. split; [exact Hp|].
  split; [exact Hperm|].
  apply Permutation_length in Hperm. rewrite length_app, !length_map in Hperm.
  rewrite Hperm, slice0_length, (Permutation_length Hp). reflexivity.
Qed.

(** X14.  A batch of the generator only adds drafts: every file that was
    in the store is still there with the same content, and nothing changes
    outside [drafts].  Every award reported as generated has a valid contact
    and was in none of the four collections before; its draft is on disk
    afterwards under the award's id, addressed to the award's investigator
    and not marked as sent. *)
Theorem generateEmails_only_adds_drafts
    (awards : list award) (limit : Z) (progress : bool)
    (senderName : option string) (w : world) :
  exists res w',
    generateEmails out buildPrompt finishBody awards limit progress senderName w
      = (Ok res, w') /\
    env w' = env w /\
    only_adds_drafts (fs w) (fs w') /\
    forall id path, In (id, path) (Generated.generated res) ->
      exists a e,
        In a awards /\ hasValidContact a = true /\
        id = awardId_of a /\ path = draft_path a /\
        occurrences id (fs w) = 0 /\ drafted_from a e /\
        dir_lookup id (drafts (fs w')) = Some (JsonObject e).
Proof.
  destruct (generateEmails_spec awards limit progress senderName w)
    as [res [w' [evs [shuffled [E [Henv [_ [_ [_ [Hs [_ [_ Hnew]]]]]]]]]]]].
  exists res, w'. split; [exact E|]. split; [exact Henv|]. split; [exact Hs | exact Hnew].
Qed.

(** X15.  A batch of the generator calls the model only with prompts built
    for awards of its input that have a valid contact, at most once for each
    award it takes up, hence at most [limit] times when [limit] is not
    negative.  It never calls the delivery API and never sleeps. *)
Theorem generateEmails_calls_the_model_for_valid_contacts_only
    (awards : list award) (limit : Z) (progress : bool)
    (senderName : option string) (w : world) :
  exists evs,
    log (snd (generateEmails out buildPrompt finishBody awards limit progress
                senderName w)) = log w ++ evs /\
    Forall (fun ev => exists a, In a awards /\ generator_event buildPrompt a ev) evs /\
    (Z.of_nat (List.length (filter is_model_call evs)) <=
       if (limit <? 0)%Z then Z.max (Z.of_nat (List.length awards) + limit) 0
       else Z.min limit (Z.of_nat (List.length awards)))%Z.
Proof.
  destruct (generateEmails_spec awards limit progress senderName w)
    as [res [w' [evs [shuffled [E [_ [Hlog [Hp [_ [_ [F [C _]]]]]]]]]]]].
  exists evs. rewrite E. split; [exact Hlog|]. split; [exact F|].
  rewrite <- (Permutation_length Hp), <- slice0_length. lia.
Qed.

(** ** The sender's results *)

Lemma send_loop_dry (opts : send_options) (total : nat) :
  dryRun opts = true ->
  forall (rest : list email) (i : nat) (res : Results.t) (w : world),
  exists w',
    send_loop out opts total i rest res w =
      (Ok (Results.mk
             (Results.sent res ++ map dry_entry (filter has_recipient rest))
             (Results.errors res ++
              map no_recipient_entry (filter (fun e => negb (has_recipient e)) rest))
             (Results.dryRun res)), w').
Proof.
  intros Hdry rest. induction rest as [|e rest IH]; intros i res w.
  - exists w. simpl. rewrite !app_nil_r. destruct res; reflexivity.
  - cbn [send_loop]. unfold bind. rewrite send_one_run. cbv zeta.
    cbn [filter]. change (has_recipient e) with (JS.truthy (pi_email e)).
    destruct (JS.truthy (pi_email e)); cbn [negb].
    + rewrite Hdry.
      destruct (IH (S i) (push_sent e (mkOutcome true None (pi_email e) (subject e)) res)
                  (mkWorld (fs w) (env w)
                     (log w ++ (if onProgress opts
                                then [EvProgress (i + 1) total (award_id e) (pi_email e)]
                                else [])))) as [w' E].
      exists w'. rewrite E. unfold push_sent.
      cbn [Results.sent Results.errors Results.dryRun resendId map].
      rewrite <- app_assoc. reflexivity.
    + destruct (IH (S i) (push_error e (Error "No recipient email address") res)
                  (mkWorld (fs w) (env w)
                     (log w ++ (if onProgress opts
                                then [EvProgress (i + 1) total (award_id e) (pi_email e)]
                                else [])))) as [w' E].
      exists w'. rewrite E. unfold push_error.
      cbn [Results.sent Results.errors Results.dryRun message map].
      rewrite <- app_assoc. reflexivity.
Qed.

(** X16.  A dry run needs no configuration and reports, in the order of
    the listing, every record it takes up: those with a recipient as sent,
    with no provider id, and those without as errors with the message
    [No recipient email address]. *)
Theorem dry_run_reports_what_it_would_send (opts : send_options) (w : world) :
  dryRun opts = true ->
  fst (sendApprovedEmails out opts w) =
    Ok (Results.mk
          (map dry_entry (filter has_recipient (to_send opts (fs w))))
          (map no_recipient_entry
             (filter (fun e => negb (has_recipient e)) (to_send opts (fs w))))
          true).
Proof.
  intros Hdry. rewrite sendApprovedEmails_unfold, Hdry. cbn [negb andb].
  rewrite andb_false_r.
  destruct (send_loop_dry opts (List.length (to_send opts (fs w))) Hdry
              (to_send opts (fs w)) 0 (Results.mk [] [] true)
              (mkWorld (fs w) (env w) (log w ++ approved_reads (fs w)))) as [w' E].
  rewrite E. reflexivity.
Qed.

(** X17.  A configured run takes up the first [limit] records of
    [approved] in listing order, all of them when there are fewer, and with
    a negative [limit] all but the last [-limit]; each one is reported
    once, as sent or as an error. *)
Theorem sendApprovedEmails_respects_the_limit (opts : send_options) (w : world) :
  configured opts w ->
  exists res,
    fst (sendApprovedEmails out opts w) = Ok res /\
    Permutation
      (map SentEntry.awardId (Results.sent res) ++
       map ErrorEntry.awardId (Results.errors res))
      (map award_id (JS.slice0 (records (approved (fs w))) (limit opts))) /\
    Z.of_nat (List.length (Results.sent res) + List.length (Results.errors res)) =
      if (limit opts <? 0)%Z
      then Z.max (Z.of_nat (List.length (records (approved (fs w)))) + limit opts) 0
      else Z.min (limit opts) (Z.of_nat (List.length (records (approved (fs w))))).
Proof.
  intros Hc.
  destruct (sendApprovedEmails_spec out opts w Hc)
    as [res [w' [chunks [E [_ [_ [_ [_ [_ [Hperm _]]]]]]]]]].
  exists res. rewrite E. split; [reflexivity|]. split; [exact Hperm|].
  apply Permutation_length in Hperm. rewrite length_app, !length_map in Hperm.
  rewrite Hperm. unfold to_send. apply slice0_length.
Qed.

Lemma NoDup_map_inj {X Y : Type} (f : X -> Y) (l : list X) (x y : X) :
  NoDup (map f l) -> In x l -> In y l -> f x = f y -> x = y.
Proof.
  induction l as [|a l IH]; simpl; intros Hnd Hx Hy Hf; [destruct Hx|].
  inversion Hnd as [|? ? Hnot Hnd']; subst.
  destruct Hx as [<- | Hx], Hy as [<- | Hy].
  - reflexivity.
  - exfalso. apply Hnot. rewrite Hf. apply in_map. exact Hy.
  - exfalso. apply Hnot. rewrite <- Hf. apply in_map. exact Hx.
  - exact (IH Hnd' Hx Hy Hf).
Qed.

Lemma NoDup_app_disjoint {X : Type} (l l' : list X) (a : X) :
  NoDup (l ++ l') -> In a l -> In a l' -> False.
Proof.
  induction l as [|b l IH]; simpl; intros Hnd H H'; [destruct H|].
  inversion Hnd as [|? ? Hnot Hnd']; subst. destruct H as [<- | H].
  - apply Hnot. apply in_or_app. right. exact H'.
  - exact (IH Hnd' H H').
Qed.

Lemma records_lookup (d : dir email) (e : email) :
  In e (records d) <-> exists id, dir_lookup id d = Some (JsonObject e).
Proof.
  rewrite records_In. split.
  - intros [id [_ L]]. exists id. exact L.
  - intros [id L]. exists id. split; [|exact L].
    apply dir_has_In. rewrite dir_has_lookup, L. reflexivity.
Qed.

Lemma real_run (opts : send_options) (w : world) :
  dryRun opts = false -> configured opts w ->
  well_formed (approved (fs w)) = true ->
  exists res w' chunks,
    sendApprovedEmails out opts w = (Ok res, w') /\
    log w' = log w ++ approved_reads (fs w) ++ concat chunks /\
    NoDup (map SentEntry.awardId (Results.sent res) ++
           map ErrorEntry.awardId (Results.errors res)) /\
    (forall id, In id (map SentEntry.awardId (Results.sent res) ++
                       map ErrorEntry.awardId (Results.errors res)) <->
                In id (map award_id (to_send opts (fs w)))) /\
    (forall id, ~ In id (map award_id (to_send opts (fs w))) ->
       same_files id (fs w) (fs w')) /\
    forall e, In e (to_send opts (fs w)) ->
      (exists msg,
         In (ErrorEntry.mk (award_id e) (pi_email e) msg) (Results.errors res) /\
         same_files (award_id e) (fs w) (fs w')) \/
      (exists rid u k,
         nth_error (to_send opts (fs w)) k = Some e /\
         In (SentEntry.mk (award_id e) (pi_email e) (subject e) rid) (Results.sent res) /\
         dir_lookup (award_id e) (approved (fs w')) = None /\
         dir_lookup (award_id e) (sent (fs w')) = Some (JsonObject u) /\
         stamped e
           (Date_now out
              (log w ++ approved_reads (fs w) ++ concat (firstn k chunks) ++
               progress_events opts (List.length (to_send opts (fs w))) k e ++
               [EvDispatch (request_of e (fromEmail opts) (fromName opts))
                  (ReplyData rid)]))
           rid u).
Proof.
  intros Hdry Hc Hwf.
  destruct (sendApprovedEmails_spec out opts w Hc)
    as [res [w' [chunks [E [_ [Hlog [Hlen [_ [_ [Hperm [Hfr [_ [_ Hout]]]]]]]]]]]]].
  destruct (to_send_well_formed opts (fs w) Hwf) as [Hnd _].
  exists res, w', chunks. split; [exact E|]. split; [exact Hlog|].
  split; [exact (Permutation_NoDup (Permutation_sym Hperm) Hnd)|].
  split.
  { intros id. split; intros H.
    - exact (Permutation_in _ Hperm H).
    - exact (Permutation_in _ (Permutation_sym Hperm) H). }
  split; [exact Hfr|].
  intros e He. apply In_nth_error in He. destruct He as [k Hk].
  assert (k < List.length chunks) as Hlt
    by (rewrite Hlen; apply nth_error_Some; congruence).
  apply nth_error_Some in Hlt.
  destruct (nth_error chunks k) as [chunk|] eqn:Hchunk; [|congruence].
  destruct (Hout Hdry Hnd k e chunk Hk Hchunk) as [_ [_ [Hf | Hd]]].
  - left. destruct Hf as [msg [_ [Hin [La Ls]]]]. exists msg.
    split; [exact Hin | split; [exact La | exact Ls]].
  - right. destruct Hd as [rid [u [_ [Hin [La [Ls Hst]]]]]]. exists rid, u, k.
    split; [exact Hk|]. split; [exact Hin|]. split; [exact La|].
    split; [exact Ls|]. rewrite <- !app_assoc in Hst. exact Hst.
Qed.

(** X18.  After a configured run that is not dry, over a well-formed
    [approved] directory, the store agrees with the report: every entry of
    the sent list belongs to a record that was approved, whose file is gone
    from [approved] and is in [sent], with [sent_at] set to the clock's
    reading after the provider confirmed the record's delivery,
    [resend_id] set to the entry's provider id, and every other field as in
    the approved record; every entry of the errors belongs to a record that
    is still in [approved], unchanged. *)
Theorem a_real_run_files_what_it_reports (opts : send_options) (w : world) :
  dryRun opts = false -> configured opts w ->
  well_formed (approved (fs w)) = true ->
  exists res w' chunks,
    sendApprovedEmails out opts w = (Ok res, w') /\
    log w' = log w ++ approved_reads (fs w) ++ concat chunks /\
    (forall x, In x (Results.sent res) ->
       exists e u k,
         nth_error (to_send opts (fs w)) k = Some e /\
         In e (records (approved (fs w))) /\
         x = SentEntry.mk (award_id e) (pi_email e) (subject e) (SentEntry.resendId x) /\
         dir_lookup (SentEntry.awardId x) (approved (fs w')) = None /\
         dir_lookup (SentEntry.awardId x) (sent (fs w')) = Some (JsonObject u) /\
         sent_at u =
           Some (Date_now out
                   (log w ++ approved_reads (fs w) ++ concat (firstn k chunks) ++
                    progress_events opts (List.length (to_send opts (fs w))) k e ++
                    [EvDispatch (request_of e (fromEmail opts) (fromName opts))
                       (ReplyData (SentEntry.resendId x))])) /\
         resend_id u = SentEntry.resendId x /\
         award_id u = award_id e /\ pi_name u = pi_name e /\
         pi_email u = pi_email e /\ institution u = institution e /\
         award_title u = award_title e /\ award_amount u = award_amount e /\
         subject u = subject e /\ body u = body e /\
         variants u = variants e /\ generated_at u = generated_at e) /\
    (forall y, In y (Results.errors res) ->
       exists e,
         In e (records (approved (fs w))) /\
         ErrorEntry.awardId y = award_id e /\
         ErrorEntry.recipient y = pi_email e /\
         dir_lookup (award_id e) (approved (fs w')) = Some (JsonObject e)).
Proof.
  intros Hdry Hc Hwf.
  destruct (real_run opts w Hdry Hc Hwf)
    as [res [w' [chunks [E [Hlog [Hnd [Hids [_ Hturn]]]]]]]].
  destruct (to_send_well_formed opts (fs w) Hwf) as [_ Hin].
  exists res, w', chunks. split; [exact E|]. split; [exact Hlog|]. split.
  - intros x Hx.
    assert (In (SentEntry.awardId x) (map award_id (to_send opts (fs w)))) as Hid.
    { apply Hids, in_or_app. left. apply in_map. exact Hx. }
    apply in_map_iff in Hid. destruct Hid as [e [Hid He]].
    destruct (Hturn e He) as [[msg [Herr _]] | [rid [u [k [Hk [Hs [La [Ls Hst]]]]]]]].
    + exfalso. apply (NoDup_app_disjoint _ _ (award_id e) Hnd).
      * rewrite Hid. apply in_map. exact Hx.
      * exact (in_map ErrorEntry.awardId _ _ Herr).
    + assert (x = SentEntry.mk (award_id e) (pi_email e) (subject e) rid) as ->.
      { apply (NoDup_map_inj SentEntry.awardId (Results.sent res));
          [exact (NoDup_app_remove_r _ _ Hnd) | exact Hx | exact Hs | symmetry; exact Hid]. }
      exists e, u, k. cbn [SentEntry.awardId SentEntry.resendId].
      split; [exact Hk|]. split; [exact (proj1 (Hin e He))|]. split; [reflexivity|].
      split; [exact La|]. split; [exact Ls|]. exact Hst.
  - intros y Hy.
    assert (In (ErrorEntry.awardId y) (map award_id (to_send opts (fs w)))) as Hid.
    { apply Hids, in_or_app. right. apply in_map. exact Hy. }
    apply in_map_iff in Hid. destruct Hid as [e [Hid He]].
    destruct (Hturn e He) as [[msg [Herr [La _]]] | [rid [u [k [_ [Hs _]]]]]].
    + assert (y = ErrorEntry.mk (award_id e) (pi_email e) msg) as ->.
      { apply (NoDup_map_inj ErrorEntry.awardId (Results.errors res));
          [exact (NoDup_app_remove_l _ _ Hnd) | exact Hy | exact Herr | symmetry; exact Hid]. }
      exists e. cbn [ErrorEntry.awardId ErrorEntry.recipient].
      split; [exact (proj1 (Hin e He))|]. split; [reflexivity|]. split; [reflexivity|].
      rewrite La. exact (proj2 (Hin e He)).
    + exfalso. apply (NoDup_app_disjoint _ _ (award_id e) Hnd).
      * exact (in_map SentEntry.awardId _ _ Hs).
      * rewrite Hid. apply in_map. exact Hy.
Qed.

(** X19.  After such a run the records of [approved] are exactly the
    records that were there and were not delivered: a second run takes up
    no record that the first reported as sent, and it finds again every
    record that failed or was beyond the limit. *)
Theorem only_undelivered_records_stay_approved (opts : send_options) (w : world) :
  dryRun opts = false -> configured opts w ->
  well_formed (approved (fs w)) = true ->
  exists res w',
    sendApprovedEmails out opts w = (Ok res, w') /\
    forall e,
      In e (records (approved (fs w'))) <->
      In e (records (approved (fs w))) /\
      ~ In (award_id e) (map SentEntry.awardId (Results.sent res)).
Proof.
  intros Hdry Hc Hwf.
  destruct (real_run opts w Hdry Hc Hwf)
    as [res [w' [chunks [E [_ [Hnd [Hids [Hfr Hturn]]]]]]]].
  destruct (to_send_well_formed opts (fs w) Hwf) as [_ Hin].
  destruct (well_formed_records _ Hwf) as [_ Hrec].
  assert (filed_under_award_id (approved (fs w)) = true) as Hfiled
    by (unfold well_formed in Hwf; apply andb_true_iff in Hwf; tauto).
  exists res, w'. split; [exact E|]. intros e. rewrite !records_lookup. split.
  - intros [id L'].
    assert (dir_lookup id (approved (fs w)) = Some (JsonObject e) /\
            ~ In id (map SentEntry.awardId (Results.sent res))) as [L Hnot].
    { destruct (in_dec string_dec id (map award_id (to_send opts (fs w)))) as [Hid | Hid].
      - apply in_map_iff in Hid. destruct Hid as [e0 [Hid He0]]. subst id.
        destruct (Hturn e0 He0) as [[msg [Herr [La _]]] | [rid [u [k [_ [_ [La _]]]]]]].
        + split; [rewrite <- La; exact L'|]. intros C.
          apply (NoDup_app_disjoint _ _ (award_id e0) Hnd C).
          exact (in_map ErrorEntry.awardId _ _ Herr).
        + rewrite La in L'. discriminate.
      - destruct (Hfr id Hid) as [La _]. split; [rewrite <- La; exact L'|].
        intros C. apply Hid, Hids, in_or_app. left. exact C. }
    split; [exists id; exact L|].
    rewrite (filed_lookup _ _ _ Hfiled L). exact Hnot.
  - intros [[id L] Hnot].
    pose proof (filed_lookup _ _ _ Hfiled L) as Hid. subst id.
    exists (award_id e).
    destruct (in_dec string_dec (award_id e) (map award_id (to_send opts (fs w))))
      as [Hid | Hid].
    + apply in_map_iff in Hid. destruct Hid as [e0 [Hid He0]].
      destruct (Hturn e0 He0) as [[msg [_ [La _]]] | [rid [u [k [_ [Hs _]]]]]].
      * rewrite <- Hid, La, Hid. exact L.
      * exfalso. apply Hnot. rewrite <- Hid.
        exact (in_map SentEntry.awardId _ _ Hs).
    + destruct (Hfr _ Hid) as [La _]. rewrite La. exact L.
Qed.
End More.

(** ** The status of a record over its life *)

Lemma occurrences_0_appears (id : string) (s : store) :
  occurrences id s = 0 -> forall g, appears id g s = false.
Proof.
  unfold occurrences. intros H g.
  destruct (appears id Drafts s) eqn:A, (appears id Approved s) eqn:B,
    (appears id Sent s) eqn:C, (appears id Skipped s) eqn:D;
    simpl in H; try lia; destruct g; assumption.
Qed.

Lemma only_in_write (id : string) (f : folder) (c : file email) (s : store) :
  occurrences id s = 0 ->
  only_in id f (with_folder f (dir_write id c (folder_dir f s)) s).
Proof.
  intros H g. rewrite appears_with.
  destruct (folder_eqb g f); [|exact (occurrences_0_appears id s H g)].
  rewrite dir_has_write, String.eqb_refl. reflexivity.
Qed.

Lemma only_in_moveFile (id : string) (a b : folder) (w : world) :
  only_in id a (fs w) ->
  fst (moveFile id a b w) = Ok tt /\
  only_in id b (fs (snd (moveFile id a b w))) /\
  dir_lookup id (folder_dir b (fs (snd (moveFile id a b w)))) =
    dir_lookup id (folder_dir a (fs w)).
Proof.
  intros H. rewrite moveFile_run.
  pose proof (H a) as Ha. rewrite folder_eqb_refl in Ha. unfold appears in Ha.
  rewrite dir_has_lookup in Ha.
  destruct (dir_lookup id (folder_dir a (fs w))) as [c|] eqn:L; [|discriminate].
  destruct (folder_eqb a b) eqn:Eab.
  - apply folder_eqb_eq in Eab. subst b. cbn [fst snd]. split; [reflexivity|].
    split; [exact H | exact L].
  - cbv zeta. cbn [fst snd fs]. split; [reflexivity|].
    assert (folder_eqb b a = false) as Eba by (destruct a, b; simpl in *; congruence).
    split.
    + intros g. rewrite !appears_with, folder_dir_with, Eab.
      destruct (folder_eqb g a) eqn:Ega.
      * apply folder_eqb_eq in Ega. subst g. rewrite Eab.
        rewrite dir_has_unlink, String.eqb_refl. reflexivity.
      * destruct (folder_eqb g b) eqn:Egb.
        -- rewrite dir_has_write, String.eqb_refl. reflexivity.
        -- rewrite (H g). exact Ega.
    + rewrite !folder_dir_with, Eba, folder_eqb_refl.
      rewrite dir_lookup_write, String.eqb_refl. reflexivity.
Qed.

Lemma only_in_file_as_sent (u : email) (s : store) :
  only_in (award_id u) Approved s -> only_in (award_id u) Sent (file_as_sent u s).
Proof.
  intros H g. unfold appears.
  destruct (file_as_sent_drafts u s) as [Hd [Hk _]].
  destruct g; cbn [folder_dir folder_eqb].
  - rewrite Hd. exact (H Drafts).
  - rewrite dir_has_lookup, file_as_sent_approved, String.eqb_refl. reflexivity.
  - rewrite dir_has_lookup, file_as_sent_sent, String.eqb_refl. reflexivity.
  - rewrite Hk. exact (H Skipped).
Qed.

Section Lifecycle.
Variable out : outside.

(** X20.  The writers compose into the life of a record: saved by
    [saveDraft] under an id that is in no collection, the record is in
    [drafts] only; moved by [moveFile], in [approved] only, where
    [getApprovedEmails] finds it; marked by [markAsSent], in [sent] only,
    with [sent_at] set to the clock's reading at that call, [resend_id] to
    the provider's id, and every other field as it was saved. *)
Theorem a_record_is_in_one_collection_at_each_stage
    (e : email) (rid : option string) (w : world) :
  occurrences (award_id e) (fs w) = 0 ->
  let id := award_id e in
  let w1 := snd (saveDraft e w) in
  let w2 := snd (moveFile id Drafts Approved w1) in
  let w3 := snd (markAsSent out e rid w2) in
  (fst (saveDraft e w) = Ok ("drafts/" ++ id ++ ".json")%string /\
   only_in id Drafts (fs w1) /\
   dir_lookup id (drafts (fs w1)) = Some (JsonObject e)) /\
  (fst (moveFile id Drafts Approved w1) = Ok tt /\
   only_in id Approved (fs w2) /\
   exists approved_now,
     fst (getApprovedEmails w2) = Ok approved_now /\ In e approved_now) /\
  (exists u,
     fst (markAsSent out e rid w2) = Ok u /\
     only_in id Sent (fs w3) /\
     dir_lookup id (sent (fs w3)) = Some (JsonObject u) /\
     sent_at u = Some (Date_now out (log w2)) /\
     resend_id u = rid /\
     award_id u = award_id e /\ pi_name u = pi_name e /\
     pi_email u = pi_email e /\ institution u = institution e /\
     award_title u = award_title e /\ award_amount u = award_amount e /\
     subject u = subject e /\ body u = body e /\
     variants u = variants e /\ generated_at u = generated_at e).
Proof.
  intros H. cbv zeta.
  assert (saveDraft e w =
          (Ok ("drafts/" ++ award_id e ++ ".json")%string,
           mkWorld (with_folder Drafts
                      (dir_write (award_id e) (JsonObject e) (folder_dir Drafts (fs w)))
                      (fs w)) (env w) (log w))) as E1 by reflexivity.
  rewrite E1. cbn [fst snd].
  set (w1 := mkWorld _ (env w) (log w)).
  assert (only_in (award_id e) Drafts (fs w1)) as O1
    by (apply only_in_write; exact H).
  assert (dir_lookup (award_id e) (folder_dir Drafts (fs w1)) = Some (JsonObject e)) as L1.
  { unfold w1. cbn [fs]. rewrite folder_dir_with. cbn [folder_eqb].
    rewrite dir_lookup_write, String.eqb_refl. reflexivity. }
  split; [split; [reflexivity | split; [exact O1 | exact L1]]|].
  destruct (only_in_moveFile (award_id e) Drafts Approved w1 O1) as [E2 [O2 L2]].
  rewrite L1 in L2. cbn [folder_dir] in L2.
  set (w2 := snd (moveFile (award_id e) Drafts Approved w1)) in *.
  split.
  { split; [exact E2|]. split; [exact O2|].
    rewrite getApprovedEmails_run. eexists. split; [reflexivity|].
    apply records_lookup. exists (award_id e). exact L2. }
  rewrite (markAsSent_run out e rid w2). cbv zeta. cbn [fst snd fs].
  exists (stamp e (Date_now out (log w2)) rid). split; [reflexivity|].
  split.
  - exact (only_in_file_as_sent (stamp e (Date_now out (log w2)) rid) (fs w2) O2).
  - split.
    + rewrite file_as_sent_sent. cbn [stamp award_id]. rewrite String.eqb_refl.
      reflexivity.
    + repeat split.
Qed.

End Lifecycle.

(** ** Counting files *)

Lemma filter_Boolean_length {X : Type} (l : list (option X)) :
  List.length (filter_Boolean l) <= List.length l /\
  (List.length (filter_Boolean l) = List.length l <-> forall x, In x l -> x <> None).
Proof.
  induction l as [|[a|] l [IH1 IH2]]; simpl.
  - split; [lia|]. split; [intros _ x [] | reflexivity].
  - split; [lia|]. split.
    + intros H x [<- | Hx]; [discriminate|]. apply IH2; [lia | exact Hx].
    + intros H. f_equal. apply IH2. intros x Hx. apply H. right. exact Hx.
  - split; [lia|]. split; [lia|].
    intros H. exfalso. apply (H None); [left|]; reflexivity.
Qed.

(** X21.  [getSendStats] counts files, [getApprovedEmails] returns records:
    the sender never takes up more emails than the statistics show as
    approved, and as many only when every file of [approved] parses. *)
Theorem getSendStats_counts_files_parsed_or_not (w : world) :
  exists st found,
    fst (getSendStats w) = Ok st /\
    fs (snd (getSendStats w)) = fs w /\
    fst (getApprovedEmails w) = Ok found /\
    SendStats.approved st = List.length (approved (fs w)) /\
    SendStats.sent st = List.length (sent (fs w)) /\
    List.length found <= SendStats.approved st /\
    (List.length found = SendStats.approved st <->
     forall id, In id (dir_ids (approved (fs w))) ->
       dir_read id (approved (fs w)) <> None).
Proof.
  rewrite getApprovedEmails_run.
  eexists. eexists. split; [reflexivity|]. split; [reflexivity|].
  split; [reflexivity|]. cbn [SendStats.approved SendStats.sent fs folder_dir].
  split; [unfold dir_ids; apply length_map|].
  split; [unfold dir_ids; apply length_map|].
  unfold records.
  destruct (filter_Boolean_length
              (map (fun id => dir_read id (approved (fs w))) (dir_ids (approved (fs w)))))
    as [Hle Heq].
  rewrite length_map in Hle, Heq.
  split; [exact Hle|]. rewrite Heq. split.
  - intros H id Hid. apply H. apply in_map_iff. exists id. split; [reflexivity | exact Hid].
  - intros H x Hx. apply in_map_iff in Hx. destruct Hx as [id [<- Hid]]. exact (H id Hid).
Qed.

(** ** The variants a draft records *)

Section Variants.
Variable out : outside.
Variable buildPrompt : award -> Style.guide -> string.
Variable finishBody : string -> string -> string.

(** X22.  A draft records the variants it was written with: when
    [generateEmail] returns an email, its [variants] name a template, a
    description and a call to action of [variants.json], none of them
    disabled, and the model was called with the prompt built from the
    award and exactly these three. *)
Theorem generateEmail_records_the_variants_it_used
    (a : award) (senderName : option string) (all : variants_config)
    (w w' : world) (e : email) :
  variants_json (fs w) = Some all ->
  generateEmail out buildPrompt finishBody a senderName w = (Ok e, w') ->
  exists t d c reply,
    (In t (templates all) /\ enabled t <> EnabledBool false) /\
    (In d (ouro_descriptions all) /\ enabled d <> EnabledBool false) /\
    (In c (call_to_actions all) /\ enabled c <> EnabledBool false) /\
    variants e = {| template_id := t_id t; template_name := t_name t;
                    ouro_description_id := b_id d; call_to_action_id := b_id c |} /\
    In (EvModelCall
          (buildPrompt a {| Style.angle := angle t; Style.tone := tone t;
                            Style.subject_line_style := subject_line_style t;
                            Style.sign_off_style := sign_off_style t;
                            Style.ouro_description := content d;
                            Style.call_to_action := content c |}) reply)
       (log w').
Proof.
  intros Hcfg. unfold generateEmail.
  destruct (negb (hasValidContact a)); [discriminate|]. cbv zeta.
  unfold bind at 1. rewrite isAlreadyProcessed_run.
  destruct (set_has _ (awardId_of a)); [discriminate|].
  unfold bind at 1.
  rewrite (selectVariants_run out
             (mkWorld (fs w) (env w)
                (log w ++ [EvListIds Drafts; EvListIds Approved; EvListIds Sent;
                           EvListIds Skipped])) all Hcfg).
  cbv zeta.
  destruct (List.length (filterEnabled (templates all)) =? 0)%nat eqn:Lt; [discriminate|].
  destruct (List.length (filterEnabled (ouro_descriptions all)) =? 0)%nat eqn:Ld;
    [discriminate|].
  destruct (List.length (filterEnabled (call_to_actions all)) =? 0)%nat eqn:Lc;
    [discriminate|].
  cbn [fs env log].
  match goal with
  | |- context [nth_error (filterEnabled (templates all)) (floor_scale ?r _)] =>
      destruct (pick_enabled (templates all) r Lt) as [t [Et Ht]]
  end.
  match goal with
  | |- context [nth_error (filterEnabled (ouro_descriptions all)) (floor_scale ?r _)] =>
      destruct (pick_enabled (ouro_descriptions all) r Ld) as [d [Ed Hd]]
  end.
  match goal with
  | |- context [nth_error (filterEnabled (call_to_actions all)) (floor_scale ?r _)] =>
      destruct (pick_enabled (call_to_actions all) r Lc) as [c [Ec Hc]]
  end.
  rewrite Et, Ed, Ec.
  unfold buildStyleGuide, variant_ids_of, now.
  cbn [template ouro_description call_to_action].
  unfold bind, get_log, get_env, emit, ret, throw. cbn [fs env log].
  match goal with
  | |- context [messages_create out ?h ?p] =>
      destruct (messages_create out h p) as [msg | [[subj bod]|]] eqn:R
  end; try discriminate.
  destruct (negb (JS.truthy subj) || negb (JS.truthy bod)); [discriminate|].
  intros [= <- <-]. cbn [variants log].
  exists t, d, c, (ModelContent (Some (subj, bod))).
  split; [exact Ht|]. split; [exact Hd|]. split; [exact Hc|].
  split; [reflexivity|].
  apply in_or_app. right. left. reflexivity.
Qed.

End Variants.

(** ** The further properties at concrete inputs *)

Lemma approve_and_skip_witness :
  running Sample.session = true /\
  rv_folder Sample.session = Drafts /\
  nth_error (emails Sample.session) (currentIndex Sample.session)
    = Some ("2300001", Scenario.e1) /\
  dir_lookup "2300001" (drafts (fs Scenario.one_draft)) = Some (JsonObject Scenario.e1) /\
  exists st',
    fst (handleKeypress "a" Sample.session Scenario.one_draft) = Ok st' /\
    emails st' = [] /\ running st' = false /\
    dir_lookup "2300001"
      (approved (fs (snd (handleKeypress "a" Sample.session Scenario.one_draft))))
      = Some (JsonObject Scenario.e1).
Proof.
  split; [reflexivity|]. split; [reflexivity|]. split; [reflexivity|].
  split; [reflexivity|].
  destruct (proj2 (approve_and_skip_move_the_current_draft "a" Approved Sample.session
                     Scenario.one_draft "2300001" Scenario.e1
                     (or_introl (conj eq_refl eq_refl)) eq_refl eq_refl eq_refl)
              (JsonObject Scenario.e1) eq_refl)
    as [st' [E [Hem [_ [Hstop [Hb _]]]]]].
  exists st'. split; [exact E|]. split; [exact Hem|].
  split; [apply Hstop; exact Hem | exact Hb].
Defined.

Lemma other_keys_witness :
  ("" <> "e")%string /\ ("" <> "a" /\ "" <> "s")%string /\
  snd (handleKeypress_with_key "" (mkKey (Some "right") false) Sample.pair
         Scenario.one_draft) = Scenario.one_draft /\
  fst (handleKeypress_with_key "" (mkKey (Some "right") false) Sample.pair
         Scenario.one_draft)
    = Ok (mkReview Drafts (emails Sample.pair) 1 true).
Proof.
  assert ("" <> "e")%string as He by discriminate.
  assert ("" <> "a" /\ "" <> "s")%string as H by (split; discriminate).
  split; [exact He|]. split; [exact H|]. split; [|reflexivity].
  exact (other_keys_change_nothing "" (mkKey (Some "right") false) Sample.pair
           Scenario.one_draft He (or_intror H)).
Defined.

Lemma dry_run_report_witness :
  dryRun (Scenario.opts 2 0 true) = true /\
  fst (sendApprovedEmails Scenario.reliable (Scenario.opts 2 0 true)
         Scenario.three_approved)
  = Ok (Results.mk [dry_entry Scenario.e1; dry_entry Scenario.e2] [] true).
Proof.
  split; [reflexivity|].
  exact (dry_run_reports_what_it_would_send Scenario.reliable (Scenario.opts 2 0 true)
           Scenario.three_approved eq_refl).
Defined.

Lemma negative_limit_witness :
  configured (Scenario.opts (-1) 0 false) Scenario.three_approved /\
  exists res,
    fst (sendApprovedEmails Scenario.reliable (Scenario.opts (-1) 0 false)
           Scenario.three_approved) = Ok res /\
    Z.of_nat (List.length (Results.sent res) + List.length (Results.errors res)) = 2%Z.
Proof.
  assert (configured (Scenario.opts (-1) 0 false) Scenario.three_approved) as Hc
      by (right; split; reflexivity).
  split; [exact Hc|].
  destruct (sendApprovedEmails_respects_the_limit Scenario.reliable
              (Scenario.opts (-1) 0 false) Scenario.three_approved Hc)
    as [res [E [_ Hn]]].
  exists res. split; [exact E | exact Hn].
Defined.

Lemma real_run_report_witness :
  dryRun (Scenario.opts 10 0 false) = false /\
  configured (Scenario.opts 10 0 false) Scenario.three_approved /\
  well_formed (approved (fs Scenario.three_approved)) = true /\
  exists res w',
    sendApprovedEmails Scenario.second_fails (Scenario.opts 10 0 false)
      Scenario.three_approved = (Ok res, w') /\
    (forall x, In x (Results.sent res) ->
       dir_lookup (SentEntry.awardId x) (approved (fs w')) = None /\
       exists u,
         dir_lookup (SentEntry.awardId x) (sent (fs w')) = Some (JsonObject u) /\
         resend_id u = SentEntry.resendId x) /\
    (forall y, In y (Results.errors res) ->
       exists e, ErrorEntry.awardId y = award_id e /\
                 dir_lookup (award_id e) (approved (fs w')) = Some (JsonObject e)) /\
    map SentEntry.awardId (Results.sent res) = ["2300001"; "2300003"] /\
    exists u,
      dir_lookup "2300003" (sent (fs w')) = Some (JsonObject u) /\
      sent_at Scenario.e3 = None /\
      sent_at u = Some "2025-12-01T09:00:00.000Z" /\
      resend_id u = Some "re_1".
Proof.
  assert (configured (Scenario.opts 10 0 false) Scenario.three_approved) as Hc
      by (right; split; reflexivity).
  split; [reflexivity|]. split; [exact Hc|]. split; [reflexivity|].
  destruct (a_real_run_files_what_it_reports Scenario.second_fails
              (Scenario.opts 10 0 false) Scenario.three_approved eq_refl Hc eq_refl)
    as [res [w' [chunks [E [_ [Hs He]]]]]].
  exists res, w'. split; [exact E|]. split.
  { intros x Hx. destruct (Hs x Hx) as [e [u [k [_ [_ [_ [Ha [Hl [_ [Hr _]]]]]]]]]].
    split; [exact Ha|]. exists u. split; [exact Hl | exact Hr]. }
  split.
  { intros y Hy. destruct (He y Hy) as [e [_ [H1 [_ H2]]]]. exists e.
    split; assumption. }
  pose proof (f_equal fst E) as Er. pose proof (f_equal snd E) as Ew.
  cbn [fst snd] in Er, Ew. vm_compute in Er. injection Er as <-. rewrite <- Ew.
  split; [reflexivity|].
  eexists. split; [vm_compute; reflexivity|]. repeat split.
Defined.

Lemma undelivered_witness :
  dryRun (Scenario.opts 10 0 false) = false /\
  configured (Scenario.opts 10 0 false) Scenario.three_approved /\
  well_formed (approved (fs Scenario.three_approved)) = true /\
  exists res w',
    sendApprovedEmails Scenario.second_fails (Scenario.opts 10 0 false)
      Scenario.three_approved = (Ok res, w') /\
    forall e,
      In e (records (approved (fs w'))) <->
      In e (records (approved (fs Scenario.three_approved))) /\
      ~ In (award_id e) (map SentEntry.awardId (Results.sent res)).
Proof.
  assert (configured (Scenario.opts 10 0 false) Scenario.three_approved) as Hc
      by (right; split; reflexivity).
  split; [reflexivity|]. split; [exact Hc|]. split; [reflexivity|].
  exact (only_undelivered_records_stay_approved Scenario.second_fails
           (Scenario.opts 10 0 false) Scenario.three_approved eq_refl Hc eq_refl).
Defined.

Lemma life_of_a_record_witness :
  occurrences (award_id Scenario.e1) (fs Sample.blank) = 0 /\
  sent_at Scenario.e1 = None /\
  exists u,
    fst (markAsSent Scenario.reliable Scenario.e1 (Some "re_1")
           (snd (moveFile "2300001" Drafts Approved
                   (snd (saveDraft Scenario.e1 Sample.blank))))) = Ok u /\
    only_in "2300001" Sent
      (fs (snd (markAsSent Scenario.reliable Scenario.e1 (Some "re_1")
                  (snd (moveFile "2300001" Drafts Approved
                          (snd (saveDraft Scenario.e1 Sample.blank))))))) /\
    sent_at u = Some "2025-12-01T09:00:00.000Z" /\
    resend_id u = Some "re_1".
Proof.
  split; [reflexivity|]. split; [reflexivity|].
  destruct (a_record_is_in_one_collection_at_each_stage Scenario.reliable Scenario.e1
              (Some "re_1") Sample.blank eq_refl)
    as [_ [_ [u [E [H [_ [Ht [Hr _]]]]]]]].
  exists u. split; [exact E|]. split; [exact H|]. split; [exact Ht | exact Hr].
Defined.

Lemma recorded_variants_witness :
  variants_json (fs Sample.ready) = Some Scenario.usable_config /\
  exists e w',
    generateEmail Scenario.reliable Scenario.prompt Scenario.finish
      Scenario.the_award None Sample.ready = (Ok e, w') /\
    exists t d c reply,
      (In t (templates Scenario.usable_config) /\ enabled t <> EnabledBool false) /\
      (In d (ouro_descriptions Scenario.usable_config) /\
       enabled d <> EnabledBool false) /\
      (In c (call_to_actions Scenario.usable_config) /\
       enabled c <> EnabledBool false) /\
      variants e = {| template_id := t_id t; template_name := t_name t;
                      ouro_description_id := b_id d; call_to_action_id := b_id c |} /\
      In (EvModelCall
            (Scenario.prompt Scenario.the_award
               {| Style.angle := angle t; Style.tone := tone t;
                  Style.subject_line_style := subject_line_style t;
                  Style.sign_off_style := sign_off_style t;
                  Style.ouro_description := content d;
                  Style.call_to_action := content c |}) reply)
         (log w').
Proof.
  split; [reflexivity|].
  eexists. eexists. split; [vm_compute; reflexivity|].
  apply (generateEmail_records_the_variants_it_used Scenario.reliable Scenario.prompt
           Scenario.finish Scenario.the_award None Scenario.usable_config Sample.ready);
    [reflexivity | vm_compute; reflexivity].
Defined.

(** ** The calls of the delivery API *)

Section Deliveries.
Variable out : outside.

Lemma send_one_deliveries (opts : send_options) (total i : nat) (e : email)
    (res : Results.t) (w : world) :
  exists res1 w1 evs1,
    send_one out opts total i e res w = (Ok res1, w1) /\
    log w1 = log w ++ evs1 /\
    List.length (filter is_dispatch evs1) =
      (if dryRun opts then 0 else if has_recipient e then 1 else 0) /\
    forall req reply, In (EvDispatch req reply) evs1 ->
      dryRun opts = false /\ has_recipient e = true /\
      req = request_of e (fromEmail opts) (fromName opts).
Proof.
  rewrite send_one_run. cbv zeta. unfold has_recipient.
  destruct (onProgress opts), (JS.truthy (pi_email e)), (dryRun opts);
    cbn [negb andb];
    try match goal with
        | |- context [match ?r with ReplyData _ => _ | _ => _ end] => destruct r
        end;
    try destruct ((i <? total - 1)%nat && (0 <? delay opts)%Z);
    (eexists; eexists; eexists; split; [reflexivity|];
     split; [cbn [log]; reflexivity|]; split; [reflexivity|];
     intros req reply H; simpl in H;
     repeat (destruct H as [H | H]; try discriminate H);
     try contradiction;
     injection H as <- _; repeat split).
Qed.

Lemma send_loop_deliveries (opts : send_options) (total : nat) (rest : list email) :
  forall (i : nat) (res : Results.t) (w : world),
  exists res' w' evs,
    send_loop out opts total i rest res w = (Ok res', w') /\
    log w' = log w ++ evs /\
    List.length (filter is_dispatch evs) =
      (if dryRun opts then 0 else List.length (filter has_recipient rest)) /\
    forall req reply, In (EvDispatch req reply) evs ->
      exists e, In e rest /\ has_recipient e = true /\
                req = request_of e (fromEmail opts) (fromName opts).
Proof.
  induction rest as [|e rest IH]; intros i res w.
  - exists res, w, []. simpl. unfold ret. rewrite app_nil_r.
    split; [reflexivity|]. split; [reflexivity|].
    split; [destruct (dryRun opts); reflexivity | intros req reply []].
  - cbn [send_loop]. unfold bind.
    destruct (send_one_deliveries opts total i e res w)
      as [res1 [w1 [evs1 [E1 [L1 [C1 D1]]]]]].
    rewrite E1.
    destruct (IH (S i) res1 w1) as [res' [w' [evs [E [L [C D]]]]]].
    exists res', w', (evs1 ++ evs). split; [exact E|].
    split; [rewrite L, L1, app_assoc; reflexivity|]. split.
    + rewrite filter_app, length_app, C1, C. cbn [filter].
      destruct (dryRun opts); [reflexivity|].
      destruct (has_recipient e); reflexivity.
    + intros req reply H. apply in_app_or in H. destruct H as [H | H].
      * destruct (D1 req reply H) as [_ [Hr Hq]]. exists e.
        split; [left; reflexivity | split; assumption].
      * destruct (D req reply H) as [e0 [Hin H0]]. exists e0.
        split; [right; exact Hin | exact H0].
Qed.

(** X23.  A configured run that is not dry calls the delivery API exactly
    once for every record it takes up that has a recipient, and for no other:
    each call carries that record's address, subject and body.  A dry run
    calls it not at all. *)
Theorem one_delivery_attempt_per_addressed_record (opts : send_options) (w : world) :
  configured opts w ->
  exists evs,
    log (snd (sendApprovedEmails out opts w)) = log w ++ approved_reads (fs w) ++ evs /\
    List.length (filter is_dispatch evs) =
      (if dryRun opts then 0
       else List.length (filter has_recipient (to_send opts (fs w)))) /\
    forall req reply, In (EvDispatch req reply) evs ->
      exists e,
        In e (to_send opts (fs w)) /\
        pi_email e = Some (to req) /\ to req <> ""%string /\
        req_subject req = subject e /\ text req = body e.
Proof.
  intros Hc. rewrite sendApprovedEmails_unfold.
  destruct (configured_passes opts w Hc) as [-> ->].
  destruct (send_loop_deliveries opts (List.length (to_send opts (fs w)))
              (to_send opts (fs w)) 0 (Results.mk [] [] (dryRun opts))
              (mkWorld (fs w) (env w) (log w ++ approved_reads (fs w))))
    as [res' [w' [evs [E [L [C D]]]]]].
  exists evs. rewrite E. cbn [snd log] in *.
  split; [rewrite L, app_assoc; reflexivity|]. split; [exact C|].
  intros req reply H. destruct (D req reply H) as [e [Hin [Hr ->]]].
  exists e. split; [exact Hin|]. unfold has_recipient, JS.truthy in Hr.
  destruct (pi_email e) as [addr|] eqn:P; [|discriminate].
  cbn [request_of to req_subject text]. rewrite P. cbn [interpolate].
  split; [reflexivity|]. split; [|split; reflexivity].
  intros C0. rewrite C0 in Hr. discriminate.
Qed.

End Deliveries.

Lemma deliveries_witness :
  configured (Scenario.opts 2 0 false) Scenario.three_approved /\
  exists evs,
    log (snd (sendApprovedEmails Scenario.reliable (Scenario.opts 2 0 false)
                Scenario.three_approved))
      = log Scenario.three_approved ++ approved_reads (fs Scenario.three_approved) ++ evs /\
    List.length (filter is_dispatch evs) = 2.
Proof.
  assert (configured (Scenario.opts 2 0 false) Scenario.three_approved) as Hc
      by (right; split; reflexivity).
  split; [exact Hc|].
  destruct (one_delivery_attempt_per_addressed_record Scenario.reliable
              (Scenario.opts 2 0 false) Scenario.three_approved Hc)
    as [evs [L [C _]]].
  exists evs. split; [exact L | exact C].
Defined.

Lemma matchesKeywords_witness :
  matchesKeywords (L := Scenario.ascii) "quantum sensors" ["quantum"]
    = matchesKeywords (L := Scenario.ascii) "Quantum Sensors" ["QUANTUM"] /\
  matchesKeywords (L := Scenario.ascii) "QUANTUM sensors" ["Quantum"] = true /\
  matchesKeywords (L := Scenario.ascii) "Quantum Sensors" ["graphene"; ""] = true.
Proof.
  pose proof (matchesKeywords_ignores_case (L := Scenario.ascii)
                "Quantum Sensors" ["QUANTUM"]) as [H1 H2].
  split; [|split].
  - exact (proj1 (H2 toLowerCaseAscii_idem toLowerCaseAscii_empty)).
  - rewrite (H1 "QUANTUM sensors" ["Quantum"] eq_refl eq_refl eq_refl). reflexivity.
  - apply (proj2 (proj2 (matchesKeywords_ignores_case (L := Scenario.ascii)
                           "Quantum Sensors" ["graphene"; ""])
                    toLowerCaseAscii_idem toLowerCaseAscii_empty));
      [reflexivity | right; left; reflexivity].
Defined.

Lemma moveFile_witness :
  dir_lookup "2300001" (drafts (fs Scenario.one_draft)) = Some (JsonObject Scenario.e1) /\
  dir_lookup "2300001"
    (approved (fs (snd (moveFile "2300001" Drafts Approved Scenario.one_draft))))
    = Some (JsonObject Scenario.e1) /\
  dir_lookup "2300009" (drafts (fs Scenario.one_draft)) = None /\
  moveFile "2300009" Drafts Approved Scenario.one_draft
    = (Throw (Error "ENOENT: no such file or directory"), Scenario.one_draft).
Proof.
  split; [reflexivity|]. split.
  - assert (Drafts <> Approved) as Hd by discriminate.
    destruct (proj2 (moveFile_renames "2300001" Drafts Approved Scenario.one_draft)
                (JsonObject Scenario.e1) eq_refl Hd) as [_ [H _]].
    exact H.
  - split; [reflexivity|].
    exact (proj1 (moveFile_renames "2300009" Drafts Approved Scenario.one_draft) eq_refl).
Defined.

Lemma handleKeypress_witness :
  ("L" <> "e")%string /\
  in_bounds Sample.pair /\
  (exists st',
     fst (handleKeypress_with_key "L" (mkKey (Some "l") false) Sample.pair
            Scenario.one_draft) = Ok st' /\
     in_bounds st' /\ currentIndex st' = 1) /\
  fst (handleKeypress_with_key "l" (plain "l") Sample.pair Scenario.one_draft)
    = fst (handleKeypress "l" Sample.pair Scenario.one_draft) /\
  fst (handleKeypress_with_key (String (ascii_of_nat 3) "") (mkKey (Some "c") true)
         Sample.pair Scenario.one_draft)
    = Ok (mkReview Drafts (emails Sample.pair) 0 false).
Proof.
  assert ("L" <> "e")%string as He by discriminate.
  assert (in_bounds Sample.pair) as Hb by (intros _; simpl; lia).
  split; [exact He|]. split; [exact Hb|]. split; [|split; reflexivity].
  destruct (proj1 (proj2 (handleKeypress_keeps_the_index_in_bounds "L"
                            (mkKey (Some "l") false) Sample.pair Scenario.one_draft))
              He)
    as [st' [E [_ H]]].
  exists st'. split; [exact E|]. split; [exact (H Hb)|].
  cbn in E. injection E as <-. reflexivity.
Defined.

Lemma generateEmails_witness :
  exists res w',
    generateEmails Scenario.reliable Scenario.prompt Scenario.finish
      [Scenario.the_award; Scenario.no_contact] 10 true None Sample.ready = (Ok res, w') /\
    In ("2301234", "drafts/2301234.json")%string (Generated.generated res) /\
    occurrences "2301234" (fs Sample.ready) = 0 /\
    exists e,
      pi_email e = Some "a@b.edu"%string /\
      dir_lookup "2301234" (drafts (fs w')) = Some (JsonObject e).
Proof.
  destruct (generateEmails_only_adds_drafts Scenario.reliable Scenario.prompt
              Scenario.finish [Scenario.the_award; Scenario.no_contact] 10 true None
              Sample.ready) as [res [w' [E [_ [_ Hnew]]]]].
  assert (In ("2301234", "drafts/2301234.json")%string (Generated.generated res)) as Hin.
  { assert (fst (generateEmails Scenario.reliable Scenario.prompt Scenario.finish
                   [Scenario.the_award; Scenario.no_contact] 10 true None Sample.ready)
            = Ok res) as F by (rewrite E; reflexivity).
    vm_compute in F. injection F as <-. left. reflexivity. }
  exists res, w'. split; [exact E|]. split; [exact Hin|]. split; [reflexivity|].
  destruct (Hnew _ _ Hin) as [a [e [Ha [_ [Hid [_ [_ [Hd Hl]]]]]]]].
  exists e. split; [|exact Hl].
  destruct Hd as [_ [Hp _]]. rewrite Hp.
  destruct Ha as [<- | [<- | []]]; [reflexivity | discriminate Hid].
Defined.

(** ** The generator and the loader together *)

Section Rerun.
Context {L : JS.Lowering}.
Variable out : outside.
Variable buildPrompt : award -> Style.guide -> string.
Variable finishBody : string -> string -> string.

(** X24.  What a batch generated is not offered again: after
    [generateEmails], [getUnprocessedAwards] returns no award whose id the
    batch reported as generated, and returns only awards it would have
    returned before the batch. *)
Theorem generated_awards_are_not_offered_again
    (awards : list award) (limit : Z) (progress : bool) (senderName : option string)
    (year : string) (keywords : list string) (w : world) :
  exists res w' before after,
    generateEmails out buildPrompt finishBody awards limit progress senderName w
      = (Ok res, w') /\
    fst (getUnprocessedAwards year keywords w) = Ok before /\
    fst (getUnprocessedAwards year keywords w') = Ok after /\
    forall a, In a after ->
      In a before /\
      ~ In (awardId_of a) (map fst (Generated.generated res)).
Proof.
  destruct (generateEmails_spec out buildPrompt finishBody awards limit progress
              senderName w)
    as [res [w' [evs [shuffled [E [_ [_ [_ [_ [Hs [_ [_ Hnew]]]]]]]]]]]].
  exists res, w'. rewrite !getUnprocessedAwards_run. cbn [fst].
  eexists. eexists. split; [exact E|]. split; [reflexivity|]. split; [reflexivity|].
  intros a Ha. apply filter_In in Ha. destruct Ha as [Hl Hn].
  assert (occurrences (awardId_of a) (fs w') = 0) as Hocc
    by (unfold not_yet_processed in Hn; apply Nat.eqb_eq in Hn; exact Hn).
  split.
  - apply filter_In. split.
    + unfold loaded in *. destruct Hs as [_ [_ [_ [Haw _]]]]. rewrite <- Haw. exact Hl.
    + unfold not_yet_processed. apply Nat.eqb_eq.
      exact (only_adds_occurrences _ _ _ Hs Hocc).
  - intros C. apply in_map_iff in C. destruct C as [[id path] [Hid Hin]].
    simpl in Hid. subst id.
    destruct (Hnew _ _ Hin) as [a0 [e [_ [_ [_ [_ [_ [_ Hlook]]]]]]]].
    rewrite (occurrences_0_lookup _ _ Hocc) in Hlook. discriminate.
Qed.

End Rerun.

Lemma rerun_witness :
  exists res w',
    generateEmails Scenario.reliable Scenario.prompt Scenario.finish
      [Scenario.the_award] 10 false None Sample.ready = (Ok res, w') /\
    fst (getUnprocessedAwards (L := Scenario.ascii) "2023" [] Sample.ready) = Ok [Scenario.the_award] /\
    fst (getUnprocessedAwards (L := Scenario.ascii) "2023" [] w') = Ok [].
Proof.
  destruct (generated_awards_are_not_offered_again (L := Scenario.ascii) Scenario.reliable Scenario.prompt
              Scenario.finish [Scenario.the_award] 10 false None "2023" []
              Sample.ready) as [res [w' [before [after [E [Hb [Ha H]]]]]]].
  exists res, w'. split; [exact E|]. split; [reflexivity|].
  rewrite Ha. f_equal.
  assert (fst (generateEmails Scenario.reliable Scenario.prompt Scenario.finish
                 [Scenario.the_award] 10 false None Sample.ready) = Ok res) as F
    by (rewrite E; reflexivity).
  vm_compute in F. injection F as <-.
  assert (before = [Scenario.the_award]) as ->
    by (assert (Ok before = Ok [Scenario.the_award]) as Q
          by (rewrite <- Hb; reflexivity); injection Q as ->; reflexivity).
  destruct after as [|a after]; [reflexivity|]. exfalso.
  destruct (H a (or_introl eq_refl)) as [Hin Hnot].
  destruct Hin as [<- | []]. apply Hnot. left. reflexivity.
Defined.
